(** * Vesting computation and claim engine of vibecoin-mcp

    A shallow embedding of [src/lib/vesting.js].  The file holds two
    revisions of the same module: the first one (lines 1-438) reads the
    schedule through [getSchedule] and takes [releasable] from the
    contract, the second one (lines 439-793) reads it through [schedules]
    and computes [releasable] itself.  They are embedded as the modules
    [V1] and [V2]; what they share is stated once.  The coin launcher of
    [src/unnamed/part_000], which uses the same wallet store, is embedded
    as the module [Launch].

    Conventions
    - a JavaScript BigInt is a [Z]; BigInt [/] truncates toward zero
      ([Z.quot]) and throws a RangeError on a zero divisor;
    - a thrown exception or a rejected promise is [Throw message];
    - calls to the ledger are recorded in a trace, so that "no transaction
      was submitted" is a statement about that trace;
    - a JavaScript Number is an IEEE 754 binary64 value, taken from the
      specification of the standard library ([SpecFloat]); integer
      timestamps are kept as [Z], which binary64 represents exactly up to
      2^53, and only the quotients go through binary64. *)

From Stdlib Require Import ZArith List String Ascii Bool Lia.
From Stdlib Require Import Decimal DecimalString DecimalZ.
From Stdlib Require Hexadecimal HexadecimalString.
From Stdlib Require Import Floats.SpecFloat.
Import ListNotations.

Local Open Scope string_scope.
Local Open Scope Z_scope.

(* ===================================================================== *)
(** ** JavaScript primitives used by the module *)
(* ===================================================================== *)

Module Js.

(** The outcome of evaluating an expression: a value, or an exception
    carrying [err.message]. *)
Inductive Completion (A : Type) : Type :=
| Normal (a : A)
| Throw (message : string).
Arguments Normal {A} a.
Arguments Throw {A} message.

Definition bindC {A B} (c : Completion A) (k : A -> Completion B)
  : Completion B :=
  match c with
  | Normal a => k a
  | Throw m => Throw m
  end.

(** BigInt division [a / b]. *)
Definition bigint_div (a b : Z) : Completion Z :=
  if b =? 0 then Throw "Division by zero" else Normal (Z.quot a b).

(** [BigInt.prototype.toString()], base 10. *)
Definition toString (z : Z) : string :=
  NilZero.string_of_int (Z.to_int z).

(** [!s] for a string (the empty string is the falsy one; a missing
    value is represented by it as well). *)
Definition falsy (s : string) : bool :=
  match s with EmptyString => true | _ => false end.

(** [String.prototype.includes]. *)
Fixpoint includes (hay needle : string) : bool :=
  if prefix needle hay then true
  else match hay with
       | EmptyString => false
       | String _ rest => includes rest needle
       end.

(** [String.prototype.slice(start, end)]: negative indices count from
    the end, everything is clamped to [0, length]. *)
Definition slice (s : string) (start : Z) (stop : option Z) : string :=
  let len := Z.of_nat (String.length s) in
  let norm i := if i <? 0 then Z.max (len + i) 0 else Z.min i len in
  let from := norm start in
  let upto := match stop with Some e => norm e | None => len end in
  substring (Z.to_nat from) (Z.to_nat (upto - from)) s.

Fixpoint repeat_nat (s : string) (n : nat) : string :=
  match n with
  | O => EmptyString
  | S k => s ++ repeat_nat s k
  end.

(** [String.prototype.repeat(count)]: a negative count is a RangeError. *)
Definition repeat (s : string) (count : Z) : Completion string :=
  if count <? 0 then Throw "Invalid count value"
  else Normal (repeat_nat s (Z.to_nat count)).

(** *** Numbers (binary64) *)

Definition prec : Z := 53.
Definition emax : Z := 1024.

(** The Number nearest to an integer (round to nearest, ties to even). *)
Definition Num (z : Z) : spec_float := binary_normalize prec emax z 0 false.

Definition fdiv (x y : spec_float) : spec_float := SFdiv prec emax x y.
Definition fmul (x y : spec_float) : spec_float := SFmul prec emax x y.

(** [Math.floor], as an integer; [None] for NaN and the infinities. *)
Definition Math_floor (x : spec_float) : option Z :=
  match x with
  | S754_zero _ => Some 0
  | S754_finite s m e =>
      let n := if s then Z.neg m else Z.pos m in
      Some (if 0 <=? e then n * 2 ^ e else n / 2 ^ (- e))
  | _ => None
  end.

(** [Math.ceil], as an integer. *)
Definition Math_ceil (x : spec_float) : option Z :=
  match x with
  | S754_zero _ => Some 0
  | S754_finite s m e =>
      let n := if s then Z.neg m else Z.pos m in
      Some (if 0 <=? e then n * 2 ^ e else - ((- n) / 2 ^ (- e)))
  | _ => None
  end.

(** The text of an integral Number inside a template literal. *)
Definition showNumber (n : option Z) : string :=
  match n with
  | Some z => toString z
  | None => "NaN"
  end.

End Js.
Import Js.

(* ===================================================================== *)
(** ** The schedule computation shared by both revisions *)
(* ===================================================================== *)

(** [vestedAmount] as computed at lines 117-126: the end of the window is
    tested first, then its start, and only strictly inside the window is
    the BigInt quotient taken. *)
Definition vestedAmount (totalAmount startTime endTime now : Z)
  : Completion Z :=
  let durationBig := endTime - startTime in
  if now >=? endTime then Normal totalAmount
  else if now <=? startTime then Normal 0
  else bigint_div (totalAmount * (now - startTime)) durationBig.

(** The same computation at lines 527-539 and 688-700, where the contract
    returns [startTime] and [duration]. *)
Definition vestedAmount2 (totalAmount startTime duration now : Z)
  : Completion Z :=
  let startTimeBig := startTime in
  let durationBig := duration in
  let endTime := startTimeBig + durationBig in
  if now >=? endTime then Normal totalAmount
  else if now <=? startTimeBig then Normal 0
  else bigint_div (totalAmount * (now - startTimeBig)) durationBig.

(** A property of the vested amount as a function of [now], stated for
    the computation of both revisions over the same window. *)
Definition inBothRevisions (total start stop : Z)
    (P : (Z -> Completion Z) -> Prop) : Prop :=
  P (vestedAmount total start stop)
  /\ P (vestedAmount2 total start (stop - start)).

(** [releasable] of the second revision (lines 541 and 702): the plain
    BigInt difference. *)
Definition releasableOf (vestedAmount releasedAmount : Z) : Z :=
  vestedAmount - releasedAmount.

(** [unreleased], the locked amount (lines 132 and 544). *)
Definition unreleasedOf (totalAmount vestedAmount : Z) : Z :=
  totalAmount - vestedAmount.

(* ===================================================================== *)
(** ** Amount formatting *)
(* ===================================================================== *)

(** The decimal text that [formatAmount] of the first revision builds
    (lines 138-151 and 340-349) and hands to [parseFloat]: the base-10
    digits of [amount] with a point placed [decimalsNum] digits from the
    right, zero-padded on the left when there are too few digits. *)
Definition formatAmount_text (amount decimalsNum : Z) : Completion string :=
  let amountStr := toString amount in
  let length := Z.of_nat (String.length amountStr) in
  if length <=? decimalsNum then
    bindC (repeat "0" (decimalsNum - length)) (fun zeros =>
    Normal ("0." ++ zeros ++ amountStr)%string)
  else
    let intPart := slice amountStr 0 (Some (length - decimalsNum)) in
    let decPart := slice amountStr (length - decimalsNum) None in
    Normal (intPart ++ "." ++ decPart)%string.

(** Splitting a decimal text at its first point. *)
Fixpoint split_point (s : string) : option (string * string) :=
  match s with
  | EmptyString => None
  | String c rest =>
      if Ascii.eqb c "."%char then Some (EmptyString, rest)
      else match split_point rest with
           | Some (i, f) => Some (String c i, f)
           | None => None
           end
  end.

(** Re-encoding to base units, following the specification's words ("the
    reverse of the decimal placement"; the module itself has no encoder):
    the text must carry exactly [fractionalDigits] digits after its
    point, and the digits on both sides of the point, read together as
    one base-10 numeral, are the amount. *)
Definition encode (text : string) (fractionalDigits : Z) : option Z :=
  match split_point text with
  | Some (intPart, decPart) =>
      if Z.of_nat (String.length decPart) =? fractionalDigits then
        match NilEmpty.uint_of_string (intPart ++ decPart)%string with
        | Some digits => Some (Z.of_uint digits)
        | None => None
        end
      else None
  | None => None
  end.

(** What the runtime does with a text or a Number for display is IEEE
    parsing and locale-dependent printing; it is left abstract, and so is
    [Math.pow], whose result is implementation-approximated. *)
Record Host : Type := {
  (** [parseFloat(text)] followed by the policy of lines 153-156 *)
  display : string -> string;
  (** [parseFloat(text).toLocaleString()] (line 350) *)
  displayLocale : string -> string;
  (** [Math.pow(10, decimals)] for a Number [decimals] *)
  Math_pow10 : Z -> spec_float;
  (** the policy of lines 549-552 on a Number *)
  displayNumber : spec_float -> string;
  (** [toLocaleString()] of a Number (line 716) *)
  displayNumberLocale : spec_float -> string;
  (** the ISO-8601 text of a valid time value in milliseconds *)
  isoText : Z -> string
}.

(** [new Date(ms).toISOString()]: a RangeError outside +-8.64e15 ms. *)
Definition toISOString (h : Host) (ms : Z) : Completion string :=
  if Z.abs ms <=? 8640000000000000 then Normal (isoText h ms)
  else Throw "Invalid time value".

(* ===================================================================== *)
(** ** Progress and time remaining *)
(* ===================================================================== *)

(** [vestingProgress] (lines 165-179 and 561-571).  The timestamps are
    integral Numbers; the percentage inside the window is the binary64
    quotient, times the binary64 100, floored. *)
Definition vestingProgress (nowNum startTimeNum endTimeNum durationNum : Z)
  : option Z :=
  if nowNum >=? endTimeNum then Some 100
  else if nowNum <=? startTimeNum then Some 0
  else Math_floor
         (fmul (fdiv (Num (nowNum - startTimeNum)) (Num durationNum))
               (Num 100)).

(** The percentage the specification asks for: the exact integer floor,
    clamped to [0, 100]. *)
Definition exactProgress (now startTime endTime : Z) : Z :=
  Z.max 0 (Z.min 100 (100 * (now - startTime) / (endTime - startTime))).

(** The seconds of a window of [duration] seconds, started at 0, at which
    the reported percentage is not the exact one. *)
Definition inexactSeconds (duration : Z) : list Z :=
  filter (fun elapsed =>
            match vestingProgress elapsed 0 duration duration with
            | Some p => negb (p =? exactProgress elapsed 0 duration)
            | None => true
            end)
         (map Z.of_nat (seq 1 (Z.to_nat duration - 1))).

(** [timeRemaining] (lines 166-186 and 562-577). *)
Definition timeRemaining (nowNum startTimeNum endTimeNum : Z) : string :=
  if nowNum >=? endTimeNum then "Fully vested"
  else if nowNum <=? startTimeNum then
    ("Starts in "
       ++ showNumber (Math_ceil (fdiv (Num (startTimeNum - nowNum)) (Num 86400)))
       ++ " days")%string
  else
    let remainingSeconds := endTimeNum - nowNum in
    let remainingDays := Math_ceil (fdiv (Num remainingSeconds) (Num 86400)) in
    match remainingDays with
    | Some days =>
        if days >? 30 then
          (showNumber (Math_floor (fdiv (Num days) (Num 30)))
             ++ " months remaining")%string
        else (showNumber remainingDays ++ " days remaining")%string
    | None => (showNumber remainingDays ++ " days remaining")%string
    end.

(* ===================================================================== *)
(** ** Effects: ledger calls, exceptions, results *)
(* ===================================================================== *)

(** The calls that reach the ledger.  [CallRelease] is the only one that
    submits a transaction. *)
Inductive Call : Type :=
| CallTokenInfo (token : string)
| CallSchedule (beneficiary token : string)
| CallRelease (signer token : string)
| CallWait
| CallBalanceOf (token account : string).

Definition Trace : Type := list Call.

Definition isRelease (c : Call) : bool :=
  match c with CallRelease _ _ => true | _ => false end.

(** The transactions submitted in a trace. *)
Definition submitted (t : Trace) : Trace := filter isRelease t.

(** An asynchronous computation: it extends the trace of ledger calls and
    either yields a value or throws. *)
Definition M (A : Type) : Type := Trace -> Completion A * Trace.

Definition ret {A} (a : A) : M A := fun t => (Normal a, t).

Definition bind {A B} (c : M A) (k : A -> M B) : M B :=
  fun t =>
    match c t with
    | (Normal a, t') => k a t'
    | (Throw m, t') => (Throw m, t')
    end.

(** A pure step that may throw. *)
Definition lift {A} (c : Completion A) : M A := fun t => (c, t).

(** [await] of a ledger call: the call is recorded, and the collaborator
    answers; its answer may depend on everything that happened before. *)
Definition call {A} (c : Call) (answer : Trace -> Completion A) : M A :=
  fun t => (answer t, (t ++ [c])%list).

(** [try { body } catch (err) { handler(err.message) }]. *)
Definition try_catch {A} (body : M A) (handler : string -> M A) : M A :=
  fun t =>
    match body t with
    | (Normal a, t') => (Normal a, t')
    | (Throw m, t') => handler m t'
    end.

Declare Scope run_scope.
Delimit Scope run_scope with run.
Notation "x <- c ;; k" := (bind c (fun x => k))
  (at level 61, c at next level, right associativity) : run_scope.
Notation "' pat <- c ;; k" := (bind c (fun x => match x with pat => k end))
  (at level 61, pat pattern, c at next level, right associativity)
  : run_scope.

(** The object every exported function resolves to: [success: false] with a
    message and the context fields that accompany it, or [success: true]
    with a payload. *)
Inductive Result (P : Type) : Type :=
| Failure (error : string) (context : list (string * string))
| Success (payload : P).
Arguments Failure {P} error context.
Arguments Success {P} payload.

Definition success {P} (r : Result P) : bool :=
  match r with Failure _ _ => false | Success _ => true end.

(** A numeric value as ethers hands it over: a BigInt or a Number. *)
Inductive Numeric : Type :=
| BigIntV (z : Z)
| NumberV (z : Z).

(** [const x = Number(v)] where a Number is wanted; [Math.pow(10, v)]
    refuses a BigInt with a TypeError. *)
Definition toNumber_strict (v : Numeric) : Completion Z :=
  match v with
  | NumberV z => Normal z
  | BigIntV _ => Throw "Cannot convert a BigInt value to a number"
  end.

Record WalletAddress : Type := {
  wa_success : bool;
  wa_address : string
}.

Inductive Unlock : Type :=
| UnlockFailed (error : string) (context : list (string * string))
| Unlocked (address : string).

Record Receipt : Type := {
  hash : string;
  blockNumber : Z
}.

(** A submitted transaction: [tx.wait()] resolves to the receipt. *)
Record Tx : Type := {
  wait : Trace -> Completion Receipt
}.

(** The collaborators both revisions share: the wallet store, the address
    check of ethers, the token contract, the clock, the configuration and
    the display primitives. *)
Record Collaborators : Type := {
  hasWallet : bool;
  getWalletAddress : WalletAddress;
  getDecryptedWallet : string -> Unlock;
  isAddress : string -> bool;
  (** [Promise.all([token.name(), token.symbol(), token.decimals()])] *)
  tokenInfo : string -> Trace -> Completion (string * string * Numeric);
  balanceOf : string -> string -> Trace -> Completion Z;
  (** [Math.floor(Date.now() / 1000)] at the first reading of a call
      (lines 115, 527 and 688) *)
  clock : Trace -> Z;
  (** the same at the second reading of [getVestingInfo] (lines 160 and
      556), which feeds the progress and the label; a clock that does not
      run backwards gives [clock t <= clock_second t] *)
  clock_second : Trace -> Z;
  (** [process.env.VESTING_MANAGER_ADDRESS], empty when unset *)
  env_VESTING_MANAGER_ADDRESS : string;
  host : Host
}.

(** The payload of a successful [getVestingInfo]; the nested objects
    [token], [vesting] and [raw] are flattened. *)
Record VestingInfo : Type := {
  vi_token_address : string;
  vi_token_name : string;
  vi_token_symbol : string;
  vi_token_decimals : Numeric;
  vi_beneficiary : string;
  vi_totalAmount : string;
  vi_releasedAmount : string;
  vi_releasableAmount : string;
  vi_lockedAmount : string;
  vi_progress : string;
  vi_timeRemaining : string;
  vi_startTime : string;
  vi_endTime : string;
  raw_totalAmount : string;
  raw_releasedAmount : string;
  raw_releasableAmount : string;
  raw_lockedAmount : string;
  vi_vestingManagerAddress : string
}.

(** The payload of a successful [claimVestedTokens]. *)
Record Claim : Type := {
  cl_message : string;
  cl_token_address : string;
  cl_token_name : string;
  cl_token_symbol : string;
  cl_amount : string;
  cl_rawAmount : string;
  cl_hash : string;
  cl_blockNumber : Z;
  cl_newBalance : string;
  cl_vestingManagerAddress : string
}.

(** The messages of the failure taxonomy, as the source spells them. *)
Definition msg_NoWallet : string := "No wallet found. Create a wallet first.".
Definition msg_InvalidTokenAddress : string := "Invalid token address".
Definition msg_ScheduleNotFound : string :=
  "No vesting schedule found for this token. The vesting schedule may not have been created yet.".
Definition msg_ScheduleNotFound_claim : string :=
  "No vesting schedule found for this token.".
Definition msg_ScheduleNotFound_revert : string :=
  "No vesting schedule found for this token and wallet combination".
Definition msg_NothingToClaim : string :=
  "No tokens available to claim. All vested tokens have already been claimed.".
Definition msg_InvalidPassword : string := "Invalid password".
Definition msg_TransactionReverted : string :=
  "Transaction reverted. No vesting schedule may exist or no tokens are available to claim.".
Definition msg_InvalidInput : string := "Token addresses array is required".

(** The test both [catch] blocks use to recognise a revert. *)
Definition isRevert (message : string) : bool :=
  includes message "execution reverted" || includes message "call revert".

(** The [catch] block of [getVestingInfo] (lines 215-235 and 607-622); a
    thrown value is an Error with a message. *)
Definition getVestingInfo_catch (tokenAddress beneficiary vma message : string)
  : M (Result VestingInfo) :=
  if isRevert message then
    ret (Failure msg_ScheduleNotFound_revert
           [("tokenAddress", tokenAddress); ("beneficiary", beneficiary);
            ("vestingManagerAddress", vma)])
  else ret (Failure ("Failed to get vesting info: " ++ message)%string []).

(** The [catch] block of [claimVestedTokens] (lines 381-406 and 746-764). *)
Definition claimVestedTokens_catch (tokenAddress message : string)
  : M (Result Claim) :=
  if includes message "Unsupported state" || includes message "auth" then
    ret (Failure msg_InvalidPassword [])
  else if isRevert message then
    ret (Failure msg_TransactionReverted [("tokenAddress", tokenAddress)])
  else ret (Failure ("Claim failed: " ++ message)%string []).

(* ===================================================================== *)
(** ** First revision (lines 1-438) *)
(* ===================================================================== *)

Module V1.

(** What [getSchedule(beneficiary, token)] returns. *)
Record Schedule : Type := {
  totalAmount : Z;
  released : Z;
  releasable : Z;
  startTime : Z;
  endTime : Z
}.

Record VestingManager : Type := {
  getSchedule : string -> string -> Trace -> Completion Schedule;
  release : string -> string -> Trace -> Completion Tx
}.

Definition VESTING_MANAGER_ADDRESS (C : Collaborators) : string :=
  if falsy (env_VESTING_MANAGER_ADDRESS C)
  then "0x943007c14606446BD433426b1E2363309d4C9F0f"
  else env_VESTING_MANAGER_ADDRESS C.

(** Token metadata with its fallback (lines 64-80 and 278-294):
    [decimalsNum] is a Number whichever type [decimals] had. *)
Definition readToken (C : Collaborators) (tokenAddress : string)
  : M (string * string * Z) :=
  try_catch
    (' (tokenName, tokenSymbol, decimals)
       <- call (CallTokenInfo tokenAddress) (tokenInfo C tokenAddress) ;;
     ret (tokenName, tokenSymbol,
          match decimals with BigIntV z => z | NumberV z => z end))%run
    (fun _ => ret ("Unknown", "UNKNOWN", 18)).

(** [formatAmount] of [getVestingInfo] (lines 135-157). *)
Definition formatAmount (C : Collaborators) (decimalsNum amount : Z)
  : Completion string :=
  bindC (formatAmount_text amount decimalsNum) (fun text =>
  Normal (display (host C) text)).

(** [formatAmount] of [claimVestedTokens] (lines 338-351). *)
Definition formatAmount_claim (C : Collaborators) (decimalsNum amount : Z)
  : Completion string :=
  bindC (formatAmount_text amount decimalsNum) (fun text =>
  Normal (displayLocale (host C) text)).

(** Lines 114-214, once the schedule exists. *)
Definition describe (C : Collaborators) (tokenAddress beneficiary : string)
    (tokenName tokenSymbol : string) (decimalsNum : Z) (s : Schedule)
  : M (Result VestingInfo) :=
  fun t =>
  (let now := clock C t in
   vested <- lift (vestedAmount (totalAmount s) (startTime s) (endTime s) now) ;;
   let releasableAmount := releasable s in
   let unreleased := unreleasedOf (totalAmount s) vested in
   let nowNum := clock_second C t in
   let startTimeNum := startTime s in
   let endTimeNum := endTime s in
   let durationNum := endTimeNum - startTimeNum in
   let progress := vestingProgress nowNum startTimeNum endTimeNum durationNum in
   let remaining := timeRemaining nowNum startTimeNum endTimeNum in
   fTotal <- lift (formatAmount C decimalsNum (totalAmount s)) ;;
   fReleased <- lift (formatAmount C decimalsNum (released s)) ;;
   fReleasable <- lift (formatAmount C decimalsNum releasableAmount) ;;
   fLocked <- lift (formatAmount C decimalsNum unreleased) ;;
   isoStart <- lift (toISOString (host C) (startTimeNum * 1000)) ;;
   isoEnd <- lift (toISOString (host C) (endTimeNum * 1000)) ;;
   ret (Success
          {| vi_token_address := tokenAddress;
             vi_token_name := tokenName;
             vi_token_symbol := tokenSymbol;
             vi_token_decimals := NumberV decimalsNum;
             vi_beneficiary := beneficiary;
             vi_totalAmount := fTotal;
             vi_releasedAmount := fReleased;
             vi_releasableAmount := fReleasable;
             vi_lockedAmount := fLocked;
             vi_progress := (showNumber progress ++ "%")%string;
             vi_timeRemaining := remaining;
             vi_startTime := isoStart;
             vi_endTime := isoEnd;
             raw_totalAmount := toString (totalAmount s);
             raw_releasedAmount := toString (released s);
             raw_releasableAmount := toString releasableAmount;
             raw_lockedAmount := toString unreleased;
             vi_vestingManagerAddress := VESTING_MANAGER_ADDRESS C |}))%run t.

(** The guarded schedule read (lines 83-93 and 297-306): a failure of the
    call is turned into the result the function returns at once. *)
Definition fetchSchedule {P} (K : VestingManager)
    (beneficiary tokenAddress : string) (context : list (string * string))
  : M (Result P + Schedule) :=
  try_catch
    (schedule <- call (CallSchedule beneficiary tokenAddress)
                      (getSchedule K beneficiary tokenAddress) ;;
     ret (inr schedule))%run
    (fun message =>
       ret (inl (Failure ("Failed to fetch vesting schedule: " ++ message)%string
                         context))).

(** [getVestingInfo] (lines 34-236). *)
Definition getVestingInfo (C : Collaborators) (K : VestingManager)
    (tokenAddress : string) : M (Result VestingInfo) :=
  let walletResult := getWalletAddress C in
  if negb (wa_success walletResult) || falsy (wa_address walletResult) then
    ret (Failure msg_NoWallet [])
  else
    let beneficiary := wa_address walletResult in
    if falsy tokenAddress || negb (isAddress C tokenAddress) then
      ret (Failure msg_InvalidTokenAddress [])
    else
      try_catch
        (' (tokenName, tokenSymbol, decimalsNum) <- readToken C tokenAddress ;;
         fetched <- fetchSchedule K beneficiary tokenAddress
                      [("tokenAddress", tokenAddress);
                       ("beneficiary", beneficiary)] ;;
         match fetched with
         | inl failure => ret failure
         | inr schedule =>
             if totalAmount schedule =? 0 then
               ret (Failure msg_ScheduleNotFound
                      [("tokenAddress", tokenAddress);
                       ("beneficiary", beneficiary);
                       ("vestingManagerAddress", VESTING_MANAGER_ADDRESS C)])
             else
               describe C tokenAddress beneficiary tokenName tokenSymbol
                        decimalsNum schedule
         end)%run
        (getVestingInfo_catch tokenAddress beneficiary
           (VESTING_MANAGER_ADDRESS C)).

(** Lines 338-380, once something is releasable: submit, confirm, re-read
    the balance, assemble the result. *)
Definition submitClaim (C : Collaborators) (K : VestingManager)
    (address tokenAddress tokenName tokenSymbol : string)
    (decimalsNum releasableAmount : Z) : M (Result Claim) :=
  (tx <- call (CallRelease address tokenAddress)
              (release K address tokenAddress) ;;
   receipt <- call CallWait (wait tx) ;;
   newBalance <- call (CallBalanceOf tokenAddress address)
                      (balanceOf C tokenAddress address) ;;
   fClaimed <- lift (formatAmount_claim C decimalsNum releasableAmount) ;;
   fAmount <- lift (formatAmount_claim C decimalsNum releasableAmount) ;;
   fBalance <- lift (formatAmount_claim C decimalsNum newBalance) ;;
   ret (Success
          {| cl_message :=
               ("Successfully claimed " ++ fClaimed ++ " " ++ tokenSymbol
                  ++ "!")%string;
             cl_token_address := tokenAddress;
             cl_token_name := tokenName;
             cl_token_symbol := tokenSymbol;
             cl_amount := fAmount;
             cl_rawAmount := toString releasableAmount;
             cl_hash := hash receipt;
             cl_blockNumber := blockNumber receipt;
             cl_newBalance := fBalance;
             cl_vestingManagerAddress := VESTING_MANAGER_ADDRESS C |}))%run.

(** [claimVestedTokens] (lines 241-407). *)
Definition claimVestedTokens (C : Collaborators) (K : VestingManager)
    (password tokenAddress : string) : M (Result Claim) :=
  if negb (hasWallet C) then ret (Failure msg_NoWallet [])
  else if falsy tokenAddress || negb (isAddress C tokenAddress) then
    ret (Failure msg_InvalidTokenAddress [])
  else
    match getDecryptedWallet C password with
    | UnlockFailed error context => ret (Failure error context)
    | Unlocked address =>
        try_catch
          (' (tokenName, tokenSymbol, decimalsNum) <- readToken C tokenAddress ;;
           fetched <- fetchSchedule K address tokenAddress
                        [("tokenAddress", tokenAddress)] ;;
           match fetched with
           | inl failure => ret failure
           | inr schedule =>
               if totalAmount schedule =? 0 then
                 ret (Failure msg_ScheduleNotFound_claim
                        [("tokenAddress", tokenAddress);
                         ("tokenName", tokenName);
                         ("tokenSymbol", tokenSymbol)])
               else
                 let releasableAmount := releasable schedule in
                 if releasableAmount <=? 0 then
                   ret (Failure msg_NothingToClaim
                          [("tokenAddress", tokenAddress);
                           ("tokenName", tokenName);
                           ("tokenSymbol", tokenSymbol)])
                 else
                   submitClaim C K address tokenAddress tokenName tokenSymbol
                               decimalsNum releasableAmount
           end)%run
          (claimVestedTokens_catch tokenAddress)
    end.

End V1.

(* ===================================================================== *)
(** ** Second revision (lines 439-793) *)
(* ===================================================================== *)

Module V2.

(** What [schedules(token, beneficiary)] returns; the fields are BigInts
    (the test [totalAmount === 0n] of this revision relies on it). *)
Record Schedule : Type := {
  totalAmount : Z;
  releasedAmount : Z;
  startTime : Z;
  duration : Z
}.

Record VestingManager : Type := {
  schedules : string -> string -> Trace -> Completion Schedule;
  (** [release(token)], sent by the connected wallet *)
  release : string -> Trace -> Completion Tx
}.

Definition VESTING_MANAGER_ADDRESS (C : Collaborators) : string :=
  if falsy (env_VESTING_MANAGER_ADDRESS C)
  then "0xBFb167A9c8054bb2C46799D98CE15045A40961Bc"
  else env_VESTING_MANAGER_ADDRESS C.

(** Token metadata with its fallback (lines 495-506 and 657-668);
    [decimals] keeps the type the contract call gave it. *)
Definition readToken (C : Collaborators) (tokenAddress : string)
  : M (string * string * Numeric) :=
  try_catch
    (call (CallTokenInfo tokenAddress) (tokenInfo C tokenAddress))
    (fun _ => ret ("Unknown", "UNKNOWN", NumberV 18)).

(** [formatAmount] of [getVestingInfo] (lines 547-553): the amount is
    converted to a Number, rounded to the nearest binary64 value, and
    that Number is divided by the power of ten. *)
Definition formatAmount (C : Collaborators) (decimals : Numeric) (amount : Z)
  : Completion string :=
  bindC (toNumber_strict decimals) (fun d =>
  let formatted := fdiv (Num amount) (Math_pow10 (host C) d) in
  Normal (displayNumber (host C) formatted)).

(** [formatAmount] of [claimVestedTokens] (lines 714-717). *)
Definition formatAmount_claim (C : Collaborators) (decimals : Numeric)
    (amount : Z) : Completion string :=
  bindC (toNumber_strict decimals) (fun d =>
  let formatted := fdiv (Num amount) (Math_pow10 (host C) d) in
  Normal (displayNumberLocale (host C) formatted)).

(** [releasable] as both functions of this revision compute it (lines
    526-541 and 687-702). *)
Definition releasable (s : Schedule) (now : Z) : Completion Z :=
  bindC (vestedAmount2 (totalAmount s) (startTime s) (duration s) now)
        (fun vested => Normal (releasableOf vested (releasedAmount s))).

(** Lines 526-605, once the schedule exists. *)
Definition describe (C : Collaborators) (tokenAddress beneficiary : string)
    (tokenName tokenSymbol : string) (decimals : Numeric) (s : Schedule)
  : M (Result VestingInfo) :=
  fun t =>
  (let now := clock C t in
   vested <- lift (vestedAmount2 (totalAmount s) (startTime s) (duration s) now) ;;
   let releasableAmount := releasableOf vested (releasedAmount s) in
   let unreleased := unreleasedOf (totalAmount s) vested in
   let nowNum := clock_second C t in
   let startTimeNum := startTime s in
   let durationNum := duration s in
   let endTimeNum := startTimeNum + durationNum in
   let progress := vestingProgress nowNum startTimeNum endTimeNum durationNum in
   let remaining := timeRemaining nowNum startTimeNum endTimeNum in
   fTotal <- lift (formatAmount C decimals (totalAmount s)) ;;
   fReleased <- lift (formatAmount C decimals (releasedAmount s)) ;;
   fReleasable <- lift (formatAmount C decimals releasableAmount) ;;
   fLocked <- lift (formatAmount C decimals unreleased) ;;
   isoStart <- lift (toISOString (host C) (startTimeNum * 1000)) ;;
   isoEnd <- lift (toISOString (host C) (endTimeNum * 1000)) ;;
   ret (Success
          {| vi_token_address := tokenAddress;
             vi_token_name := tokenName;
             vi_token_symbol := tokenSymbol;
             vi_token_decimals := decimals;
             vi_beneficiary := beneficiary;
             vi_totalAmount := fTotal;
             vi_releasedAmount := fReleased;
             vi_releasableAmount := fReleasable;
             vi_lockedAmount := fLocked;
             vi_progress := (showNumber progress ++ "%")%string;
             vi_timeRemaining := remaining;
             vi_startTime := isoStart;
             vi_endTime := isoEnd;
             raw_totalAmount := toString (totalAmount s);
             raw_releasedAmount := toString (releasedAmount s);
             raw_releasableAmount := toString releasableAmount;
             raw_lockedAmount := toString unreleased;
             vi_vestingManagerAddress := VESTING_MANAGER_ADDRESS C |}))%run t.

(** [getVestingInfo] (lines 469-623). *)
Definition getVestingInfo (C : Collaborators) (K : VestingManager)
    (tokenAddress : string) : M (Result VestingInfo) :=
  let walletResult := getWalletAddress C in
  if negb (wa_success walletResult) || falsy (wa_address walletResult) then
    ret (Failure msg_NoWallet [])
  else
    let beneficiary := wa_address walletResult in
    if falsy tokenAddress || negb (isAddress C tokenAddress) then
      ret (Failure msg_InvalidTokenAddress [])
    else
      try_catch
        (' (tokenName, tokenSymbol, decimals) <- readToken C tokenAddress ;;
         schedule <- call (CallSchedule beneficiary tokenAddress)
                          (schedules K tokenAddress beneficiary) ;;
         if totalAmount schedule =? 0 then
           ret (Failure msg_ScheduleNotFound
                  [("tokenAddress", tokenAddress);
                   ("beneficiary", beneficiary);
                   ("vestingManagerAddress", VESTING_MANAGER_ADDRESS C)])
         else
           describe C tokenAddress beneficiary tokenName tokenSymbol
                    decimals schedule)%run
        (getVestingInfo_catch tokenAddress beneficiary
           (VESTING_MANAGER_ADDRESS C)).

(** Lines 714-744, once something is releasable. *)
Definition submitClaim (C : Collaborators) (K : VestingManager)
    (address tokenAddress tokenName tokenSymbol : string)
    (decimals : Numeric) (releasableAmount : Z) : M (Result Claim) :=
  (tx <- call (CallRelease address tokenAddress) (release K tokenAddress) ;;
   receipt <- call CallWait (wait tx) ;;
   newBalance <- call (CallBalanceOf tokenAddress address)
                      (balanceOf C tokenAddress address) ;;
   fClaimed <- lift (formatAmount_claim C decimals releasableAmount) ;;
   fAmount <- lift (formatAmount_claim C decimals releasableAmount) ;;
   fBalance <- lift (formatAmount_claim C decimals newBalance) ;;
   ret (Success
          {| cl_message :=
               ("Successfully claimed " ++ fClaimed ++ " " ++ tokenSymbol
                  ++ "!")%string;
             cl_token_address := tokenAddress;
             cl_token_name := tokenName;
             cl_token_symbol := tokenSymbol;
             cl_amount := fAmount;
             cl_rawAmount := toString releasableAmount;
             cl_hash := hash receipt;
             cl_blockNumber := blockNumber receipt;
             cl_newBalance := fBalance;
             cl_vestingManagerAddress := VESTING_MANAGER_ADDRESS C |}))%run.

(** [claimVestedTokens] (lines 628-765). *)
Definition claimVestedTokens (C : Collaborators) (K : VestingManager)
    (password tokenAddress : string) : M (Result Claim) :=
  if negb (hasWallet C) then ret (Failure msg_NoWallet [])
  else if falsy tokenAddress || negb (isAddress C tokenAddress) then
    ret (Failure msg_InvalidTokenAddress [])
  else
    match getDecryptedWallet C password with
    | UnlockFailed error context => ret (Failure error context)
    | Unlocked address =>
        try_catch
          (' (tokenName, tokenSymbol, decimals) <- readToken C tokenAddress ;;
           schedule <- call (CallSchedule address tokenAddress)
                            (schedules K tokenAddress address) ;;
           if totalAmount schedule =? 0 then
             ret (Failure msg_ScheduleNotFound_claim
                    [("tokenAddress", tokenAddress);
                     ("tokenName", tokenName);
                     ("tokenSymbol", tokenSymbol)])
           else
             fun t =>
               (releasableAmount <- lift (releasable schedule (clock C t)) ;;
                if releasableAmount <=? 0 then
                  ret (Failure msg_NothingToClaim
                         [("tokenAddress", tokenAddress);
                          ("tokenName", tokenName);
                          ("tokenSymbol", tokenSymbol)])
                else
                  submitClaim C K address tokenAddress tokenName tokenSymbol
                              decimals releasableAmount) t)%run
          (claimVestedTokens_catch tokenAddress)
    end.

End V2.

(* ===================================================================== *)
(** ** The batch query (lines 413-438 and 771-793) *)
(* ===================================================================== *)

(** The argument of [getAllVestingInfo] as JavaScript sees it: anything
    that is not an array, or an array of addresses. *)
Inductive Argument : Type :=
| NotAnArray
| ArrayOf (items : list string).

(** The payload of a successful batch. *)
Record Batch : Type := {
  schedules : list (Result VestingInfo);
  totalSchedules : Z;
  vestingManagerAddress : string
}.

Section BatchQuery.

(** The single query the batch is built on, and the configured address;
    both revisions have the same text here. *)
Variable getVestingInfo : string -> M (Result VestingInfo).
Variable VESTING_MANAGER_ADDRESS : string.

(** The [for ... of] loop: [results] is the array that [push] extends. *)
Fixpoint collect (tokenAddresses : list string)
    (results : list (Result VestingInfo)) : M (list (Result VestingInfo)) :=
  match tokenAddresses with
  | [] => ret results
  | tokenAddress :: rest =>
      (result <- getVestingInfo tokenAddress ;;
       if success result then collect rest (results ++ [result])%list
       else collect rest results)%run
  end.

Definition getAllVestingInfo (tokenAddresses : Argument) : M (Result Batch) :=
  match tokenAddresses with
  | NotAnArray => ret (Failure msg_InvalidInput [])
  | ArrayOf items =>
      if (Z.of_nat (List.length items) =? 0) then
        ret (Failure msg_InvalidInput [])
      else
        (results <- collect items [] ;;
         ret (Success
                {| schedules := results;
                   totalSchedules := Z.of_nat (List.length results);
                   vestingManagerAddress := VESTING_MANAGER_ADDRESS |}))%run
  end.

(** Querying the addresses one after the other, in the order given: the
    trace each query leaves is the one the next query starts from. *)
Inductive QueriedInOrder
  : list string -> Trace -> list (Result VestingInfo) -> Trace -> Prop :=
| queried_none t : QueriedInOrder [] t [] t
| queried_next a rest t r t1 rs t2 :
    getVestingInfo a t = (Normal r, t1) ->
    QueriedInOrder rest t1 rs t2 ->
    QueriedInOrder (a :: rest) t (r :: rs) t2.

End BatchQuery.

Module V1Batch.
Definition getAllVestingInfo (C : Collaborators) (K : V1.VestingManager)
  : Argument -> M (Result Batch) :=
  getAllVestingInfo (V1.getVestingInfo C K) (V1.VESTING_MANAGER_ADDRESS C).
End V1Batch.

Module V2Batch.
Definition getAllVestingInfo (C : Collaborators) (K : V2.VestingManager)
  : Argument -> M (Result Batch) :=
  getAllVestingInfo (V2.getVestingInfo C K) (V2.VESTING_MANAGER_ADDRESS C).
End V2Batch.

(* ===================================================================== *)
(** ** Preconditions of the queries *)
(* ===================================================================== *)

(** The wallet collaborator resolves an address ([getWalletAddress]
    succeeded with a non-empty address). *)
Definition walletResolved (C : Collaborators) : Prop :=
  wa_success (getWalletAddress C) = true
  /\ falsy (wa_address (getWalletAddress C)) = false.

(** The token address passes the validation of lines 47 and 254. *)
Definition validToken (C : Collaborators) (tokenAddress : string) : Prop :=
  falsy tokenAddress = false /\ isAddress C tokenAddress = true.

(** The context attached to the failures of [claimVestedTokens] that name
    the token. *)
Definition claimContext (tokenAddress tokenName tokenSymbol : string)
  : list (string * string) :=
  [("tokenAddress", tokenAddress); ("tokenName", tokenName);
   ("tokenSymbol", tokenSymbol)].

(** The best-effort policy of the batch query, for a given single query:
    an argument that is not an array, or an empty one, is refused at once
    with nothing asked of the ledger; for a non-empty array the addresses
    are queried one after the other in the order given, and the result is
    a success carrying the queries that succeeded, in that order, and
    their number. *)
Definition BestEffort (getVestingInfo : string -> M (Result VestingInfo))
    (vma : string) (getAll : Argument -> M (Result Batch)) : Prop :=
  (forall t, getAll NotAnArray t = (Normal (Failure msg_InvalidInput []), t))
  /\ (forall t, getAll (ArrayOf []) t = (Normal (Failure msg_InvalidInput []), t))
  /\ (forall items t, items <> [] ->
        exists results t',
          QueriedInOrder getVestingInfo items t results t'
          /\ getAll (ArrayOf items) t
             = (Normal (Success
                  {| schedules := filter success results;
                     totalSchedules :=
                       Z.of_nat (List.length (filter success results));
                     vestingManagerAddress := vma |}), t')).

(** What a caller sees when every query of a non-empty batch failed. *)
Definition emptyBatch (vma : string) : Result Batch :=
  Success {| schedules := []; totalSchedules := 0;
             vestingManagerAddress := vma |}.

(* ===================================================================== *)
(** ** A concrete world, for running the functions *)
(* ===================================================================== *)

Module Sample.

Definition sampleHost : Host := {|
  display := fun text => text;
  displayLocale := fun text => text;
  Math_pow10 := fun decimals => Num (10 ^ decimals);
  displayNumber := fun formatted => showNumber (Math_floor formatted);
  displayNumberLocale := fun formatted => showNumber (Math_floor formatted);
  isoText := fun ms => toString ms
|}.

(** A wallet protected by the password "hunter2"; the token contract
    answers with 18 decimals except for the tokens named "...NoMeta",
    whose metadata calls fail; the clock reads 1700000500. *)
Definition world : Collaborators := {|
  hasWallet := true;
  getWalletAddress := {| wa_success := true; wa_address := "0xAlice" |};
  getDecryptedWallet := fun password =>
    if String.eqb password "hunter2" then Unlocked "0xAlice"
    else UnlockFailed msg_InvalidPassword [];
  isAddress := fun a => prefix "0x" a;
  tokenInfo := fun token _ =>
    if prefix "0xNoMeta" token || prefix "0xShortNoMeta" token
    then Throw "missing revert data"
    else Normal ("Vibe", "VIBE", BigIntV 18);
  balanceOf := fun _ _ _ => Normal 250;
  clock := fun _ => 1700000500;
  clock_second := fun _ => 1700000500;
  env_VESTING_MANAGER_ADDRESS := "";
  host := sampleHost
|}.

(** The same world before any wallet was created. *)
Definition worldWithoutWallet : Collaborators := {|
  hasWallet := false;
  getWalletAddress := {| wa_success := false; wa_address := "" |};
  getDecryptedWallet := fun _ => UnlockFailed msg_NoWallet [];
  isAddress := isAddress world;
  tokenInfo := tokenInfo world;
  balanceOf := balanceOf world;
  clock := clock world;
  clock_second := clock_second world;
  env_VESTING_MANAGER_ADDRESS := "";
  host := sampleHost
|}.

Definition sampleTx : Tx := {|
  wait := fun _ => Normal {| hash := "0xfeed"; blockNumber := 42 |}
|}.

(** A vesting manager of the first revision: "0xEmpty" has no schedule,
    "0xDone" has nothing releasable, "0xDown" cannot be read, "0xShort" is
    29 seconds into a 100-second schedule, every other token is half-way
    through a 1000-second schedule. *)
Definition manager1 : V1.VestingManager := {|
  V1.getSchedule := fun _ token _ =>
    if String.eqb token "0xEmpty" then
      Normal {| V1.totalAmount := 0; V1.released := 0; V1.releasable := 0;
                V1.startTime := 0; V1.endTime := 0 |}
    else if String.eqb token "0xDone" then
      Normal {| V1.totalAmount := 1000; V1.released := 500;
                V1.releasable := 0;
                V1.startTime := 1700000000; V1.endTime := 1700001000 |}
    else if String.eqb token "0xDown" then Throw "network timeout"
    else if String.eqb token "0xShort" then
      Normal {| V1.totalAmount := 1000; V1.released := 0;
                V1.releasable := 290;
                V1.startTime := 1700000471; V1.endTime := 1700000571 |}
    else
      Normal {| V1.totalAmount := 1000; V1.released := 0;
                V1.releasable := 500;
                V1.startTime := 1700000000; V1.endTime := 1700001000 |};
  V1.release := fun _ _ _ => Normal sampleTx
|}.

(** A vesting manager of the second revision: "0xEmpty" has no schedule,
    "0xStale" and "0xNoMeta" have released more than the local clock says
    is vested, "0xShortNoMeta" is 29 seconds into a 100-second schedule,
    "0xDown" cannot be read, every other token is half-way through. *)
Definition manager2 : V2.VestingManager := {|
  V2.schedules := fun token _ _ =>
    if String.eqb token "0xEmpty" then
      Normal {| V2.totalAmount := 0; V2.releasedAmount := 0;
                V2.startTime := 0; V2.duration := 0 |}
    else if String.eqb token "0xStale" then
      Normal {| V2.totalAmount := 1000; V2.releasedAmount := 600;
                V2.startTime := 1700000000; V2.duration := 1000 |}
    else if String.eqb token "0xNoMeta" then
      Normal {| V2.totalAmount := 1000; V2.releasedAmount := 600;
                V2.startTime := 1700000000; V2.duration := 1000 |}
    else if String.eqb token "0xShortNoMeta" then
      Normal {| V2.totalAmount := 1000; V2.releasedAmount := 0;
                V2.startTime := 1700000471; V2.duration := 100 |}
    else if String.eqb token "0xDown" then Throw "network timeout"
    else
      Normal {| V2.totalAmount := 1000; V2.releasedAmount := 0;
                V2.startTime := 1700000000; V2.duration := 1000 |};
  V2.release := fun _ _ => Normal sampleTx
|}.

End Sample.

(* ===================================================================== *)
(** ** Vocabulary for the properties of the whole functions *)
(* ===================================================================== *)

(** The calls that only read from the ledger. *)
Definition isRead (c : Call) : bool :=
  match c with
  | CallTokenInfo _ | CallSchedule _ _ => true
  | _ => false
  end.

(** The two reads every query starts with. *)
Definition reads (tokenAddress beneficiary : string) : Trace :=
  [CallTokenInfo tokenAddress; CallSchedule beneficiary tokenAddress].

(** The five calls of a completed claim, in the order they are made. *)
Definition claimCalls (tokenAddress address : string) : Trace :=
  [CallTokenInfo tokenAddress; CallSchedule address tokenAddress;
   CallRelease address tokenAddress; CallWait;
   CallBalanceOf tokenAddress address].

(** A timestamp in seconds that [new Date(seconds * 1000)] can print. *)
Definition printableTime (seconds : Z) : Prop :=
  Z.abs (seconds * 1000) <= 8640000000000000.

(** A computation that makes no ledger call. *)
Definition silent {A} (c : M A) : Prop := forall t, snd (c t) = t.

(** The result the [catch] block of [getVestingInfo] produces for a
    message. *)
Definition queryFailure (tokenAddress beneficiary vma message : string)
  : Result VestingInfo :=
  if isRevert message then
    Failure msg_ScheduleNotFound_revert
      [("tokenAddress", tokenAddress); ("beneficiary", beneficiary);
       ("vestingManagerAddress", vma)]
  else Failure ("Failed to get vesting info: " ++ message)%string [].

(** The result the [catch] block of [claimVestedTokens] produces for a
    message. *)
Definition claimFailure (tokenAddress message : string) : Result Claim :=
  if includes message "Unsupported state" || includes message "auth" then
    Failure msg_InvalidPassword []
  else if isRevert message then
    Failure msg_TransactionReverted [("tokenAddress", tokenAddress)]
  else Failure ("Claim failed: " ++ message)%string [].

(** The state of affairs in which the first revision goes on to submit a
    release: a wallet exists, the address is valid, the password unlocks
    the wallet at [address], and the schedule read answers with a schedule
    whose total is not zero and whose releasable amount is positive. *)
Definition V1_claimReady (C : Collaborators) (K : V1.VestingManager)
    (password tokenAddress address : string) (s : V1.Schedule) (t : Trace)
  : Prop :=
  hasWallet C = true
  /\ validToken C tokenAddress
  /\ getDecryptedWallet C password = Unlocked address
  /\ V1.getSchedule K address tokenAddress
       (t ++ [CallTokenInfo tokenAddress])%list = Normal s
  /\ V1.totalAmount s <> 0
  /\ 0 < V1.releasable s.

(** The same for the second revision, where the releasable [amount] is
    computed at the clock's time after the two reads. *)
Definition V2_claimReady (C : Collaborators) (K : V2.VestingManager)
    (password tokenAddress address : string) (s : V2.Schedule) (amount : Z)
    (t : Trace) : Prop :=
  hasWallet C = true
  /\ validToken C tokenAddress
  /\ getDecryptedWallet C password = Unlocked address
  /\ V2.schedules K tokenAddress address
       (t ++ [CallTokenInfo tokenAddress])%list = Normal s
  /\ V2.totalAmount s <> 0
  /\ V2.releasable s (clock C (t ++ reads tokenAddress address)%list)
     = Normal amount
  /\ 0 < amount.

(** The metadata the first revision works with: what the token contract
    answered, or the defaults. *)
Definition V1_metadata (C : Collaborators) (tokenAddress : string) (t : Trace)
  : string * string * Z :=
  match tokenInfo C tokenAddress t with
  | Normal (tokenName, tokenSymbol, BigIntV z)
  | Normal (tokenName, tokenSymbol, NumberV z) => (tokenName, tokenSymbol, z)
  | Throw _ => ("Unknown", "UNKNOWN", 18)
  end.

(** The metadata the second revision works with. *)
Definition V2_metadata (C : Collaborators) (tokenAddress : string) (t : Trace)
  : string * string * Numeric :=
  match tokenInfo C tokenAddress t with
  | Normal meta => meta
  | Throw _ => ("Unknown", "UNKNOWN", NumberV 18)
  end.

(** Reading a [raw] amount back, as a caller would with [BigInt(text)]:
    an optional sign followed by decimal digits. *)
Definition readAmount (text : string) : option Z :=
  match NilZero.int_of_string text with
  | Some d => Some (Z.of_int d)
  | None => None
  end.

(* ===================================================================== *)
(** ** Further concrete worlds *)
(* ===================================================================== *)

Module Scenario.

(** The sample world with a token contract that answers [decimals] with
    a Number. *)
Definition worldNumber : Collaborators := {|
  hasWallet := true;
  getWalletAddress := getWalletAddress Sample.world;
  getDecryptedWallet := getDecryptedWallet Sample.world;
  isAddress := isAddress Sample.world;
  tokenInfo := fun _ _ => Normal ("Vibe", "VIBE", NumberV 18);
  balanceOf := balanceOf Sample.world;
  clock := clock Sample.world;
  clock_second := clock_second Sample.world;
  env_VESTING_MANAGER_ADDRESS := "";
  host := Sample.sampleHost
|}.

(** The sample world with a token contract whose balance cannot be read. *)
Definition worldBalanceDown : Collaborators := {|
  hasWallet := true;
  getWalletAddress := getWalletAddress Sample.world;
  getDecryptedWallet := getDecryptedWallet Sample.world;
  isAddress := isAddress Sample.world;
  tokenInfo := tokenInfo Sample.world;
  balanceOf := fun _ _ _ => Throw "network timeout";
  clock := clock Sample.world;
  clock_second := clock_second Sample.world;
  env_VESTING_MANAGER_ADDRESS := "";
  host := Sample.sampleHost
|}.

Definition halfWay1 : V1.Schedule :=
  {| V1.totalAmount := 1000; V1.released := 0; V1.releasable := 500;
     V1.startTime := 1700000000; V1.endTime := 1700001000 |}.

Definition halfWay2 : V2.Schedule :=
  {| V2.totalAmount := 1000; V2.releasedAmount := 0;
     V2.startTime := 1700000000; V2.duration := 1000 |}.

(** A schedule that never ends: its end is the largest 64-bit value. *)
Definition forever1 : V1.Schedule :=
  {| V1.totalAmount := 1000; V1.released := 0; V1.releasable := 0;
     V1.startTime := 1700000000; V1.endTime := 18446744073709551615 |}.

Definition managerForever1 : V1.VestingManager := {|
  V1.getSchedule := fun _ _ _ => Normal forever1;
  V1.release := fun _ _ _ => Normal Sample.sampleTx
|}.

(** A transaction that is never confirmed. *)
Definition txLost : Tx := {| wait := fun _ => Throw "timeout exceeded" |}.

(** A manager whose release reverts with a reason that mentions the
    authorisation. *)
Definition managerReverting1 : V1.VestingManager := {|
  V1.getSchedule := fun _ _ _ => Normal halfWay1;
  V1.release := fun _ _ _ => Throw "execution reverted: unauthorized"
|}.

Definition managerLost1 : V1.VestingManager := {|
  V1.getSchedule := fun _ _ _ => Normal halfWay1;
  V1.release := fun _ _ _ => Normal txLost
|}.

(** A schedule whose window closed a hundred seconds before the sample
    clock reads. *)
Definition ended1 : V1.Schedule :=
  {| V1.totalAmount := 1000; V1.released := 400; V1.releasable := 600;
     V1.startTime := 1700000000; V1.endTime := 1700000400 |}.

Definition managerEnded1 : V1.VestingManager := {|
  V1.getSchedule := fun _ _ _ => Normal ended1;
  V1.release := fun _ _ _ => Normal Sample.sampleTx
|}.

(** The sample world with a clock that ticks between the two readings of
    a query, from the last second of that window to its end. *)
Definition worldTicking : Collaborators := {|
  hasWallet := true;
  getWalletAddress := getWalletAddress Sample.world;
  getDecryptedWallet := getDecryptedWallet Sample.world;
  isAddress := isAddress Sample.world;
  tokenInfo := tokenInfo Sample.world;
  balanceOf := balanceOf Sample.world;
  clock := fun _ => 1700000399;
  clock_second := fun _ => 1700000400;
  env_VESTING_MANAGER_ADDRESS := "";
  host := Sample.sampleHost
|}.

(** A manager whose schedule cannot be read before two calls have
    reached the ledger, and can afterwards. *)
Definition managerFlaky1 : V1.VestingManager := {|
  V1.getSchedule := fun _ _ t =>
    if (List.length t <=? 2)%nat then Throw "network timeout"
    else Normal halfWay1;
  V1.release := fun _ _ _ => Normal Sample.sampleTx
|}.

Definition managerFine1 : V1.VestingManager := {|
  V1.getSchedule := fun _ _ _ => Normal halfWay1;
  V1.release := fun _ _ _ => Normal Sample.sampleTx
|}.

Definition managerFine2 : V2.VestingManager := {|
  V2.schedules := fun _ _ _ => Normal halfWay2;
  V2.release := fun _ _ => Normal Sample.sampleTx
|}.

End Scenario.

(** The address a password unlocks (empty when it does not). *)
Definition unlockedAddress (C : Collaborators) (password : string) : string :=
  match getDecryptedWallet C password with
  | Unlocked address => address
  | UnlockFailed _ _ => ""
  end.

(** The trace a claim can leave behind: none of the five calls, the two
    reads, or the reads followed by one, two or three calls of the
    submission. *)
Definition claimFootprint (tokenAddress address : string) (t t' : Trace)
  : Prop :=
  exists n : nat,
    In n [0; 2; 3; 4; 5]%nat
    /\ t' = (t ++ firstn n (claimCalls tokenAddress address))%list.

(** A trace that continues [t] with at most [n] calls, all of them reads;
    in particular with no release. *)
Definition onlyReads (n : nat) (t t' : Trace) : Prop :=
  exists suffix,
    t' = (t ++ suffix)%list
    /\ forallb isRead suffix = true
    /\ (List.length suffix <= n)%nat.

(** The number a string of decimal digits denotes ([None] when a
    character is not a digit); the empty string denotes 0. *)
Definition decimalValue (digits : string) : option Z :=
  match NilEmpty.uint_of_string digits with
  | Some u => Some (Z.of_uint u)
  | None => None
  end.

(* ===================================================================== *)
(** ** Launching a coin ([src/unnamed/part_000]) *)
(* ===================================================================== *)

(** [launchCoin] checks its input and the wallet, signs a launch message
    with the wallet and posts it to the deployment API.  The wallet comes
    from the same [getDecryptedWallet] and [hasWallet] as in the vesting
    module.  What the function awaits is recorded in a trace of its own:
    the signature request and the HTTP request.  The text fields [name],
    [symbol] and [password] are strings, an absent one being the empty
    string (both are falsy); the optional fields are [None] when absent. *)
Module Launch.

Record Options : Type := {
  o_password : string;
  o_name : string;
  o_symbol : string;
  o_url : option string;
  o_github : option string;
  o_description : option string
}.

(** [value || null] on an optional text. *)
Definition orNull (value : option string) : option string :=
  match value with
  | Some s => if falsy s then None else Some s
  | None => None
  end.

(** The body of the POST request (line 54-64). *)
Record Request : Type := {
  rq_walletAddress : string;
  rq_signature : string;
  rq_message : string;
  rq_name : string;
  rq_symbol : string;
  rq_timestamp : Z;
  rq_url : option string;
  rq_github : option string;
  rq_description : option string
}.

(** The fields of the reply that the function reads: [success] by its
    truthiness, the others as they are ([None]: absent). *)
Record Reply : Type := {
  r_success : bool;
  r_error : option string;
  r_tokenAddress : option string;
  r_totalSupply : option string;
  r_transactionHash : option string
}.

(** What [response.json()] gives: the reply, or an error with a message
    and possibly a cause with a code, when the body cannot be read or
    parsed (or is not an object, which ends in the same [catch]). *)
Inductive Body : Type :=
| Readable (result : Reply)
| Unreadable (message : string) (cause_code : option string).

(** An HTTP response: its [ok] flag and what [response.json()] gives. *)
Record Response : Type := {
  ok : bool;
  json : Body
}.

(** [fetch] rejects with an error that has a message and may have a
    cause with a code, or resolves to a response. *)
Inductive Fetched : Type :=
| Rejected (message : string) (cause_code : option string)
| Resolved (response : Response).

Inductive Call : Type :=
| CallSign (address message : string)
| CallPost (endpoint : string) (body : Request).

(** What the function does not own: the clock, the signer of the
    unlocked wallet, the environment, the network and the random
    generator; [random16 k] is the value of the [k]-th evaluation of
    [Math.floor(Math.random() * 16)]. *)
Record Launcher : Type := {
  Date_now : Z;
  signMessage : string -> string -> Completion string;
  env_LAUNCHER_API_URL : string;
  fetch : string -> Request -> Fetched;
  random16 : nat -> Z
}.

(** Line 5. *)
Definition API_BASE_URL (L : Launcher) : string :=
  if falsy (env_LAUNCHER_API_URL L) then "https://vibecoin.up.railway.app"
  else env_LAUNCHER_API_URL L.

Definition endpoint (L : Launcher) : string :=
  (API_BASE_URL L ++ "/api/launch")%string.

Definition newline : string := String (ascii_of_nat 10) EmptyString.

(** Line 42; the timestamp is an integer Number, printed in decimal. *)
Definition launchMessage (name symbol walletAddress : string) (timestamp : Z)
  : string :=
  ("Launch coin on Vibecoins" ++ newline ++ newline
   ++ "Name: " ++ name ++ newline
   ++ "Symbol: " ++ symbol ++ newline
   ++ "Creator: " ++ walletAddress ++ newline
   ++ "Timestamp: " ++ toString timestamp)%string.

(** The coin of a result, and its note (stub mode only). *)
Record Launched : Type := {
  l_message : string;
  coin_id : option string;
  coin_name : string;
  coin_symbol : string;
  coin_totalSupply : option string;
  coin_contractAddress : option string;
  coin_transactionHash : option string;
  coin_creator : string;
  coin_status : string;
  coin_url : option string;
  coin_github : option string;
  coin_description : option string;
  l_note : option string
}.

(** [n.toString(16)] for an integer. *)
Definition hexDigit (n : Z) : string :=
  HexadecimalString.NilZero.string_of_int (Z.to_hex_int n).

(** [Array(count).fill(0).map(() => Math.floor(Math.random() *
    16).toString(16)).join('')], the first evaluation of the generator
    being number [first]. *)
Fixpoint hexDraws (L : Launcher) (first count : nat) : string :=
  match count with
  | O => ""
  | S count' =>
      (hexDigit (random16 L first) ++ hexDraws L (S first) count')%string
  end.

Definition mockTxHash (L : Launcher) : string :=
  ("0x" ++ hexDraws L 0 64)%string.

Definition mockContractAddress (L : Launcher) : string :=
  ("0x" ++ hexDraws L 64 40)%string.

Definition msg_NameRequired : string := "Name is required".
Definition msg_SymbolRequired : string := "Symbol is required".
Definition quote : string := String (ascii_of_nat 34) EmptyString.
Definition msg_CreateWallet : string :=
  ("No wallet found. Create one first using the wallet tool with action="
   ++ quote ++ "create" ++ quote
   ++ ". Your wallet is where fees from coin launches are sent. IMPORTANT: Choose a password you will NEVER forget - there is NO recovery option!")%string.
Definition msg_Launched : string := "Coin launched successfully!".
Definition msg_Stub : string :=
  "Coin launched (STUB MODE - API not available)".
Definition note_Stub : string :=
  "Running in stub mode because deployment API is not available.".

(** [err.cause?.code === 'ECONNREFUSED']. *)
Definition refused (cause_code : option string) : bool :=
  match cause_code with
  | Some code => String.eqb code "ECONNREFUSED"
  | None => false
  end.

(** The catch block (lines 93-124). *)
Definition launchCoin_catch (L : Launcher) (options : Options)
    (walletAddress : string) (message : string) (cause_code : option string)
  : Result Launched :=
  if refused cause_code || includes message "fetch" then
    Success {|
      l_message := msg_Stub;
      coin_id := Some (mockContractAddress L);
      coin_name := o_name options;
      coin_symbol := o_symbol options;
      coin_totalSupply := None;
      coin_contractAddress := Some (mockContractAddress L);
      coin_transactionHash := Some (mockTxHash L);
      coin_creator := walletAddress;
      coin_status := "launched";
      coin_url := orNull (o_url options);
      coin_github := orNull (o_github options);
      coin_description := orNull (o_description options);
      l_note := Some note_Stub
    |}
  else Failure ("Launch failed: " ++ message)%string [].

(** [result.error || 'Failed to launch coin']. *)
Definition errorOf (result : Reply) : string :=
  match r_error result with
  | Some e => if falsy e then "Failed to launch coin" else e
  | None => "Failed to launch coin"
  end.

Definition requestOf (L : Launcher) (options : Options)
    (walletAddress signature : string) : Request := {|
  rq_walletAddress := walletAddress;
  rq_signature := signature;
  rq_message :=
    launchMessage (o_name options) (o_symbol options) walletAddress
      (Date_now L);
  rq_name := o_name options;
  rq_symbol := o_symbol options;
  rq_timestamp := Date_now L;
  rq_url := orNull (o_url options);
  rq_github := orNull (o_github options);
  rq_description := orNull (o_description options)
|}.

(** Lines 12-125, on the fields that line 11 takes from an object.  The
    signature is awaited outside the [try]. *)
Definition launchCoin (C : Collaborators) (L : Launcher) (options : Options)
  : Completion (Result Launched) * list Call :=
  if falsy (o_name options) then
    (Normal (Failure msg_NameRequired []), [])
  else if falsy (o_symbol options) then
    (Normal (Failure msg_SymbolRequired []), [])
  else if negb (hasWallet C) then
    (Normal (Failure msg_CreateWallet [("action_required", "create_wallet")]),
     [])
  else
    match getDecryptedWallet C (o_password options) with
    | UnlockFailed error context => (Normal (Failure error context), [])
    | Unlocked walletAddress =>
        let timestamp := Date_now L in
        let message :=
          launchMessage (o_name options) (o_symbol options) walletAddress
            timestamp in
        match signMessage L walletAddress message with
        | Throw m => (Throw m, [CallSign walletAddress message])
        | Normal signature =>
            let body := requestOf L options walletAddress signature in
            let asked :=
              [CallSign walletAddress message; CallPost (endpoint L) body] in
            match fetch L (endpoint L) body with
            | Rejected m cause_code =>
                (Normal (launchCoin_catch L options walletAddress m
                           cause_code), asked)
            | Resolved response =>
                match json response with
                | Unreadable m cause_code =>
                    (Normal (launchCoin_catch L options walletAddress m
                               cause_code), asked)
                | Readable result =>
                    if negb (ok response) || negb (r_success result) then
                      (Normal (Failure (errorOf result) []), asked)
                    else
                      (Normal (Success {|
                         l_message := msg_Launched;
                         coin_id := r_tokenAddress result;
                         coin_name := o_name options;
                         coin_symbol := o_symbol options;
                         coin_totalSupply := r_totalSupply result;
                         coin_contractAddress := r_tokenAddress result;
                         coin_transactionHash := r_transactionHash result;
                         coin_creator := walletAddress;
                         coin_status := "launched";
                         coin_url := orNull (o_url options);
                         coin_github := orNull (o_github options);
                         coin_description := orNull (o_description options);
                         l_note := None
                       |}), asked)
                end
            end
        end
    end.

(** What a caller passes as [options].  [undefined] and [null] cannot be
    destructured; anything else can, a value that lacks a field giving
    an absent one. *)
Inductive Passed : Type :=
| PassedUndefined
| PassedNull
| PassedObject (options : Options).

(** The message of the TypeError that line 11 throws on [undefined] and
    on [null] (V8's text). *)
Definition msg_Destructure (what : string) : string :=
  ("Cannot destructure property 'password' of 'options' as it is "
   ++ what ++ ".")%string.

(** Lines 10-125, for whatever is passed: the destructuring of line 11
    comes before the first check and is outside any [try], so its
    TypeError rejects the call. *)
Definition launchCoin_call (C : Collaborators) (L : Launcher)
    (passed : Passed) : Completion (Result Launched) * list Call :=
  match passed with
  | PassedUndefined => (Throw (msg_Destructure "undefined"), [])
  | PassedNull => (Throw (msg_Destructure "null"), [])
  | PassedObject options => launchCoin C L options
  end.

(** The four checks pass, and the password unlocks [address]. *)
Definition ready (C : Collaborators) (options : Options) (address : string)
  : Prop :=
  o_name options <> ""
  /\ o_symbol options <> ""
  /\ hasWallet C = true
  /\ getDecryptedWallet C (o_password options) = Unlocked address.

(** The message [launchCoin] signs for [address]. *)
Definition messageFor (L : Launcher) (options : Options) (address : string)
  : string :=
  launchMessage (o_name options) (o_symbol options) address (Date_now L).

(** The API answered, with a status in the 200s and a reply whose
    [success] is truthy. *)
Definition accepted (f : Fetched) (result : Reply) : Prop :=
  exists response,
    f = Resolved response
    /\ ok response = true
    /\ json response = Readable result
    /\ r_success result = true.

(** The request or the reading of its reply failed, with the cause code
    ECONNREFUSED or a message that contains "fetch". *)
Definition unreachable (f : Fetched) : Prop :=
  exists m cause_code,
    (f = Rejected m cause_code
     \/ exists response,
          f = Resolved response /\ json response = Unreadable m cause_code)
    /\ (cause_code = Some "ECONNREFUSED" \/ includes m "fetch" = true).

(** A text without a line break. *)
Fixpoint singleLine (s : string) : bool :=
  match s with
  | EmptyString => true
  | String c rest => negb (Ascii.eqb c (ascii_of_nat 10)) && singleLine rest
  end.

(** A character of a lower-case hexadecimal numeral. *)
Definition isHexChar (c : ascii) : bool :=
  match HexadecimalString.uint_of_char c (Some Hexadecimal.Nil) with
  | Some _ => true
  | None => false
  end.

Fixpoint isHexText (s : string) : bool :=
  match s with
  | EmptyString => true
  | String c rest => isHexChar c && isHexText rest
  end.

(** A launcher whose API cannot be reached. *)
Definition offline : Launcher := {|
  Date_now := 1700000500000;
  signMessage := fun address message => Normal ("signed:" ++ address)%string;
  env_LAUNCHER_API_URL := "";
  fetch := fun _ _ => Rejected "fetch failed" (Some "ECONNREFUSED");
  random16 := fun k => Z.of_nat (k mod 16)
|}.

(** A launcher whose API deploys the coin. *)
Definition online : Launcher := {|
  Date_now := 1700000500000;
  signMessage := fun address message => Normal ("signed:" ++ address)%string;
  env_LAUNCHER_API_URL := "http://localhost:42069";
  fetch := fun _ _ =>
    Resolved {| ok := true;
                json := Readable {| r_success := true;
                                  r_error := None;
                                  r_tokenAddress := Some "0xC01n";
                                  r_totalSupply := Some "1000000000";
                                  r_transactionHash := Some "0xfeed" |} |};
  random16 := fun k => Z.of_nat (k mod 16)
|}.

(** A launcher whose wallet refuses to sign. *)
Definition unsigned : Launcher := {|
  Date_now := 1700000500000;
  signMessage := fun _ _ => Throw "signing rejected";
  env_LAUNCHER_API_URL := "";
  fetch := fun _ _ => Rejected "fetch failed" (Some "ECONNREFUSED");
  random16 := fun k => Z.of_nat (k mod 16)
|}.

Definition vibe : Options := {|
  o_password := "hunter2";
  o_name := "Vibe";
  o_symbol := "VIBE";
  o_url := Some "";
  o_github := None;
  o_description := Some "a coin"
|}.

End Launch.

(** Stepping through a chain of binds whose result is known to be a
    success: every pure step must have completed normally. *)
Ltac step_normal :=
  match goal with
  | H : context [match ?c with Normal _ => _ | Throw _ => _ end] |- _ =>
      let E := fresh "E" in
      destruct c eqn:E; cbn in H; [| discriminate H]
  end.

(* ===================================================================== *)
(** ** Properties of the schedule computation *)
(* ===================================================================== *)

Lemma vestedAmount2_eq total start duration now :
  vestedAmount2 total start duration now
  = vestedAmount total start (start + duration) now.
Proof.
  unfold vestedAmount2, vestedAmount.
  replace (start + duration - start) with duration by lia.
  reflexivity.
Qed.

(** The quotient branch never divides by zero: it is entered only
    strictly inside the window, where the duration is positive. *)
Lemma vestedAmount_total total start stop now :
  exists v, vestedAmount total start stop now = Normal v.
Proof.
  unfold vestedAmount, bigint_div.
  destruct (Z.geb_spec now stop) as [Hge | Hlt]; [eauto |].
  destruct (Z.leb_spec now start) as [Hle | Hgt]; [eauto |].
  destruct (Z.eqb_spec (stop - start) 0) as [Hz | Hnz]; [lia | eauto].
Qed.

Lemma vestedAmount_inside total start stop now :
  start < now < stop ->
  vestedAmount total start stop now
  = Normal (Z.quot (total * (now - start)) (stop - start)).
Proof.
  intros [H1 H2]. unfold vestedAmount, bigint_div.
  destruct (Z.geb_spec now stop); [lia |].
  destruct (Z.leb_spec now start); [lia |].
  destruct (Z.eqb_spec (stop - start) 0); [lia | reflexivity].
Qed.

Lemma vestedAmount_after total start stop now :
  stop <= now -> vestedAmount total start stop now = Normal total.
Proof.
  intros H. unfold vestedAmount.
  destruct (Z.geb_spec now stop); [reflexivity | lia].
Qed.

Lemma vestedAmount_before total start stop now :
  now <= start -> now < stop -> vestedAmount total start stop now = Normal 0.
Proof.
  intros H1 H2. unfold vestedAmount.
  destruct (Z.geb_spec now stop); [lia |].
  destruct (Z.leb_spec now start); [reflexivity | lia].
Qed.

Lemma vestedAmount_nonneg total start stop now v :
  0 <= total -> vestedAmount total start stop now = Normal v -> 0 <= v.
Proof.
  intros Htot. unfold vestedAmount, bigint_div.
  destruct (Z.geb_spec now stop); [intros [= <-]; lia |].
  destruct (Z.leb_spec now start); [intros [= <-]; lia |].
  destruct (Z.eqb_spec (stop - start) 0); [discriminate |].
  intros [= <-]. apply Z.quot_pos; nia.
Qed.

Lemma vestedAmount_le_total total start stop now v :
  0 <= total -> vestedAmount total start stop now = Normal v -> v <= total.
Proof.
  intros Htot. unfold vestedAmount, bigint_div.
  destruct (Z.geb_spec now stop); [intros [= <-]; lia |].
  destruct (Z.leb_spec now start); [intros [= <-]; lia |].
  destruct (Z.eqb_spec (stop - start) 0); [discriminate |].
  intros [= <-].
  rewrite Z.quot_div_nonneg by nia.
  apply Z.div_le_upper_bound; nia.
Qed.

(** Monotonicity in [now], for a non-negative total. *)
Lemma vestedAmount_mono total start stop now1 now2 v1 v2 :
  0 <= total -> now1 <= now2 ->
  vestedAmount total start stop now1 = Normal v1 ->
  vestedAmount total start stop now2 = Normal v2 ->
  v1 <= v2.
Proof.
  intros Htot Hle H1 H2.
  destruct (Z.le_gt_cases stop now2) as [Hend | Hin2].
  - rewrite vestedAmount_after in H2 by assumption.
    injection H2 as <-. eapply vestedAmount_le_total; eassumption.
  - destruct (Z.le_gt_cases now1 start) as [Hpre | Hin1].
    + rewrite vestedAmount_before in H1 by lia.
      injection H1 as <-. eapply vestedAmount_nonneg; eassumption.
    + rewrite vestedAmount_inside in H1, H2 by lia.
      injection H1 as <-. injection H2 as <-.
      rewrite !Z.quot_div_nonneg by nia.
      apply Z.div_le_mono; nia.
Qed.

Lemma inBothRevisions_intro total start stop (P : (Z -> Completion Z) -> Prop) :
  P (vestedAmount total start stop) -> inBothRevisions total start stop P.
Proof.
  intros H. split; [exact H |].
  replace (vestedAmount2 total start (stop - start))
    with (vestedAmount total start stop); [exact H |].
  unfold vestedAmount2, vestedAmount.
  replace (start + (stop - start)) with stop by lia. reflexivity.
Qed.

(* ===================================================================== *)
(** ** The three phases of a schedule *)
(* ===================================================================== *)

(** C1 (as amended).  For a window with [endTime >= startTime] the vested
    amount is [totalAmount] from [endTime] on, [0] up to [startTime] as
    long as [endTime] is not reached, and strictly inside the window the
    BigInt quotient [totalAmount * (now - startTime) / (endTime -
    startTime)], truncated toward zero; no exception is raised.  This holds
    for the computation of both revisions. *)
Theorem vestedAmount_phases total start stop now (Hwindow : start <= stop) :
  inBothRevisions total start stop (fun vested =>
    (stop <= now -> vested now = Normal total)
    /\ (now <= start -> now < stop -> vested now = Normal 0)
    /\ (start < now < stop ->
        vested now = Normal (Z.quot (total * (now - start)) (stop - start)))).
Proof.
  apply inBothRevisions_intro. repeat split.
  - apply vestedAmount_after.
  - apply vestedAmount_before.
  - apply vestedAmount_inside.
Qed.

Lemma vestedAmount_phases_witness :
  100 <= 1100
  /\ inBothRevisions 1000 100 1100 (fun vested =>
    (1100 <= 600 -> vested 600 = Normal 1000)
    /\ (600 <= 100 -> 600 < 1100 -> vested 600 = Normal 0)
    /\ (100 < 600 < 1100 ->
        vested 600 = Normal (Z.quot (1000 * (600 - 100)) (1100 - 100)))).
Proof.
  split; [lia |]. apply (vestedAmount_phases 1000 100 1100 600). lia.
Defined.

(** C1, as stated, fails on a zero-duration schedule read at its start:
    [now <= startTime] holds, yet the amount is [totalAmount], not [0]. *)
Lemma vestedAmount_at_start_of_empty_window :
  5 <= 5
  /\ vestedAmount 1000 5 5 5 = Normal 1000
  /\ vestedAmount2 1000 5 0 5 = Normal 1000
  /\ vestedAmount 1000 5 5 5 <> Normal 0.
Proof.
  repeat split; try reflexivity; try lia. discriminate.
Qed.

(** C2 (as amended).  For a non-negative total and [endTime >= startTime]
    the vested amount never decreases as [now] advances, it is
    [totalAmount] at [endTime], and it is [0] at [startTime] when the
    window is not empty (for an empty window [startTime] is [endTime], and
    the amount there is [totalAmount]). *)
Theorem vestedAmount_monotone total start stop
    (Htotal : 0 <= total) (Hwindow : start <= stop) :
  inBothRevisions total start stop (fun vested =>
    (forall now1 now2, now1 <= now2 ->
       exists v1 v2,
         vested now1 = Normal v1 /\ vested now2 = Normal v2 /\ v1 <= v2)
    /\ vested stop = Normal total
    /\ (start < stop -> vested start = Normal 0)).
Proof.
  apply inBothRevisions_intro. repeat split.
  - intros now1 now2 Hle.
    destruct (vestedAmount_total total start stop now1) as [v1 H1].
    destruct (vestedAmount_total total start stop now2) as [v2 H2].
    exists v1, v2. repeat split; try assumption.
    eapply vestedAmount_mono; eassumption.
  - apply vestedAmount_after. lia.
  - intros Hlt. apply vestedAmount_before; lia.
Qed.

Lemma vestedAmount_monotone_witness :
  0 <= 1000 /\ 100 <= 1100
  /\ inBothRevisions 1000 100 1100 (fun vested =>
    (forall now1 now2, now1 <= now2 ->
       exists v1 v2,
         vested now1 = Normal v1 /\ vested now2 = Normal v2 /\ v1 <= v2)
    /\ vested 1100 = Normal 1000
    /\ (100 < 1100 -> vested 100 = Normal 0)).
Proof.
  split; [lia |]. split; [lia |].
  apply (vestedAmount_monotone 1000 100 1100); lia.
Defined.

(** C2, as stated, fails at the start of a zero-duration schedule: the
    window satisfies [endTime >= startTime], and the amount at [startTime]
    is [totalAmount]. *)
Lemma vestedAmount_at_start_not_zero :
  7 <= 7
  /\ vestedAmount 1 7 7 7 = Normal 1
  /\ vestedAmount2 1 7 0 7 = Normal 1
  /\ vestedAmount 1 7 7 7 <> Normal 0.
Proof.
  repeat split; try reflexivity; try lia. discriminate.
Qed.

(** C4.  On a zero-duration schedule the BigInt division is never
    reached, so no RangeError is raised whatever [now] is, and the amount
    is [totalAmount] for every [now >= startTime] (and [0] before). *)
Theorem vestedAmount_zero_duration total start now :
  inBothRevisions total start start (fun vested =>
    vested now = Normal (if now >=? start then total else 0)).
Proof.
  apply inBothRevisions_intro. unfold vestedAmount.
  destruct (Z.geb_spec now start); [reflexivity |].
  destruct (Z.leb_spec now start); [reflexivity | lia].
Qed.

(* ===================================================================== *)
(** ** Decimal placement *)
(* ===================================================================== *)

Lemma length_append (a b : string) :
  String.length (a ++ b) = (String.length a + String.length b)%nat.
Proof. induction a as [| c a IH]; simpl; [reflexivity | now rewrite IH]. Qed.

Lemma substring_all (s : string) : substring 0 (String.length s) s = s.
Proof. induction s as [| c s IH]; simpl; [reflexivity | now rewrite IH]. Qed.

(** Cutting a string at [n] and gluing the pieces gives it back. *)
Lemma substring_split (s : string) : forall n : nat,
  (n <= String.length s)%nat ->
  (substring 0 n s ++ substring n (String.length s - n) s)%string = s.
Proof.
  induction s as [| c s IH]; intros [| n] Hn; simpl in *; try reflexivity.
  - now rewrite substring_all.
  - f_equal. apply IH. lia.
Qed.

Lemma substring_length (s : string) : forall n m : nat,
  (n + m <= String.length s)%nat -> String.length (substring n m s) = m.
Proof.
  induction s as [| c s IH]; intros [| n] [| m] H; simpl in *;
    try reflexivity; try lia.
  - f_equal. apply (IH 0%nat). lia.
  - apply IH. lia.
  - apply IH. lia.
Qed.

Lemma repeat_nat_length (n : nat) : String.length (repeat_nat "0" n) = n.
Proof. induction n as [| n IH]; simpl; [reflexivity | now rewrite IH]. Qed.

(** The digits of a numeral contain no decimal point. *)
Lemma digits_have_no_point (u : uint) :
  split_point (NilEmpty.string_of_uint u) = None.
Proof. induction u; simpl; try rewrite IHu; reflexivity. Qed.

Lemma split_point_prefix (a b : string) :
  split_point (a ++ b) = None -> split_point a = None.
Proof.
  induction a as [| c a IH]; simpl; [reflexivity |].
  destruct (Ascii.eqb c "."); [discriminate |].
  destruct (split_point (a ++ b)) as [[i f] |]; [discriminate |].
  intros _. now rewrite IH.
Qed.

Lemma split_point_at (a b : string) :
  split_point a = None -> split_point (a ++ String "." b) = Some (a, b).
Proof.
  induction a as [| c a IH]; simpl; [reflexivity |].
  destruct (Ascii.eqb c "."); [discriminate |].
  destruct (split_point a) as [[i f] |] eqn:E; [discriminate |].
  intros _. now rewrite IH.
Qed.

(** Leading zeros do not change the value of a numeral. *)
Lemma leading_zeros_value (n : nat) (s : string) (u : uint) :
  NilEmpty.uint_of_string s = Some u ->
  exists u', NilEmpty.uint_of_string (repeat_nat "0" n ++ s) = Some u'
             /\ Z.of_uint u' = Z.of_uint u.
Proof.
  intros Hs. induction n as [| n [u' [H1 H2]]]; simpl.
  - eauto.
  - rewrite H1. simpl. exists (D0 u'). split; [reflexivity | exact H2].
Qed.

(** The text of a non-negative BigInt is the digit string of a numeral
    with that value. *)
Lemma toString_nonneg (z : Z) :
  0 <= z ->
  exists u, toString z = NilEmpty.string_of_uint u /\ Z.of_uint u = z.
Proof.
  intros Hz. destruct z as [| p | p]; [| | lia].
  - exists (D0 Nil). split; reflexivity.
  - exists (Pos.to_uint p). split.
    + unfold toString. simpl.
      pose proof (DecimalPos.Unsigned.to_uint_nonnil p) as Hnil.
      destruct (Pos.to_uint p); try reflexivity. congruence.
    + unfold Z.of_uint. now rewrite DecimalPos.Unsigned.of_to.
Qed.

(** The placement and its reverse: the text is built without an exception
    and encodes the amount. *)
Lemma placement_then_encode (amount decimalsNum : Z) :
  0 <= amount -> 0 <= decimalsNum ->
  exists text,
    formatAmount_text amount decimalsNum = Normal text
    /\ encode text decimalsNum = Some amount.
Proof.
  intros Hamount Hdigits.
  destruct (toString_nonneg amount Hamount) as [u [Hstr Hval]].
  pose proof (NilEmpty.usu u) as Hparse.
  pose proof (digits_have_no_point u) as Hdigit.
  unfold formatAmount_text. rewrite Hstr.
  set (str := NilEmpty.string_of_uint u) in *.
  set (len := String.length str).
  destruct (Z.leb_spec (Z.of_nat len) decimalsNum) as [Hshort | Hlong].
  - unfold repeat.
    destruct (Z.ltb_spec (decimalsNum - Z.of_nat len) 0) as [| _]; [lia |].
    cbn [bindC]. eexists. split; [reflexivity |].
    unfold encode. cbn [append split_point Ascii.eqb Bool.eqb].
    rewrite length_append, repeat_nat_length.
    fold len.
    destruct (Z.eqb_spec (Z.of_nat (Z.to_nat (decimalsNum - Z.of_nat len) + len))
                decimalsNum) as [_ | Hne]; [| lia].
    destruct (leading_zeros_value (Z.to_nat (decimalsNum - Z.of_nat len)) str u Hparse)
      as [u' [Hu' Hv']].
    cbn [NilEmpty.uint_of_string]. rewrite Hu'. cbn [uint_of_char].
    cbn. f_equal. rewrite <- Hval, <- Hv'. reflexivity.
  - eexists. split; [reflexivity |].
    unfold slice. fold len.
    assert (Hk : (Z.to_nat (Z.of_nat len - decimalsNum) <= len)%nat) by lia.
    destruct (Z.ltb_spec 0 0) as [| _]; [lia |].
    destruct (Z.ltb_spec (Z.of_nat len - decimalsNum) 0) as [| _]; [lia |].
    rewrite !Z.min_l by lia. rewrite Z.sub_0_r.
    replace (Z.to_nat (Z.of_nat len - (Z.of_nat len - decimalsNum)))
      with (len - Z.to_nat (Z.of_nat len - decimalsNum))%nat by lia.
    set (k := Z.to_nat (Z.of_nat len - decimalsNum)) in *.
    pose proof (substring_split str k Hk) as Hsplit. fold len in Hsplit.
    unfold encode. change (Z.to_nat 0) with 0%nat.
    change ("." ++ substring k (len - k) str)%string
      with (String "." (substring k (len - k) str)).
    rewrite split_point_at.
    + rewrite substring_length by (fold len; lia).
      destruct (Z.eqb_spec (Z.of_nat (len - k)) decimalsNum) as [_ | Hne];
        [| lia].
      rewrite Hsplit, Hparse. now rewrite Hval.
    + apply split_point_prefix with (b := substring k (len - k) str).
      now rewrite Hsplit.
Qed.


(** The first revision decodes exactly.  For a non-negative amount and a
    non-negative number of fractional digits, the decimal text that its
    [formatAmount] builds by placing the point in the base-10 digits (no
    Number is involved up to there) is built without an exception, and
    re-encoding it to base units gives the amount back. *)
Theorem formatAmount_text_roundtrip (amount decimalsNum : Z)
    (Hamount : 0 <= amount) (Hdigits : 0 <= decimalsNum) :
  exists text,
    formatAmount_text amount decimalsNum = Normal text
    /\ encode text decimalsNum = Some amount.
Proof. now apply placement_then_encode. Qed.

Lemma formatAmount_text_roundtrip_witness :
  0 <= 1000000000 /\ 0 <= 9
  /\ exists text,
       formatAmount_text 1000000000 9 = Normal text
       /\ encode text 9 = Some 1000000000.
Proof.
  split; [lia |]. split; [lia |].
  apply (formatAmount_text_roundtrip 1000000000 9); lia.
Defined.

(** Whatever the encoder, the placement loses nothing: two amounts with
    the same decimal text are the same amount. *)
Corollary formatAmount_text_injective (a b decimalsNum : Z) :
  0 <= a -> 0 <= b -> 0 <= decimalsNum ->
  formatAmount_text a decimalsNum = formatAmount_text b decimalsNum ->
  a = b.
Proof.
  intros Ha Hb Hd Heq.
  destruct (placement_then_encode a decimalsNum Ha Hd) as [ta [Hta Hea]].
  destruct (placement_then_encode b decimalsNum Hb Hd) as [tb [Htb Heb]].
  rewrite Hta, Htb in Heq. injection Heq as ->. congruence.
Qed.

(** The boundary cases named by the specification. *)
Example formatAmount_text_one :
  formatAmount_text 1000000000 9 = Normal "1.000000000"
  /\ formatAmount_text 5 9 = Normal "0.000000005"
  /\ encode "0.000000005" 9 = Some 5.
Proof. repeat split; reflexivity. Qed.

(** The second revision builds no decimal text: its [formatAmount] starts
    with [Number(amount)] (line 548), and a Number cannot tell
    9007199254740993 from 9007199254740992.  The exact amounts it returns
    are the [raw] strings. *)
Remark Number_of_large_amount :
  Num (2 ^ 53 + 1) = Num (2 ^ 53) /\ toString (2 ^ 53 + 1) <> toString (2 ^ 53).
Proof. split; [vm_compute; reflexivity | vm_compute; discriminate]. Qed.

(** What the first revision's [formatAmount] hands to the display is the
    decimal text, for every amount whose text can be built. *)
Lemma V1_formatAmount_displays_the_text C decimalsNum amount text :
  formatAmount_text amount decimalsNum = Normal text ->
  V1.formatAmount C decimalsNum amount = Normal (display (host C) text)
  /\ V1.formatAmount_claim C decimalsNum amount
     = Normal (displayLocale (host C) text).
Proof.
  intros H. unfold V1.formatAmount, V1.formatAmount_claim.
  rewrite H. split; reflexivity.
Qed.

(** The second revision's [formatAmount] sees an amount only through its
    Number: amounts with the same binary64 value are formatted alike. *)
Lemma V2_formatAmount_sees_the_Number C decimals a b :
  Num a = Num b ->
  V2.formatAmount C decimals a = V2.formatAmount C decimals b
  /\ V2.formatAmount_claim C decimals a = V2.formatAmount_claim C decimals b.
Proof.
  intros H. unfold V2.formatAmount, V2.formatAmount_claim.
  rewrite H. split; reflexivity.
Qed.

(** C5.  The claim holds of the first revision and fails in the second.
    One token and one base unit, at 18 fractional digits: the first
    revision's [formatAmount] places the point in the digits and hands
    "1.000000000000000001" to the display, a text that re-encodes to the
    amount; the second revision's [formatAmount] (and the one of its
    [claimVestedTokens]) converts the amount to a Number first, which is
    the Number of one token exactly, so it formats the two amounts alike
    and the base unit cannot be recovered. *)
Theorem formatAmount_second_revision_loses_digits C :
  let amount := 1000000000000000001 in
  let text := "1.000000000000000001" in
  formatAmount_text amount 18 = Normal text
  /\ encode text 18 = Some amount
  /\ V1.formatAmount C 18 amount = Normal (display (host C) text)
  /\ V1.formatAmount_claim C 18 amount
     = Normal (displayLocale (host C) text)
  /\ V2.formatAmount C (NumberV 18) amount
     = Normal (displayNumber (host C)
                 (fdiv (Num 1000000000000000000) (Math_pow10 (host C) 18)))
  /\ V2.formatAmount C (NumberV 18) amount
     = V2.formatAmount C (NumberV 18) 1000000000000000000
  /\ V2.formatAmount_claim C (NumberV 18) amount
     = V2.formatAmount_claim C (NumberV 18) 1000000000000000000.
Proof.
  cbn zeta.
  assert (Htext : formatAmount_text 1000000000000000001 18
                  = Normal "1.000000000000000001") by reflexivity.
  assert (Hnum : Num 1000000000000000001 = Num 1000000000000000000)
    by (vm_compute; reflexivity).
  destruct (V1_formatAmount_displays_the_text C 18 _ _ Htext) as [F1 F2].
  destruct (V2_formatAmount_sees_the_Number C (NumberV 18) _ _ Hnum)
    as [G1 G2].
  split; [exact Htext |]. split; [reflexivity |].
  split; [exact F1 |]. split; [exact F2 |].
  split; [rewrite G1; reflexivity |].
  split; [exact G1 | exact G2].
Qed.

(* ===================================================================== *)
(** ** Releasable amount *)
(* ===================================================================== *)

Lemma vestedAmount2_total total start duration now :
  exists v, vestedAmount2 total start duration now = Normal v.
Proof. rewrite vestedAmount2_eq. apply vestedAmount_total. Qed.

(** C3, as stated, fails on a stale read: 500 of 1000 units are vested,
    600 were already released, and the second revision reports -100; it
    neither clamps nor raises. *)
Lemma releasable_negative_on_stale_read :
  let s := {| V2.totalAmount := 1000; V2.releasedAmount := 600;
              V2.startTime := 1700000000; V2.duration := 1000 |} in
  vestedAmount2 (V2.totalAmount s) (V2.startTime s) (V2.duration s) 1700000500
  = Normal 500
  /\ V2.releasedAmount s > 500
  /\ V2.releasable s 1700000500 = Normal (-100)
  /\ exists p t',
       V2.getVestingInfo Sample.world Sample.manager2 "0xNoMeta" []
       = (Normal (Success p), t')
       /\ raw_releasableAmount p = "-100".
Proof.
  cbn zeta. split; [reflexivity |]. split; [reflexivity |].
  split; [reflexivity |].
  eexists. eexists. split; vm_compute; reflexivity.
Qed.

(* ===================================================================== *)
(** ** Progress percentage *)
(* ===================================================================== *)

(** On the boundaries the percentage is exact. *)
Lemma vestingProgress_outside now start stop :
  start < stop -> now <= start \/ stop <= now ->
  vestingProgress now start stop (stop - start)
  = Some (exactProgress now start stop).
Proof.
  intros Hwin Hout. unfold vestingProgress, exactProgress.
  destruct (Z.geb_spec now stop) as [Hge | Hlt].
  - f_equal.
    assert (100 <= 100 * (now - start) / (stop - start)).
    { apply Z.div_le_lower_bound; nia. }
    lia.
  - destruct (Z.leb_spec now start) as [Hle | Hgt]; [| lia].
    f_equal.
    assert (100 * (now - start) / (stop - start) <= 0).
    { destruct (Z.eq_dec now start) as [-> | Hne].
      - rewrite Z.sub_diag, Z.mul_0_r, Z.div_0_l by lia. lia.
      - assert (100 * (now - start) / (stop - start) < 0); [| lia].
        apply Z.div_lt_upper_bound; nia. }
    lia.
Qed.

(** Half-way through, the percentage is the expected 50. *)
Example vestingProgress_half :
  vestingProgress 1700000500 1700000000 1700001000 1000 = Some 50
  /\ exactProgress 1700000500 1700000000 1700001000 = 50.
Proof. split; vm_compute; reflexivity. Qed.

(** Over a window of 100 seconds the reported percentage is wrong at
    three instants, each time one below the exact floor. *)
Example vestingProgress_hundred_seconds :
  inexactSeconds 100 = [29; 57; 58]
  /\ map (fun e => vestingProgress e 0 100 100) [29; 57; 58]
     = [Some 28; Some 56; Some 57].
Proof. split; vm_compute; reflexivity. Qed.

(** C6 does not hold of the code.  Inside the window the percentage is
    [Math.floor(((nowNum - startTimeNum) / durationNum) * 100)] in
    binary64: 29 seconds (or 29 days) into a window of 100, the quotient
    is the Number nearest to 0.29, its product with 100 is
    28.999999999999996, and the reported percentage is 28, where the
    exact integer floor of [100 * 29 / 100] is 29.  Both revisions report
    "28%". *)
Theorem vestingProgress_below_exact_floor :
  vestingProgress 1700000500 1700000471 1700000571 100 = Some 28
  /\ exactProgress 1700000500 1700000471 1700000571 = 29
  /\ vestingProgress (1700000000 + 29 * 86400) 1700000000
                     (1700000000 + 100 * 86400) (100 * 86400) = Some 28
  /\ (exists p t',
        V1.getVestingInfo Sample.world Sample.manager1 "0xShort" []
        = (Normal (Success p), t')
        /\ vi_progress p = "28%")
  /\ (exists p t',
        V2.getVestingInfo Sample.world Sample.manager2 "0xShortNoMeta" []
        = (Normal (Success p), t')
        /\ vi_progress p = "28%").
Proof.
  split; [vm_compute; reflexivity |].
  split; [vm_compute; reflexivity |].
  split; [vm_compute; reflexivity |].
  split; eexists; eexists; split; vm_compute; reflexivity.
Qed.

(* ===================================================================== *)
(** ** Single queries *)
(* ===================================================================== *)

(** Reading the token metadata always completes: a failing call is
    replaced by the defaults.  It leaves one call in the trace. *)
Lemma V1_readToken_run C tokenAddress t :
  exists tokenName tokenSymbol decimalsNum,
    V1.readToken C tokenAddress t
    = (Normal (tokenName, tokenSymbol, decimalsNum),
       (t ++ [CallTokenInfo tokenAddress])%list).
Proof.
  unfold V1.readToken, try_catch, bind, call, ret.
  destruct (tokenInfo C tokenAddress t) as [[[n s] d] | m]; eauto.
Qed.

Lemma V2_readToken_run C tokenAddress t :
  exists tokenName tokenSymbol decimals,
    V2.readToken C tokenAddress t
    = (Normal (tokenName, tokenSymbol, decimals),
       (t ++ [CallTokenInfo tokenAddress])%list).
Proof.
  unfold V2.readToken, try_catch, call, ret.
  destruct (tokenInfo C tokenAddress t) as [[[n s] d] | m]; eauto.
Qed.

Lemma app_two {A} (t : list A) (a b : A) :
  ((t ++ [a]) ++ [b] = t ++ [a; b])%list.
Proof. now rewrite <- app_assoc. Qed.

(** C7.  When the wallet resolves, the token address is valid and the
    schedule read from the ledger has [totalAmount == 0], [getVestingInfo]
    resolves to the failure "No vesting schedule found for this token..."
    (success false), whatever the other fields of the schedule and the
    token metadata are; the schedule is treated as absent.  Both revisions
    behave this way. *)
Theorem getVestingInfo_zero_total_is_not_found C tokenAddress t
    (Hwallet : walletResolved C) (Htoken : validToken C tokenAddress) :
  let beneficiary := wa_address (getWalletAddress C) in
  let asked := (t ++ [CallTokenInfo tokenAddress])%list in
  let trace := (t ++ [CallTokenInfo tokenAddress;
                      CallSchedule beneficiary tokenAddress])%list in
  (forall K s,
     V1.getSchedule K beneficiary tokenAddress asked = Normal s ->
     V1.totalAmount s = 0 ->
     V1.getVestingInfo C K tokenAddress t
     = (Normal (Failure msg_ScheduleNotFound
                  [("tokenAddress", tokenAddress);
                   ("beneficiary", beneficiary);
                   ("vestingManagerAddress", V1.VESTING_MANAGER_ADDRESS C)]),
        trace))
  /\ (forall K s,
        V2.schedules K tokenAddress beneficiary asked = Normal s ->
        V2.totalAmount s = 0 ->
        V2.getVestingInfo C K tokenAddress t
        = (Normal (Failure msg_ScheduleNotFound
                     [("tokenAddress", tokenAddress);
                      ("beneficiary", beneficiary);
                      ("vestingManagerAddress", V2.VESTING_MANAGER_ADDRESS C)]),
           trace)).
Proof.
  destruct Hwallet as [Hw1 Hw2]. destruct Htoken as [Ht1 Ht2].
  cbn zeta. split; intros K s Hfetch Hzero.
  - unfold V1.getVestingInfo. rewrite Hw1, Hw2, Ht1, Ht2. cbn [negb orb].
    destruct (V1_readToken_run C tokenAddress t) as [n [y [d Hread]]].
    unfold try_catch at 1. unfold bind at 1. rewrite Hread.
    unfold bind at 1. unfold V1.fetchSchedule, try_catch, bind, call, ret.
    rewrite Hfetch, Hzero. cbn. now rewrite app_two.
  - unfold V2.getVestingInfo. rewrite Hw1, Hw2, Ht1, Ht2. cbn [negb orb].
    destruct (V2_readToken_run C tokenAddress t) as [n [y [d Hread]]].
    unfold try_catch at 1. unfold bind at 1. rewrite Hread.
    unfold bind, call, ret.
    rewrite Hfetch, Hzero. cbn. now rewrite app_two.
Qed.

Lemma getVestingInfo_zero_total_is_not_found_witness :
  walletResolved Sample.world /\ validToken Sample.world "0xEmpty"
  /\ V1.getVestingInfo Sample.world Sample.manager1 "0xEmpty" []
     = (Normal (Failure msg_ScheduleNotFound
                  [("tokenAddress", "0xEmpty"); ("beneficiary", "0xAlice");
                   ("vestingManagerAddress",
                    V1.VESTING_MANAGER_ADDRESS Sample.world)]),
        [CallTokenInfo "0xEmpty"; CallSchedule "0xAlice" "0xEmpty"])
  /\ V2.getVestingInfo Sample.world Sample.manager2 "0xEmpty" []
     = (Normal (Failure msg_ScheduleNotFound
                  [("tokenAddress", "0xEmpty"); ("beneficiary", "0xAlice");
                   ("vestingManagerAddress",
                    V2.VESTING_MANAGER_ADDRESS Sample.world)]),
        [CallTokenInfo "0xEmpty"; CallSchedule "0xAlice" "0xEmpty"]).
Proof.
  assert (Hw : walletResolved Sample.world) by (split; reflexivity).
  assert (Ht : validToken Sample.world "0xEmpty") by (split; reflexivity).
  split; [exact Hw |]. split; [exact Ht |].
  destruct (getVestingInfo_zero_total_is_not_found
              Sample.world "0xEmpty" [] Hw Ht) as [H1 H2].
  split.
  - apply (H1 Sample.manager1
             {| V1.totalAmount := 0; V1.released := 0; V1.releasable := 0;
                V1.startTime := 0; V1.endTime := 0 |}); reflexivity.
  - apply (H2 Sample.manager2
             {| V2.totalAmount := 0; V2.releasedAmount := 0;
                V2.startTime := 0; V2.duration := 0 |}); reflexivity.
Defined.

(* ===================================================================== *)
(** ** Claiming *)
(* ===================================================================== *)

Lemma submitted_app (t u : Trace) :
  submitted (t ++ u)%list = (submitted t ++ submitted u)%list.
Proof. apply filter_app. Qed.

(** C8.  When a wallet exists, the token address is valid, the password
    unlocks the wallet and the schedule read from the ledger exists, a
    releasable amount that is [<= 0] makes [claimVestedTokens] resolve to
    the failure "No tokens available to claim..." after the two reads
    only: no release is submitted, so the transactions submitted so far
    are the ones submitted before the call.  In the first revision the
    releasable amount is the one the contract returned, in the second the
    one computed at the clock's time. *)
Theorem claimVestedTokens_nothing_to_claim C password tokenAddress address t
    (Hwallet : hasWallet C = true) (Htoken : validToken C tokenAddress)
    (Hunlock : getDecryptedWallet C password = Unlocked address) :
  let asked := (t ++ [CallTokenInfo tokenAddress])%list in
  let trace := (t ++ [CallTokenInfo tokenAddress;
                      CallSchedule address tokenAddress])%list in
  submitted trace = submitted t
  /\ (forall K s,
        V1.getSchedule K address tokenAddress asked = Normal s ->
        V1.totalAmount s <> 0 ->
        V1.releasable s <= 0 ->
        exists tokenName tokenSymbol,
          V1.claimVestedTokens C K password tokenAddress t
          = (Normal (Failure msg_NothingToClaim
                       (claimContext tokenAddress tokenName tokenSymbol)),
             trace))
  /\ (forall K s amount,
        V2.schedules K tokenAddress address asked = Normal s ->
        V2.totalAmount s <> 0 ->
        V2.releasable s (clock C trace) = Normal amount ->
        amount <= 0 ->
        exists tokenName tokenSymbol,
          V2.claimVestedTokens C K password tokenAddress t
          = (Normal (Failure msg_NothingToClaim
                       (claimContext tokenAddress tokenName tokenSymbol)),
             trace)).
Proof.
  destruct Htoken as [Ht1 Ht2]. cbn zeta. split; [| split].
  - rewrite submitted_app. cbn. apply app_nil_r.
  - intros K s Hfetch Hsome Hnone.
    unfold V1.claimVestedTokens.
    rewrite Hwallet, Ht1, Ht2, Hunlock. cbn [negb orb].
    destruct (V1_readToken_run C tokenAddress t) as [n [y [d Hread]]].
    exists n, y.
    unfold try_catch at 1. unfold bind at 1. rewrite Hread.
    unfold bind at 1. unfold V1.fetchSchedule, try_catch, bind, call, ret.
    rewrite Hfetch.
    destruct (Z.eqb_spec (V1.totalAmount s) 0) as [| _]; [contradiction |].
    destruct (Z.leb_spec (V1.releasable s) 0) as [_ |]; [| lia].
    now rewrite app_two.
  - intros K s amount Hfetch Hsome Hamount Hnone.
    unfold V2.claimVestedTokens.
    rewrite Hwallet, Ht1, Ht2, Hunlock. cbn [negb orb].
    destruct (V2_readToken_run C tokenAddress t) as [n [y [d Hread]]].
    exists n, y.
    unfold try_catch at 1. unfold bind at 1. rewrite Hread.
    unfold bind at 1. unfold call at 1. rewrite Hfetch.
    destruct (Z.eqb_spec (V2.totalAmount s) 0) as [| _]; [contradiction |].
    rewrite app_two. unfold bind, lift. rewrite Hamount.
    destruct (Z.leb_spec amount 0) as [_ |]; [| lia].
    reflexivity.
Qed.

Lemma claimVestedTokens_nothing_to_claim_witness :
  hasWallet Sample.world = true
  /\ validToken Sample.world "0xDone"
  /\ getDecryptedWallet Sample.world "hunter2" = Unlocked "0xAlice"
  /\ (exists tokenName tokenSymbol,
        V1.claimVestedTokens Sample.world Sample.manager1 "hunter2" "0xDone" []
        = (Normal (Failure msg_NothingToClaim
                     (claimContext "0xDone" tokenName tokenSymbol)),
           [CallTokenInfo "0xDone"; CallSchedule "0xAlice" "0xDone"]))
  /\ (exists tokenName tokenSymbol,
        V2.claimVestedTokens Sample.world Sample.manager2 "hunter2" "0xStale" []
        = (Normal (Failure msg_NothingToClaim
                     (claimContext "0xStale" tokenName tokenSymbol)),
           [CallTokenInfo "0xStale"; CallSchedule "0xAlice" "0xStale"])).
Proof.
  assert (Hd : validToken Sample.world "0xDone") by (split; reflexivity).
  assert (Hs : validToken Sample.world "0xStale") by (split; reflexivity).
  split; [reflexivity |]. split; [exact Hd |]. split; [reflexivity |].
  split.
  - destruct (claimVestedTokens_nothing_to_claim
                Sample.world "hunter2" "0xDone" "0xAlice" []
                eq_refl Hd eq_refl) as [_ [H1 _]].
    apply (H1 Sample.manager1
             {| V1.totalAmount := 1000; V1.released := 500;
                V1.releasable := 0;
                V1.startTime := 1700000000; V1.endTime := 1700001000 |});
      [reflexivity | discriminate | cbn; lia].
  - destruct (claimVestedTokens_nothing_to_claim
                Sample.world "hunter2" "0xStale" "0xAlice" []
                eq_refl Hs eq_refl) as [_ [_ H2]].
    apply (H2 Sample.manager2
             {| V2.totalAmount := 1000; V2.releasedAmount := 600;
                V2.startTime := 1700000000; V2.duration := 1000 |} (-100));
      [reflexivity | discriminate | reflexivity | lia].
Defined.

Lemma submitted_after_reads (t : Trace) token beneficiary :
  submitted ((t ++ [CallTokenInfo token]) ++ [CallSchedule beneficiary token])%list
  = submitted t.
Proof. rewrite !submitted_app. cbn. now rewrite !app_nil_r. Qed.

(** A computation that returns at once submits nothing. *)
Ltac returns_without_release H :=
  unfold ret in H; injection H as _ <-;
  first [ congruence
        | exfalso; match goal with
                   | Hne : submitted _ <> submitted _ |- _ =>
                       apply Hne; apply submitted_after_reads
                   end ].

(** The converse, for every path of the first revision: a release is
    submitted only after the wallet was unlocked and a schedule was read
    whose total is not zero and whose releasable amount is positive. *)
Lemma V1_release_needs_releasable C K password tokenAddress t r t' :
  V1.claimVestedTokens C K password tokenAddress t = (r, t') ->
  submitted t' <> submitted t ->
  exists address s,
    getDecryptedWallet C password = Unlocked address
    /\ V1.getSchedule K address tokenAddress
         (t ++ [CallTokenInfo tokenAddress])%list = Normal s
    /\ V1.totalAmount s <> 0
    /\ 0 < V1.releasable s.
Proof.
  intros H Hne. unfold V1.claimVestedTokens in H.
  destruct (negb (hasWallet C)); [returns_without_release H |].
  destruct (falsy tokenAddress || negb (isAddress C tokenAddress));
    [returns_without_release H |].
  destruct (getDecryptedWallet C password) as [e ctx | address] eqn:Hunlock;
    [returns_without_release H |].
  exists address.
  destruct (V1_readToken_run C tokenAddress t) as [n [y [d Hread]]].
  unfold try_catch at 1 in H. unfold bind at 1 in H. rewrite Hread in H.
  unfold bind at 1 in H.
  unfold V1.fetchSchedule, try_catch, bind, call in H.
  destruct (V1.getSchedule K address tokenAddress
              (t ++ [CallTokenInfo tokenAddress])%list) as [s | m] eqn:Hfetch.
  - exists s. cbn in H.
    destruct (Z.eqb_spec (V1.totalAmount s) 0) as [Hz | Hnz];
      [returns_without_release H |].
    destruct (Z.leb_spec (V1.releasable s) 0) as [Hle | Hgt];
      [returns_without_release H |].
    repeat split; assumption.
  - cbn in H. returns_without_release H.
Qed.

(** The same for the second revision, where the releasable amount is the
    one computed from the schedule at the clock's time. *)
Lemma V2_release_needs_releasable C K password tokenAddress t r t' :
  V2.claimVestedTokens C K password tokenAddress t = (r, t') ->
  submitted t' <> submitted t ->
  exists address s amount,
    getDecryptedWallet C password = Unlocked address
    /\ V2.schedules K tokenAddress address
         (t ++ [CallTokenInfo tokenAddress])%list = Normal s
    /\ V2.totalAmount s <> 0
    /\ V2.releasable s
         (clock C ((t ++ [CallTokenInfo tokenAddress])
                     ++ [CallSchedule address tokenAddress])%list)
       = Normal amount
    /\ 0 < amount.
Proof.
  intros H Hne. unfold V2.claimVestedTokens in H.
  destruct (negb (hasWallet C)); [returns_without_release H |].
  destruct (falsy tokenAddress || negb (isAddress C tokenAddress));
    [returns_without_release H |].
  destruct (getDecryptedWallet C password) as [e ctx | address] eqn:Hunlock;
    [returns_without_release H |].
  exists address.
  destruct (V2_readToken_run C tokenAddress t) as [n [y [d Hread]]].
  unfold try_catch at 1 in H. unfold bind at 1 in H. rewrite Hread in H.
  unfold bind at 1 in H. unfold call at 1 in H.
  destruct (V2.schedules K tokenAddress address
              (t ++ [CallTokenInfo tokenAddress])%list) as [s | m] eqn:Hfetch.
  - exists s.
    destruct (Z.eqb_spec (V2.totalAmount s) 0) as [Hz | Hnz];
      [returns_without_release H |].
    unfold bind at 1 in H. unfold lift at 1 in H.
    destruct (V2.releasable s _) as [amount | m] eqn:Hamount.
    + exists amount.
      destruct (Z.leb_spec amount 0) as [Hle | Hgt];
        [returns_without_release H |].
      repeat split; assumption.
    + unfold claimVestedTokens_catch in H.
      destruct (_ || _); [returns_without_release H |].
      destruct (isRevert m); returns_without_release H.
  - unfold claimVestedTokens_catch in H.
    destruct (_ || _); [returns_without_release H |].
    destruct (isRevert m); returns_without_release H.
Qed.

(* ===================================================================== *)
(** ** The batch query *)
(* ===================================================================== *)

(** A [catch] block that always returns makes the whole [try] return. *)
Lemma try_catch_returns {A} (body : M A) (handler : string -> M A) :
  (forall m t, exists r t', handler m t = (Normal r, t')) ->
  forall t, exists r t', try_catch body handler t = (Normal r, t').
Proof.
  intros Hh t. unfold try_catch.
  destruct (body t) as [[a | m] t1]; [eauto | apply Hh].
Qed.

Lemma getVestingInfo_catch_returns tokenAddress beneficiary vma m t :
  exists r t',
    getVestingInfo_catch tokenAddress beneficiary vma m t = (Normal r, t').
Proof.
  unfold getVestingInfo_catch, ret. destruct (isRevert m); eauto.
Qed.

(** [getVestingInfo] never rejects: every failure is turned into a
    result. *)
Lemma V1_getVestingInfo_returns C K tokenAddress t :
  exists r t', V1.getVestingInfo C K tokenAddress t = (Normal r, t').
Proof.
  unfold V1.getVestingInfo.
  destruct (negb (wa_success (getWalletAddress C))
            || falsy (wa_address (getWalletAddress C))); [unfold ret; eauto |].
  destruct (falsy tokenAddress || negb (isAddress C tokenAddress));
    [unfold ret; eauto |].
  apply try_catch_returns. intros m t0. apply getVestingInfo_catch_returns.
Qed.

Lemma V2_getVestingInfo_returns C K tokenAddress t :
  exists r t', V2.getVestingInfo C K tokenAddress t = (Normal r, t').
Proof.
  unfold V2.getVestingInfo.
  destruct (negb (wa_success (getWalletAddress C))
            || falsy (wa_address (getWalletAddress C))); [unfold ret; eauto |].
  destruct (falsy tokenAddress || negb (isAddress C tokenAddress));
    [unfold ret; eauto |].
  apply try_catch_returns. intros m t0. apply getVestingInfo_catch_returns.
Qed.

Section BatchFacts.

Variable query : string -> M (Result VestingInfo).
Variable vma : string.
Hypothesis query_returns : forall a t, exists r t', query a t = (Normal r, t').

(** The loop visits the addresses in order and appends the successes to
    what was collected so far. *)
Lemma collect_in_order items : forall acc t,
  exists results t',
    QueriedInOrder query items t results t'
    /\ collect query items acc t
       = (Normal (acc ++ filter success results)%list, t').
Proof.
  induction items as [| a rest IH]; intros acc t.
  - exists [], t. split; [constructor |]. cbn. unfold ret.
    now rewrite app_nil_r.
  - destruct (query_returns a t) as [r [t1 Hq]].
    cbn [collect]. unfold bind at 1. rewrite Hq.
    destruct (success r) eqn:Hr.
    + destruct (IH (acc ++ [r])%list t1) as [rs [t2 [Hrun Hc]]].
      exists (r :: rs), t2. split; [econstructor; eassumption |].
      rewrite Hc. cbn [filter]. rewrite Hr. now rewrite <- app_assoc.
    + destruct (IH acc t1) as [rs [t2 [Hrun Hc]]].
      exists (r :: rs), t2. split; [econstructor; eassumption |].
      rewrite Hc. cbn [filter]. now rewrite Hr.
Qed.

Lemma getAllVestingInfo_best_effort_for :
  BestEffort query vma (getAllVestingInfo query vma).
Proof.
  split; [| split].
  - reflexivity.
  - reflexivity.
  - intros items t Hne.
    destruct (collect_in_order items [] t) as [rs [t' [Hrun Hc]]].
    exists rs, t'. split; [exact Hrun |].
    unfold getAllVestingInfo.
    destruct items as [| a rest]; [contradiction |].
    cbn [List.length]. 
    destruct (Z.eqb_spec (Z.of_nat (S (List.length rest))) 0) as [| _]; [lia |].
    unfold bind. rewrite Hc. reflexivity.
Qed.

(** In a run where no query succeeded, nothing survives the filter. *)
Lemma all_failed_filter items : forall t results t',
  QueriedInOrder query items t results t' ->
  (forall a t0 r t1, In a items -> query a t0 = (Normal r, t1) ->
                     success r = false) ->
  filter success results = [].
Proof.
  induction 1 as [| a rest t r t1 rs t2 Hq Hrun IH]; intros Hfail.
  - reflexivity.
  - cbn [filter]. rewrite (Hfail a t r t1 (or_introl eq_refl) Hq).
    apply IH. intros a0 t0 r0 t3 Hin. apply Hfail. now right.
Qed.

End BatchFacts.

(** C9.  [getAllVestingInfo] refuses an argument that is not an array and
    an empty array with "Token addresses array is required", before
    anything is asked of the ledger; on a non-empty array it runs
    [getVestingInfo] on each address in the order given, each query
    starting where the previous one ended, drops the results that are
    failures, and resolves to a success carrying the remaining ones, in
    order, and their number: a failing address does not abort the batch.
    Both revisions behave this way. *)
Theorem getAllVestingInfo_best_effort C K1 K2 :
  BestEffort (V1.getVestingInfo C K1) (V1.VESTING_MANAGER_ADDRESS C)
             (V1Batch.getAllVestingInfo C K1)
  /\ BestEffort (V2.getVestingInfo C K2) (V2.VESTING_MANAGER_ADDRESS C)
                (V2Batch.getAllVestingInfo C K2).
Proof.
  split.
  - apply getAllVestingInfo_best_effort_for.
    intros a t. apply V1_getVestingInfo_returns.
  - apply getAllVestingInfo_best_effort_for.
    intros a t. apply V2_getVestingInfo_returns.
Qed.

Lemma getAllVestingInfo_best_effort_witness :
  ["0xToken"; "0xDown"] <> []
  /\ exists results t',
       QueriedInOrder (V1.getVestingInfo Sample.world Sample.manager1)
                      ["0xToken"; "0xDown"] [] results t'
       /\ V1Batch.getAllVestingInfo Sample.world Sample.manager1
            (ArrayOf ["0xToken"; "0xDown"]) []
          = (Normal (Success
               {| schedules := filter success results;
                  totalSchedules :=
                    Z.of_nat (List.length (filter success results));
                  vestingManagerAddress :=
                    V1.VESTING_MANAGER_ADDRESS Sample.world |}), t').
Proof.
  split; [discriminate |].
  apply (proj1 (getAllVestingInfo_best_effort
                  Sample.world Sample.manager1 Sample.manager2)).
  discriminate.
Defined.

(** One unreadable and one malformed address between two good ones: the
    batch succeeds with the two good schedules, in the order asked. *)
Example getAllVestingInfo_skips_bad_addresses :
  exists first second t',
    V1Batch.getAllVestingInfo Sample.world Sample.manager1
      (ArrayOf ["0xToken"; "0xDown"; "not an address"; "0xDone"]) []
    = (Normal (Success {| schedules := [Success first; Success second];
                          totalSchedules := 2;
                          vestingManagerAddress :=
                            V1.VESTING_MANAGER_ADDRESS Sample.world |}), t')
    /\ vi_token_address first = "0xToken"
    /\ vi_token_address second = "0xDone".
Proof.
  eexists. eexists. eexists. split; [vm_compute; reflexivity |].
  split; reflexivity.
Qed.

Section BatchRun.

Variable query : string -> M (Result VestingInfo).
Variable vma : string.

(** The loop computes what the run of its queries determines. *)
Lemma collect_of_run items t results t' :
  QueriedInOrder query items t results t' ->
  forall acc,
    collect query items acc t
    = (Normal (acc ++ filter success results)%list, t').
Proof.
  induction 1 as [| a rest t r t1 rs t2 Hq Hrun IH]; intros acc.
  - cbn. unfold ret. now rewrite app_nil_r.
  - cbn [collect]. unfold bind at 1. rewrite Hq.
    cbn [filter]. destruct (success r).
    + rewrite IH. now rewrite <- app_assoc.
    + apply IH.
Qed.

Lemma getAllVestingInfo_of_run items t results t' :
  items <> [] ->
  QueriedInOrder query items t results t' ->
  getAllVestingInfo query vma (ArrayOf items) t
  = (Normal (Success
       {| schedules := filter success results;
          totalSchedules := Z.of_nat (List.length (filter success results));
          vestingManagerAddress := vma |}), t').
Proof.
  intros Hne Hrun. unfold getAllVestingInfo.
  destruct items as [| a rest]; [contradiction |].
  cbn [List.length].
  destruct (Z.eqb_spec (Z.of_nat (S (List.length rest))) 0) as [| _]; [lia |].
  unfold bind. now rewrite (collect_of_run _ _ _ _ Hrun []).
Qed.

(** Nothing survives the filter exactly when every result is a
    failure. *)
Lemma filter_success_nil (results : list (Result VestingInfo)) :
  filter success results = []
  <-> Forall (fun r => success r = false) results.
Proof.
  induction results as [| r rs IH]; cbn [filter].
  - split; [constructor | reflexivity].
  - destruct (success r) eqn:Hr.
    + split; [discriminate |]. intros H. inversion H; congruence.
    + rewrite IH. split.
      * intros H. constructor; assumption.
      * intros H. inversion H; assumption.
Qed.

(** The batch of a run is the empty batch exactly when every query of
    that run failed. *)
Lemma getAllVestingInfo_empty_iff items t results t' :
  items <> [] ->
  QueriedInOrder query items t results t' ->
  (Forall (fun r => success r = false) results
   <-> getAllVestingInfo query vma (ArrayOf items) t
       = (Normal (emptyBatch vma), t')).
Proof.
  intros Hne Hrun.
  rewrite (getAllVestingInfo_of_run _ _ _ _ Hne Hrun).
  rewrite <- filter_success_nil. unfold emptyBatch. split.
  - intros ->. reflexivity.
  - intros H. injection H as H _. exact H.
Qed.

End BatchRun.

(** C10.  On a non-empty array [getAllVestingInfo] always resolves to a
    success.  The queries of the batch are run in order, each from the
    trace the previous one left; when every one of them failed, the
    success carries an empty list of schedules and [totalSchedules = 0],
    exactly what a wallet without any schedule would get -- and the
    batch is that empty success only when every query failed.  Both
    revisions behave this way. *)
Theorem getAllVestingInfo_succeeds_when_all_fail C K1 K2 items t
    (Hnonempty : items <> []) :
  (exists results t',
     QueriedInOrder (V1.getVestingInfo C K1) items t results t'
     /\ (exists batch,
           V1Batch.getAllVestingInfo C K1 (ArrayOf items) t
           = (Normal (Success batch), t'))
     /\ (Forall (fun r => success r = false) results
         <-> V1Batch.getAllVestingInfo C K1 (ArrayOf items) t
             = (Normal (emptyBatch (V1.VESTING_MANAGER_ADDRESS C)), t')))
  /\ (exists results t',
        QueriedInOrder (V2.getVestingInfo C K2) items t results t'
        /\ (exists batch,
              V2Batch.getAllVestingInfo C K2 (ArrayOf items) t
              = (Normal (Success batch), t'))
        /\ (Forall (fun r => success r = false) results
            <-> V2Batch.getAllVestingInfo C K2 (ArrayOf items) t
                = (Normal (emptyBatch (V2.VESTING_MANAGER_ADDRESS C)), t'))).
Proof.
  pose proof (getAllVestingInfo_best_effort_for
                (V1.getVestingInfo C K1) (V1.VESTING_MANAGER_ADDRESS C)
                (V1_getVestingInfo_returns C K1)) as [_ [_ H1]].
  pose proof (getAllVestingInfo_best_effort_for
                (V2.getVestingInfo C K2) (V2.VESTING_MANAGER_ADDRESS C)
                (V2_getVestingInfo_returns C K2)) as [_ [_ H2]].
  destruct (H1 items t Hnonempty) as [rs1 [t1 [Hrun1 Hall1]]].
  destruct (H2 items t Hnonempty) as [rs2 [t2 [Hrun2 Hall2]]].
  split.
  - exists rs1, t1. split; [exact Hrun1 |].
    split; [eexists; exact Hall1 |].
    apply getAllVestingInfo_empty_iff; assumption.
  - exists rs2, t2. split; [exact Hrun2 |].
    split; [eexists; exact Hall2 |].
    apply getAllVestingInfo_empty_iff; assumption.
Qed.

(** A token without a schedule and a token whose schedule cannot be read
    give the caller the same answer. *)
Example getAllVestingInfo_cannot_tell_why :
  fst (V1Batch.getAllVestingInfo Sample.world Sample.manager1
         (ArrayOf ["0xEmpty"]) [])
  = fst (V1Batch.getAllVestingInfo Sample.world Sample.manager1
           (ArrayOf ["0xDown"]) [])
  /\ fst (V1Batch.getAllVestingInfo Sample.world Sample.manager1
            (ArrayOf ["0xDown"]) [])
     = Normal (emptyBatch (V1.VESTING_MANAGER_ADDRESS Sample.world)).
Proof. split; vm_compute; reflexivity. Qed.

(** A schedule that cannot be read at the first attempt and can at the
    second: the same address, asked for twice in one batch, fails and
    then succeeds, and the batch carries the one success. *)
Example getAllVestingInfo_same_address_twice :
  exists first t',
    V1Batch.getAllVestingInfo Sample.world Scenario.managerFlaky1
      (ArrayOf ["0xToken"; "0xToken"]) []
    = (Normal (Success {| schedules := [Success first];
                          totalSchedules := 1;
                          vestingManagerAddress :=
                            V1.VESTING_MANAGER_ADDRESS Sample.world |}), t').
Proof. eexists. eexists. vm_compute. reflexivity. Qed.

Lemma getAllVestingInfo_succeeds_when_all_fail_witness :
  ["0xToken"] <> []
  /\ V1Batch.getAllVestingInfo Sample.world Scenario.managerFlaky1
       (ArrayOf ["0xToken"]) []
     = (Normal (emptyBatch (V1.VESTING_MANAGER_ADDRESS Sample.world)),
        reads "0xToken" "0xAlice").
Proof.
  split; [discriminate |].
  destruct (getAllVestingInfo_succeeds_when_all_fail
              Sample.world Scenario.managerFlaky1 Sample.manager2
              ["0xToken"] [] ltac:(discriminate))
    as [[results [t' [Hrun [_ Hiff]]]] _].
  inversion Hrun as [| a rest t0 r t1 rs t2 Hq Hrest]; subst.
  inversion Hrest; subst.
  vm_compute in Hq. injection Hq as <- <-.
  apply Hiff. repeat constructor.
Defined.

(* ===================================================================== *)
(** ** Bounds of the amounts *)
(* ===================================================================== *)

(** X1.  For a non-negative total, whatever the window and the instant,
    the vested amount lies between 0 and the total, and so does the
    locked amount [totalAmount - vestedAmount]; both revisions. *)
Theorem vested_and_locked_within_total total start stop now
    (Htotal : 0 <= total) :
  inBothRevisions total start stop (fun vested =>
    exists v,
      vested now = Normal v
      /\ 0 <= v <= total
      /\ 0 <= unreleasedOf total v <= total).
Proof.
  apply inBothRevisions_intro.
  destruct (vestedAmount_total total start stop now) as [v Hv].
  exists v. split; [exact Hv |].
  pose proof (vestedAmount_nonneg _ _ _ _ _ Htotal Hv).
  pose proof (vestedAmount_le_total _ _ _ _ _ Htotal Hv).
  unfold unreleasedOf. lia.
Qed.

Lemma vested_and_locked_within_total_witness :
  0 <= 1000
  /\ inBothRevisions 1000 100 1100 (fun vested =>
       exists v,
         vested 433 = Normal v
         /\ 0 <= v <= 1000
         /\ 0 <= unreleasedOf 1000 v <= 1000).
Proof.
  split; [lia |].
  apply (vested_and_locked_within_total 1000 100 1100 433). lia.
Defined.

(* ===================================================================== *)
(** ** Exceptions never escape *)
(* ===================================================================== *)

Lemma claimVestedTokens_catch_returns tokenAddress m t :
  exists r t', claimVestedTokens_catch tokenAddress m t = (Normal r, t').
Proof.
  unfold claimVestedTokens_catch, ret.
  destruct (_ || _); [eauto |]. destruct (isRevert m); eauto.
Qed.

Lemma V1_claimVestedTokens_returns C K password tokenAddress t :
  exists r t', V1.claimVestedTokens C K password tokenAddress t = (Normal r, t').
Proof.
  unfold V1.claimVestedTokens.
  destruct (negb (hasWallet C)); [unfold ret; eauto |].
  destruct (falsy tokenAddress || negb (isAddress C tokenAddress));
    [unfold ret; eauto |].
  destruct (getDecryptedWallet C password); [unfold ret; eauto |].
  apply try_catch_returns. intros m t0. apply claimVestedTokens_catch_returns.
Qed.

Lemma V2_claimVestedTokens_returns C K password tokenAddress t :
  exists r t', V2.claimVestedTokens C K password tokenAddress t = (Normal r, t').
Proof.
  unfold V2.claimVestedTokens.
  destruct (negb (hasWallet C)); [unfold ret; eauto |].
  destruct (falsy tokenAddress || negb (isAddress C tokenAddress));
    [unfold ret; eauto |].
  destruct (getDecryptedWallet C password); [unfold ret; eauto |].
  apply try_catch_returns. intros m t0. apply claimVestedTokens_catch_returns.
Qed.

(** X2.  Whatever the collaborators answer -- a rejected call, a zero
    duration, a date that cannot be printed, a BigInt where a Number is
    wanted -- [getVestingInfo] and [claimVestedTokens] resolve to a
    result object: no exception escapes them, in either revision. *)
Theorem exceptions_never_escape C K1 K2 password tokenAddress t :
  (exists r t', V1.getVestingInfo C K1 tokenAddress t = (Normal r, t'))
  /\ (exists r t', V2.getVestingInfo C K2 tokenAddress t = (Normal r, t'))
  /\ (exists r t',
        V1.claimVestedTokens C K1 password tokenAddress t = (Normal r, t'))
  /\ (exists r t',
        V2.claimVestedTokens C K2 password tokenAddress t = (Normal r, t')).
Proof.
  repeat split.
  - apply V1_getVestingInfo_returns.
  - apply V2_getVestingInfo_returns.
  - apply V1_claimVestedTokens_returns.
  - apply V2_claimVestedTokens_returns.
Qed.

(* ===================================================================== *)
(** ** What a query asks of the ledger *)
(* ===================================================================== *)

Lemma silent_ret {A} (a : A) : silent (ret a).
Proof. intros t. reflexivity. Qed.

Lemma silent_lift {A} (c : Completion A) : silent (lift c).
Proof. intros t. reflexivity. Qed.

Lemma silent_bind {A B} (c : M A) (k : A -> M B) :
  silent c -> (forall a, silent (k a)) -> silent (bind c k).
Proof.
  intros Hc Hk t. unfold bind. specialize (Hc t).
  destruct (c t) as [[a | m] t1]; cbn in Hc; subst; [apply Hk | reflexivity].
Qed.

Lemma silent_getVestingInfo_catch tokenAddress beneficiary vma m :
  silent (getVestingInfo_catch tokenAddress beneficiary vma m).
Proof.
  unfold getVestingInfo_catch. destruct (isRevert m); apply silent_ret.
Qed.

Lemma silent_claimVestedTokens_catch tokenAddress m :
  silent (claimVestedTokens_catch tokenAddress m).
Proof.
  unfold claimVestedTokens_catch.
  destruct (_ || _); [apply silent_ret |].
  destruct (isRevert m); apply silent_ret.
Qed.

Ltac silent_steps :=
  repeat first [ apply silent_ret | apply silent_lift
               | apply silent_bind; [| intro] ].

Lemma V1_describe_silent C tokenAddress beneficiary name symbol d s :
  silent (V1.describe C tokenAddress beneficiary name symbol d s).
Proof.
  intros t. unfold V1.describe.
  match goal with |- snd (?c t) = t => assert (H : silent c) end;
    [silent_steps | apply H].
Qed.

Lemma V2_describe_silent C tokenAddress beneficiary name symbol d s :
  silent (V2.describe C tokenAddress beneficiary name symbol d s).
Proof.
  intros t. unfold V2.describe.
  match goal with |- snd (?c t) = t => assert (H : silent c) end;
    [silent_steps | apply H].
Qed.

(** A [try] whose body always stops at the same trace, with a handler
    that asks nothing, stops at that trace. *)
Lemma try_catch_trace {A} (body : M A) (handler : string -> M A) t t2 :
  snd (body t) = t2 -> (forall m, silent (handler m)) ->
  snd (try_catch body handler t) = t2.
Proof.
  intros Hb Hh. unfold try_catch.
  destruct (body t) as [[a | m] t']; cbn in *; subst; [reflexivity | apply Hh].
Qed.

Lemma bind_trace {A B} (c : M A) (k : A -> M B) t a t1 :
  c t = (Normal a, t1) -> bind c k t = k a t1.
Proof. intros H. unfold bind. now rewrite H. Qed.

Lemma bind_throw {A B} (c : M A) (k : A -> M B) t m t1 :
  c t = (Throw m, t1) -> bind c k t = (Throw m, t1).
Proof. intros H. unfold bind. now rewrite H. Qed.

(** The guarded schedule read always completes and leaves one call. *)
Lemma V1_fetchSchedule_run {P} K beneficiary tokenAddress context t :
  @V1.fetchSchedule P K beneficiary tokenAddress context t
  = (Normal
       match V1.getSchedule K beneficiary tokenAddress t with
       | Normal s => inr s
       | Throw m =>
           inl (Failure ("Failed to fetch vesting schedule: " ++ m)%string
                        context)
       end,
     (t ++ [CallSchedule beneficiary tokenAddress])%list).
Proof.
  unfold V1.fetchSchedule, try_catch, bind, call, ret.
  destruct (V1.getSchedule K beneficiary tokenAddress t); reflexivity.
Qed.

Lemma V1_getVestingInfo_trace C K tokenAddress t :
  walletResolved C -> validToken C tokenAddress ->
  snd (V1.getVestingInfo C K tokenAddress t)
  = (t ++ reads tokenAddress (wa_address (getWalletAddress C)))%list.
Proof.
  intros [Hw1 Hw2] [Ht1 Ht2]. unfold V1.getVestingInfo.
  rewrite Hw1, Hw2, Ht1, Ht2. cbn [negb orb].
  apply try_catch_trace; [| intro; apply silent_getVestingInfo_catch].
  destruct (V1_readToken_run C tokenAddress t) as [n [y [d Hread]]].
  rewrite (bind_trace _ _ _ _ _ Hread).
  rewrite (bind_trace _ _ _ _ _ (V1_fetchSchedule_run _ _ _ _ _)).
  unfold reads. rewrite <- app_two.
  destruct (V1.getSchedule K _ tokenAddress _) as [s | m].
  - destruct (V1.totalAmount s =? 0); [reflexivity |].
    apply V1_describe_silent.
  - reflexivity.
Qed.

Lemma V2_getVestingInfo_trace C K tokenAddress t :
  walletResolved C -> validToken C tokenAddress ->
  snd (V2.getVestingInfo C K tokenAddress t)
  = (t ++ reads tokenAddress (wa_address (getWalletAddress C)))%list.
Proof.
  intros [Hw1 Hw2] [Ht1 Ht2]. unfold V2.getVestingInfo.
  rewrite Hw1, Hw2, Ht1, Ht2. cbn [negb orb].
  apply try_catch_trace; [| intro; apply silent_getVestingInfo_catch].
  destruct (V2_readToken_run C tokenAddress t) as [n [y [d Hread]]].
  rewrite (bind_trace _ _ _ _ _ Hread).
  unfold reads. rewrite <- app_two.
  unfold bind, call.
  destruct (V2.schedules K tokenAddress _ _) as [s | m]; [| reflexivity].
  destruct (V2.totalAmount s =? 0); [reflexivity |].
  apply V2_describe_silent.
Qed.

(** X3.  [getVestingInfo] checks the wallet first and the token address
    second; when either check fails it returns the corresponding failure
    without any ledger call.  When both pass it makes exactly two calls,
    the metadata read and the schedule read, in that order, whatever they
    answer and however the query ends.  Both revisions. *)
Theorem getVestingInfo_validates_then_reads_twice C K1 K2 tokenAddress t :
  (~ walletResolved C ->
     V1.getVestingInfo C K1 tokenAddress t = (Normal (Failure msg_NoWallet []), t)
     /\ V2.getVestingInfo C K2 tokenAddress t
        = (Normal (Failure msg_NoWallet []), t))
  /\ (walletResolved C -> ~ validToken C tokenAddress ->
        V1.getVestingInfo C K1 tokenAddress t
        = (Normal (Failure msg_InvalidTokenAddress []), t)
        /\ V2.getVestingInfo C K2 tokenAddress t
           = (Normal (Failure msg_InvalidTokenAddress []), t))
  /\ (walletResolved C -> validToken C tokenAddress ->
        snd (V1.getVestingInfo C K1 tokenAddress t)
        = (t ++ reads tokenAddress (wa_address (getWalletAddress C)))%list
        /\ snd (V2.getVestingInfo C K2 tokenAddress t)
           = (t ++ reads tokenAddress (wa_address (getWalletAddress C)))%list).
Proof.
  split; [| split].
  - intros Hno.
    assert (H : negb (wa_success (getWalletAddress C))
                || falsy (wa_address (getWalletAddress C)) = true).
    { unfold walletResolved in Hno.
      destruct (wa_success (getWalletAddress C)); [| reflexivity].
      destruct (falsy (wa_address (getWalletAddress C))); [reflexivity |].
      exfalso. apply Hno. split; reflexivity. }
    unfold V1.getVestingInfo, V2.getVestingInfo. rewrite H. split; reflexivity.
  - intros [Hw1 Hw2] Hno.
    assert (H : falsy tokenAddress || negb (isAddress C tokenAddress) = true).
    { unfold validToken in Hno.
      destruct (falsy tokenAddress); [reflexivity |].
      destruct (isAddress C tokenAddress); [| reflexivity].
      exfalso. apply Hno. split; reflexivity. }
    unfold V1.getVestingInfo, V2.getVestingInfo.
    rewrite Hw1, Hw2, H. split; reflexivity.
  - intros Hw Ht. split.
    + now apply V1_getVestingInfo_trace.
    + now apply V2_getVestingInfo_trace.
Qed.

Lemma getVestingInfo_validates_then_reads_twice_witness :
  ~ walletResolved Sample.worldWithoutWallet
  /\ V1.getVestingInfo Sample.worldWithoutWallet Sample.manager1 "0xToken" []
     = (Normal (Failure msg_NoWallet []), [])
  /\ walletResolved Sample.world /\ ~ validToken Sample.world "token"
  /\ V2.getVestingInfo Sample.world Sample.manager2 "token" []
     = (Normal (Failure msg_InvalidTokenAddress []), [])
  /\ validToken Sample.world "0xDown"
  /\ snd (V1.getVestingInfo Sample.world Sample.manager1 "0xDown" [])
     = reads "0xDown" "0xAlice".
Proof.
  assert (H0 : ~ walletResolved Sample.worldWithoutWallet)
    by (intros [H _]; discriminate H).
  assert (Hw : walletResolved Sample.world) by (split; reflexivity).
  assert (Hbad : ~ validToken Sample.world "token")
    by (intros [_ H]; discriminate H).
  assert (Hok : validToken Sample.world "0xDown") by (split; reflexivity).
  split; [exact H0 |].
  split.
  { apply (proj1 (getVestingInfo_validates_then_reads_twice
                    Sample.worldWithoutWallet Sample.manager1 Sample.manager2
                    "0xToken" []) H0). }
  split; [exact Hw |]. split; [exact Hbad |].
  split.
  { apply (proj1 (proj2 (getVestingInfo_validates_then_reads_twice
                           Sample.world Sample.manager1 Sample.manager2
                           "token" [])) Hw Hbad). }
  split; [exact Hok |].
  apply (proj2 (proj2 (getVestingInfo_validates_then_reads_twice
                         Sample.world Sample.manager1 Sample.manager2
                         "0xDown" [])) Hw Hok).
Defined.

(* ===================================================================== *)
(** ** Failures of the schedule read *)
(* ===================================================================== *)

Lemma getVestingInfo_catch_eq tokenAddress beneficiary vma m t :
  getVestingInfo_catch tokenAddress beneficiary vma m t
  = (Normal (queryFailure tokenAddress beneficiary vma m), t).
Proof.
  unfold getVestingInfo_catch, queryFailure, ret.
  destruct (isRevert m); reflexivity.
Qed.

Lemma claimVestedTokens_catch_eq tokenAddress m t :
  claimVestedTokens_catch tokenAddress m t
  = (Normal (claimFailure tokenAddress m), t).
Proof.
  unfold claimVestedTokens_catch, claimFailure, ret.
  destruct (_ || _); [reflexivity |]. destruct (isRevert m); reflexivity.
Qed.

Lemma V1_readToken_eq C tokenAddress t :
  V1.readToken C tokenAddress t
  = (Normal (V1_metadata C tokenAddress t),
     (t ++ [CallTokenInfo tokenAddress])%list).
Proof.
  unfold V1.readToken, V1_metadata, try_catch, bind, call, ret.
  destruct (tokenInfo C tokenAddress t) as [[[n s] [z | z]] | m]; reflexivity.
Qed.

Lemma V2_readToken_eq C tokenAddress t :
  V2.readToken C tokenAddress t
  = (Normal (V2_metadata C tokenAddress t),
     (t ++ [CallTokenInfo tokenAddress])%list).
Proof.
  unfold V2.readToken, V2_metadata, try_catch, call, ret.
  destruct (tokenInfo C tokenAddress t) as [[[n s] d] | m]; reflexivity.
Qed.

(** X4.  When the schedule read is rejected with message [m], the first
    revision reports "Failed to fetch vesting schedule: m" with the token
    and the beneficiary, whatever [m] says; the second revision reports a
    revert ("execution reverted", "call revert") as "No vesting schedule
    found for this token and wallet combination" and any other rejection
    as "Failed to get vesting info: m".  The message is kept in both. *)
Theorem getVestingInfo_schedule_read_rejected C tokenAddress t m
    (Hwallet : walletResolved C) (Htoken : validToken C tokenAddress) :
  let beneficiary := wa_address (getWalletAddress C) in
  let asked := (t ++ [CallTokenInfo tokenAddress])%list in
  let trace := (t ++ reads tokenAddress beneficiary)%list in
  (forall K,
     V1.getSchedule K beneficiary tokenAddress asked = Throw m ->
     V1.getVestingInfo C K tokenAddress t
     = (Normal (Failure ("Failed to fetch vesting schedule: " ++ m)%string
                  [("tokenAddress", tokenAddress);
                   ("beneficiary", beneficiary)]), trace))
  /\ (forall K,
        V2.schedules K tokenAddress beneficiary asked = Throw m ->
        V2.getVestingInfo C K tokenAddress t
        = (Normal
             (if isRevert m then
                Failure msg_ScheduleNotFound_revert
                  [("tokenAddress", tokenAddress);
                   ("beneficiary", beneficiary);
                   ("vestingManagerAddress", V2.VESTING_MANAGER_ADDRESS C)]
              else Failure ("Failed to get vesting info: " ++ m)%string []),
           trace)).
Proof.
  destruct Hwallet as [Hw1 Hw2]. destruct Htoken as [Ht1 Ht2].
  cbn zeta. unfold reads. split; intros K Hfetch.
  - unfold V1.getVestingInfo. rewrite Hw1, Hw2, Ht1, Ht2. cbn [negb orb].
    unfold try_catch at 1.
    rewrite (bind_trace _ _ _ _ _ (V1_readToken_eq _ _ _)).
    destruct (V1_metadata C tokenAddress t) as [[n y] d].
    rewrite (bind_trace _ _ _ _ _ (V1_fetchSchedule_run _ _ _ _ _)).
    rewrite Hfetch. unfold ret. now rewrite app_two.
  - unfold V2.getVestingInfo. rewrite Hw1, Hw2, Ht1, Ht2. cbn [negb orb].
    unfold try_catch at 1.
    rewrite (bind_trace _ _ _ _ _ (V2_readToken_eq _ _ _)).
    destruct (V2_metadata C tokenAddress t) as [[n y] d].
    unfold bind, call. rewrite Hfetch.
    rewrite getVestingInfo_catch_eq. unfold queryFailure.
    rewrite app_two. destruct (isRevert m); reflexivity.
Qed.

Lemma getVestingInfo_schedule_read_rejected_witness :
  walletResolved Sample.world /\ validToken Sample.world "0xDown"
  /\ V1.getVestingInfo Sample.world Sample.manager1 "0xDown" []
     = (Normal (Failure "Failed to fetch vesting schedule: network timeout"
                  [("tokenAddress", "0xDown"); ("beneficiary", "0xAlice")]),
        reads "0xDown" "0xAlice")
  /\ V2.getVestingInfo Sample.world Sample.manager2 "0xDown" []
     = (Normal (Failure "Failed to get vesting info: network timeout" []),
        reads "0xDown" "0xAlice").
Proof.
  assert (Hw : walletResolved Sample.world) by (split; reflexivity).
  assert (Ht : validToken Sample.world "0xDown") by (split; reflexivity).
  split; [exact Hw |]. split; [exact Ht |].
  destruct (getVestingInfo_schedule_read_rejected
              Sample.world "0xDown" [] "network timeout" Hw Ht) as [H1 H2].
  split.
  - apply (H1 Sample.manager1). reflexivity.
  - apply (H2 Sample.manager2). reflexivity.
Defined.

(* ===================================================================== *)
(** ** The outcome of a query on an existing schedule *)
(* ===================================================================== *)

(** The decimal text is always built: the padding count is never
    negative where [repeat] is called. *)
Lemma formatAmount_text_total amount decimalsNum :
  exists text, formatAmount_text amount decimalsNum = Normal text.
Proof.
  unfold formatAmount_text, repeat.
  destruct (Z.leb_spec (Z.of_nat (String.length (toString amount))) decimalsNum);
    [| eauto].
  destruct (Z.ltb_spec
              (decimalsNum - Z.of_nat (String.length (toString amount))) 0);
    [lia | cbn; eauto].
Qed.

Lemma V1_formatAmount_total C decimalsNum amount :
  exists text, V1.formatAmount C decimalsNum amount = Normal text.
Proof.
  unfold V1.formatAmount.
  destruct (formatAmount_text_total amount decimalsNum) as [x ->].
  cbn. eauto.
Qed.

Lemma V1_formatAmount_claim_total C decimalsNum amount :
  exists text, V1.formatAmount_claim C decimalsNum amount = Normal text.
Proof.
  unfold V1.formatAmount_claim.
  destruct (formatAmount_text_total amount decimalsNum) as [x ->].
  cbn. eauto.
Qed.

Lemma toISOString_printable h seconds :
  printableTime seconds ->
  toISOString h (seconds * 1000) = Normal (isoText h (seconds * 1000)).
Proof.
  unfold printableTime, toISOString. intros H.
  destruct (Z.leb_spec (Z.abs (seconds * 1000)) 8640000000000000);
    [reflexivity | lia].
Qed.

Lemma toISOString_unprintable h seconds :
  ~ printableTime seconds ->
  toISOString h (seconds * 1000) = Throw "Invalid time value".
Proof.
  unfold printableTime, toISOString. intros H.
  destruct (Z.leb_spec (Z.abs (seconds * 1000)) 8640000000000000);
    [contradiction | reflexivity].
Qed.

Lemma printableTime_dec seconds :
  {printableTime seconds} + {~ printableTime seconds}.
Proof. unfold printableTime. apply Z_le_dec. Qed.

(** What the first revision assembles for an existing schedule: a
    payload carrying the exact amounts when both ends of the window can be
    printed, the RangeError of [toISOString] otherwise. *)
Lemma V1_describe_result C tokenAddress beneficiary name symbol d
    (s : V1.Schedule) t :
  exists vested,
    vestedAmount (V1.totalAmount s) (V1.startTime s) (V1.endTime s) (clock C t)
    = Normal vested
    /\ ((printableTime (V1.startTime s) /\ printableTime (V1.endTime s)
         /\ exists p,
              V1.describe C tokenAddress beneficiary name symbol d s t
              = (Normal (Success p), t)
              /\ vi_token_address p = tokenAddress
              /\ vi_beneficiary p = beneficiary
              /\ raw_totalAmount p = toString (V1.totalAmount s)
              /\ raw_releasedAmount p = toString (V1.released s)
              /\ raw_releasableAmount p = toString (V1.releasable s)
              /\ raw_lockedAmount p = toString (V1.totalAmount s - vested))
        \/ (~ (printableTime (V1.startTime s) /\ printableTime (V1.endTime s))
            /\ V1.describe C tokenAddress beneficiary name symbol d s t
               = (Throw "Invalid time value", t))).
Proof.
  destruct (vestedAmount_total (V1.totalAmount s) (V1.startTime s)
              (V1.endTime s) (clock C t)) as [v Hv].
  exists v. split; [exact Hv |].
  unfold V1.describe, bind, lift, ret. rewrite Hv.
  destruct (V1_formatAmount_total C d (V1.totalAmount s)) as [f1 ->].
  destruct (V1_formatAmount_total C d (V1.released s)) as [f2 ->].
  destruct (V1_formatAmount_total C d (V1.releasable s)) as [f3 ->].
  destruct (V1_formatAmount_total C d (unreleasedOf (V1.totalAmount s) v))
    as [f4 ->].
  destruct (printableTime_dec (V1.startTime s)) as [Hs | Hs].
  - rewrite (toISOString_printable _ _ Hs).
    destruct (printableTime_dec (V1.endTime s)) as [He | He].
    + rewrite (toISOString_printable _ _ He).
      left. split; [exact Hs |]. split; [exact He |].
      eexists. split; [reflexivity |]. repeat split.
    + rewrite (toISOString_unprintable _ _ He).
      right. split; [tauto | reflexivity].
  - rewrite (toISOString_unprintable _ _ Hs).
    right. split; [tauto | reflexivity].
Qed.

(** The whole first-revision query once both checks have passed. *)
Lemma V1_getVestingInfo_eq C K tokenAddress t :
  walletResolved C -> validToken C tokenAddress ->
  let beneficiary := wa_address (getWalletAddress C) in
  let t1 := (t ++ [CallTokenInfo tokenAddress])%list in
  let t2 := (t ++ reads tokenAddress beneficiary)%list in
  V1.getVestingInfo C K tokenAddress t
  = (Normal
       match V1.getSchedule K beneficiary tokenAddress t1 with
       | Throw m =>
           Failure ("Failed to fetch vesting schedule: " ++ m)%string
             [("tokenAddress", tokenAddress); ("beneficiary", beneficiary)]
       | Normal s =>
           if V1.totalAmount s =? 0 then
             Failure msg_ScheduleNotFound
               [("tokenAddress", tokenAddress); ("beneficiary", beneficiary);
                ("vestingManagerAddress", V1.VESTING_MANAGER_ADDRESS C)]
           else
             let '(name, symbol, d) := V1_metadata C tokenAddress t in
             match fst (V1.describe C tokenAddress beneficiary name symbol d
                          s t2) with
             | Normal r => r
             | Throw m =>
                 queryFailure tokenAddress beneficiary
                   (V1.VESTING_MANAGER_ADDRESS C) m
             end
       end, t2).
Proof.
  intros [Hw1 Hw2] [Ht1 Ht2]. cbn zeta. unfold reads.
  unfold V1.getVestingInfo. rewrite Hw1, Hw2, Ht1, Ht2. cbn [negb orb].
  unfold try_catch at 1.
  rewrite (bind_trace _ _ _ _ _ (V1_readToken_eq _ _ _)).
  destruct (V1_metadata C tokenAddress t) as [[n y] d].
  rewrite (bind_trace _ _ _ _ _ (V1_fetchSchedule_run _ _ _ _ _)).
  rewrite app_two.
  destruct (V1.getSchedule K _ tokenAddress _) as [s | m]; [| reflexivity].
  destruct (V1.totalAmount s =? 0); [reflexivity |].
  pose proof (V1_describe_silent C tokenAddress
                (wa_address (getWalletAddress C)) n y d s
                (t ++ [CallTokenInfo tokenAddress;
                       CallSchedule (wa_address (getWalletAddress C))
                                    tokenAddress])%list) as Hsilent.
  destruct (V1.describe C tokenAddress _ n y d s _) as [[r | m] t'];
    cbn in Hsilent; subst t'; cbn [fst].
  - reflexivity.
  - apply getVestingInfo_catch_eq.
Qed.

(** The digits of a BigInt read back to the same BigInt, sign included. *)
Lemma readAmount_toString (z : Z) : readAmount (toString z) = Some z.
Proof.
  unfold readAmount, toString.
  rewrite NilZero.isi.
  - now rewrite DecimalZ.of_to.
  - destruct z; cbn; try discriminate.
    intros [= H]. now apply DecimalPos.Unsigned.to_uint_nonnil in H.
  - destruct z; cbn; try discriminate.
    intros [= H]. now apply DecimalPos.Unsigned.to_uint_nonnil in H.
Qed.

(** X5.  The first revision's [getVestingInfo] succeeds exactly when the
    wallet resolves, the token address is valid, the schedule read answers
    with a schedule whose total is not zero, and both ends of its window
    can be printed as dates (at most 8.64e12 seconds in magnitude).  The
    token metadata plays no part: its failure is absorbed. *)
Theorem V1_getVestingInfo_succeeds_iff C K tokenAddress t :
  (exists p t', V1.getVestingInfo C K tokenAddress t = (Normal (Success p), t'))
  <-> (walletResolved C /\ validToken C tokenAddress
       /\ exists s,
            V1.getSchedule K (wa_address (getWalletAddress C)) tokenAddress
              (t ++ [CallTokenInfo tokenAddress])%list = Normal s
            /\ V1.totalAmount s <> 0
            /\ printableTime (V1.startTime s)
            /\ printableTime (V1.endTime s)).
Proof.
  split.
  - intros [p [t' H]].
    assert (Hw : walletResolved C).
    { unfold walletResolved. unfold V1.getVestingInfo in H.
      destruct (wa_success (getWalletAddress C)); [| discriminate H].
      destruct (falsy (wa_address (getWalletAddress C))); [discriminate H |].
      split; reflexivity. }
    assert (Ht : validToken C tokenAddress).
    { destruct Hw as [Hw1 Hw2]. unfold validToken.
      unfold V1.getVestingInfo in H. rewrite Hw1, Hw2 in H. cbn [negb orb] in H.
      destruct (falsy tokenAddress); [discriminate H |].
      destruct (isAddress C tokenAddress); [| discriminate H].
      split; reflexivity. }
    split; [exact Hw |]. split; [exact Ht |].
    rewrite (V1_getVestingInfo_eq C K tokenAddress t Hw Ht) in H.
    cbn zeta in H.
    destruct (V1.getSchedule K _ tokenAddress _) as [s | m]; [| discriminate H].
    exists s. split; [reflexivity |].
    destruct (Z.eqb_spec (V1.totalAmount s) 0) as [| Hnz]; [discriminate H |].
    split; [exact Hnz |].
    destruct (V1_metadata C tokenAddress t) as [[n y] d].
    destruct (V1_describe_result C tokenAddress
                (wa_address (getWalletAddress C)) n y d s
                (t ++ reads tokenAddress (wa_address (getWalletAddress C)))%list)
      as [v [_ [[Hs [He _]] | [_ Hthrow]]]]; [tauto |].
    rewrite Hthrow in H. cbn in H. discriminate H.
  - intros [Hw [Ht [s [Hfetch [Hnz [Hs He]]]]]].
    rewrite (V1_getVestingInfo_eq C K tokenAddress t Hw Ht). cbn zeta.
    rewrite Hfetch.
    destruct (Z.eqb_spec (V1.totalAmount s) 0) as [| _]; [contradiction |].
    destruct (V1_metadata C tokenAddress t) as [[n y] d].
    destruct (V1_describe_result C tokenAddress
                (wa_address (getWalletAddress C)) n y d s
                (t ++ reads tokenAddress (wa_address (getWalletAddress C)))%list)
      as [v [_ [[_ [_ [p [Hp _]]]] | [Hno _]]]]; [| tauto].
    rewrite Hp. cbn. eauto.
Qed.

(** X6.  A successful result of the first revision carries, in [raw], the
    exact decimal digits of the schedule it read: total, released, the
    contract's releasable, and the locked amount the engine computed as
    total minus vested at the clock's time.  Read back as integers they
    are those amounts, so the locked and vested amounts add up to the
    total; the result names the token asked for and the wallet's
    address, and exactly the two reads were made. *)
Theorem V1_getVestingInfo_success_is_exact C K tokenAddress t p t'
    (Hsuccess : V1.getVestingInfo C K tokenAddress t = (Normal (Success p), t')) :
  let beneficiary := wa_address (getWalletAddress C) in
  t' = (t ++ reads tokenAddress beneficiary)%list
  /\ vi_token_address p = tokenAddress
  /\ vi_beneficiary p = beneficiary
  /\ exists s vested locked,
       V1.getSchedule K beneficiary tokenAddress
         (t ++ [CallTokenInfo tokenAddress])%list = Normal s
       /\ vestedAmount (V1.totalAmount s) (V1.startTime s) (V1.endTime s)
            (clock C t') = Normal vested
       /\ readAmount (raw_totalAmount p) = Some (V1.totalAmount s)
       /\ readAmount (raw_releasedAmount p) = Some (V1.released s)
       /\ readAmount (raw_releasableAmount p) = Some (V1.releasable s)
       /\ readAmount (raw_lockedAmount p) = Some locked
       /\ locked + vested = V1.totalAmount s.
Proof.
  cbn zeta.
  assert (Hw : walletResolved C).
  { unfold walletResolved. unfold V1.getVestingInfo in Hsuccess.
    destruct (wa_success (getWalletAddress C)); [| discriminate Hsuccess].
    destruct (falsy (wa_address (getWalletAddress C)));
      [discriminate Hsuccess |].
    split; reflexivity. }
  assert (Ht : validToken C tokenAddress).
  { destruct Hw as [Hw1 Hw2]. unfold validToken.
    unfold V1.getVestingInfo in Hsuccess.
    rewrite Hw1, Hw2 in Hsuccess. cbn [negb orb] in Hsuccess.
    destruct (falsy tokenAddress); [discriminate Hsuccess |].
    destruct (isAddress C tokenAddress); [| discriminate Hsuccess].
    split; reflexivity. }
  rewrite (V1_getVestingInfo_eq C K tokenAddress t Hw Ht) in Hsuccess.
  cbn zeta in Hsuccess.
  destruct (V1.getSchedule K _ tokenAddress _) as [s | m];
    [| discriminate Hsuccess].
  destruct (V1.totalAmount s =? 0); [discriminate Hsuccess |].
  destruct (V1_metadata C tokenAddress t) as [[n y] d].
  destruct (V1_describe_result C tokenAddress
              (wa_address (getWalletAddress C)) n y d s
              (t ++ reads tokenAddress (wa_address (getWalletAddress C)))%list)
    as [v [Hv [[_ [_ [q [Hq Hfields]]]] | [_ Hthrow]]]].
  - rewrite Hq in Hsuccess. cbn in Hsuccess.
    injection Hsuccess as <- <-.
    destruct Hfields as [F1 [F2 [F3 [F4 [F5 F6]]]]].
    split; [reflexivity |]. split; [exact F1 |]. split; [exact F2 |].
    exists s, v, (V1.totalAmount s - v).
    split; [reflexivity |]. split; [exact Hv |].
    rewrite F3, F4, F5, F6, !readAmount_toString.
    repeat split. lia.
  - rewrite Hthrow in Hsuccess. cbn in Hsuccess.
    unfold queryFailure in Hsuccess. cbn in Hsuccess. discriminate Hsuccess.
Qed.

Lemma V1_getVestingInfo_success_is_exact_witness :
  exists p t',
    V1.getVestingInfo Sample.world Sample.manager1 "0xToken" []
    = (Normal (Success p), t')
    /\ t' = reads "0xToken" "0xAlice"
    /\ readAmount (raw_lockedAmount p) = Some 500.
Proof.
  eexists. eexists. split; [vm_compute; reflexivity |].
  destruct (V1_getVestingInfo_success_is_exact
              Sample.world Sample.manager1 "0xToken" [] _ _ eq_refl)
    as [Htrace _].
  split; [exact Htrace | vm_compute; reflexivity].
Defined.

Lemma isRevert_TypeError :
  isRevert "Cannot convert a BigInt value to a number" = false.
Proof. vm_compute. reflexivity. Qed.

Lemma isRevert_RangeError : isRevert "Invalid time value" = false.
Proof. vm_compute. reflexivity. Qed.

(** What the second revision assembles for an existing schedule: the
    TypeError of [Math.pow] when [decimals] is a BigInt; otherwise a
    payload when both ends of the window can be printed, and the
    RangeError of [toISOString] when not. *)
Lemma V2_describe_result C tokenAddress beneficiary name symbol decimals
    (s : V2.Schedule) t :
  exists vested,
    vestedAmount2 (V2.totalAmount s) (V2.startTime s) (V2.duration s)
      (clock C t) = Normal vested
    /\ (((exists z, decimals = NumberV z)
         /\ printableTime (V2.startTime s)
         /\ printableTime (V2.startTime s + V2.duration s)
         /\ exists p,
              V2.describe C tokenAddress beneficiary name symbol decimals s t
              = (Normal (Success p), t)
              /\ vi_token_address p = tokenAddress
              /\ vi_beneficiary p = beneficiary
              /\ raw_totalAmount p = toString (V2.totalAmount s)
              /\ raw_releasedAmount p = toString (V2.releasedAmount s)
              /\ raw_releasableAmount p
                 = toString (vested - V2.releasedAmount s)
              /\ raw_lockedAmount p = toString (V2.totalAmount s - vested))
        \/ ((exists z, decimals = BigIntV z)
            /\ V2.describe C tokenAddress beneficiary name symbol decimals s t
               = (Throw "Cannot convert a BigInt value to a number", t))
        \/ ((exists z, decimals = NumberV z)
            /\ ~ (printableTime (V2.startTime s)
                  /\ printableTime (V2.startTime s + V2.duration s))
            /\ V2.describe C tokenAddress beneficiary name symbol decimals s t
               = (Throw "Invalid time value", t))).
Proof.
  destruct (vestedAmount2_total (V2.totalAmount s) (V2.startTime s)
              (V2.duration s) (clock C t)) as [v Hv].
  exists v. split; [exact Hv |].
  unfold V2.describe, bind, lift, ret. rewrite Hv.
  destruct decimals as [z | z].
  - right. left. split; [eauto | reflexivity].
  - unfold V2.formatAmount. cbn [toNumber_strict bindC].
    destruct (printableTime_dec (V2.startTime s)) as [Hs | Hs].
    + rewrite (toISOString_printable _ _ Hs).
      destruct (printableTime_dec (V2.startTime s + V2.duration s))
        as [He | He].
      * rewrite (toISOString_printable _ _ He).
        left. split; [eauto |]. split; [exact Hs |]. split; [exact He |].
        eexists. split; [reflexivity |]. repeat split.
      * rewrite (toISOString_unprintable _ _ He).
        right. right. split; [eauto |]. split; [tauto | reflexivity].
    + rewrite (toISOString_unprintable _ _ Hs).
      right. right. split; [eauto |]. split; [tauto | reflexivity].
Qed.

(** The whole second-revision query once both checks have passed. *)
Lemma V2_getVestingInfo_eq C K tokenAddress t :
  walletResolved C -> validToken C tokenAddress ->
  let beneficiary := wa_address (getWalletAddress C) in
  let t1 := (t ++ [CallTokenInfo tokenAddress])%list in
  let t2 := (t ++ reads tokenAddress beneficiary)%list in
  V2.getVestingInfo C K tokenAddress t
  = (Normal
       match V2.schedules K tokenAddress beneficiary t1 with
       | Throw m =>
           queryFailure tokenAddress beneficiary
             (V2.VESTING_MANAGER_ADDRESS C) m
       | Normal s =>
           if V2.totalAmount s =? 0 then
             Failure msg_ScheduleNotFound
               [("tokenAddress", tokenAddress); ("beneficiary", beneficiary);
                ("vestingManagerAddress", V2.VESTING_MANAGER_ADDRESS C)]
           else
             let '(name, symbol, d) := V2_metadata C tokenAddress t in
             match fst (V2.describe C tokenAddress beneficiary name symbol d
                          s t2) with
             | Normal r => r
             | Throw m =>
                 queryFailure tokenAddress beneficiary
                   (V2.VESTING_MANAGER_ADDRESS C) m
             end
       end, t2).
Proof.
  intros [Hw1 Hw2] [Ht1 Ht2]. cbn zeta. unfold reads.
  unfold V2.getVestingInfo. rewrite Hw1, Hw2, Ht1, Ht2. cbn [negb orb].
  unfold try_catch at 1.
  rewrite (bind_trace _ _ _ _ _ (V2_readToken_eq _ _ _)).
  destruct (V2_metadata C tokenAddress t) as [[n y] d].
  unfold bind at 1. unfold call at 1. rewrite app_two.
  destruct (V2.schedules K tokenAddress _ _) as [s | m];
    [| apply getVestingInfo_catch_eq].
  destruct (V2.totalAmount s =? 0); [reflexivity |].
  pose proof (V2_describe_silent C tokenAddress
                (wa_address (getWalletAddress C)) n y d s
                (t ++ [CallTokenInfo tokenAddress;
                       CallSchedule (wa_address (getWalletAddress C))
                                    tokenAddress])%list) as Hsilent.
  destruct (V2.describe C tokenAddress _ n y d s _) as [[r | m] t'];
    cbn in Hsilent; subst t'; cbn [fst].
  - reflexivity.
  - apply getVestingInfo_catch_eq.
Qed.

Lemma getVestingInfo_success_checks :
  forall C tokenAddress,
    (negb (wa_success (getWalletAddress C))
     || falsy (wa_address (getWalletAddress C)) = false ->
     walletResolved C)
    /\ (falsy tokenAddress || negb (isAddress C tokenAddress) = false ->
        validToken C tokenAddress).
Proof.
  intros C tokenAddress. unfold walletResolved, validToken. split.
  - destruct (wa_success (getWalletAddress C)); [| discriminate].
    destruct (falsy (wa_address (getWalletAddress C))); [discriminate |].
    split; reflexivity.
  - destruct (falsy tokenAddress); [discriminate |].
    destruct (isAddress C tokenAddress); [| discriminate].
    split; reflexivity.
Qed.

Lemma V2_success_checks C K tokenAddress t p t' :
  V2.getVestingInfo C K tokenAddress t = (Normal (Success p), t') ->
  walletResolved C /\ validToken C tokenAddress.
Proof.
  intros H. unfold V2.getVestingInfo in H.
  destruct (getVestingInfo_success_checks C tokenAddress) as [Hw Ht].
  destruct (negb (wa_success (getWalletAddress C))
            || falsy (wa_address (getWalletAddress C)));
    [discriminate H |].
  destruct (falsy tokenAddress || negb (isAddress C tokenAddress));
    [discriminate H |].
  split; [apply Hw | apply Ht]; reflexivity.
Qed.

(** X7.  The second revision's [getVestingInfo] succeeds exactly when the
    wallet resolves, the token address is valid, the schedule read answers
    with a schedule whose total is not zero, the value it holds for
    [decimals] is a Number (the metadata read failed, or answered with a
    Number) and both [startTime] and [startTime + duration] can be printed
    as dates.  With a BigInt for [decimals] it never succeeds. *)
Theorem V2_getVestingInfo_succeeds_iff C K tokenAddress t :
  (exists p t', V2.getVestingInfo C K tokenAddress t = (Normal (Success p), t'))
  <-> (walletResolved C /\ validToken C tokenAddress
       /\ (exists z, snd (V2_metadata C tokenAddress t) = NumberV z)
       /\ exists s,
            V2.schedules K tokenAddress (wa_address (getWalletAddress C))
              (t ++ [CallTokenInfo tokenAddress])%list = Normal s
            /\ V2.totalAmount s <> 0
            /\ printableTime (V2.startTime s)
            /\ printableTime (V2.startTime s + V2.duration s)).
Proof.
  split.
  - intros [p [t' H]].
    destruct (V2_success_checks _ _ _ _ _ _ H) as [Hw Ht].
    split; [exact Hw |]. split; [exact Ht |].
    rewrite (V2_getVestingInfo_eq C K tokenAddress t Hw Ht) in H.
    cbn zeta in H.
    destruct (V2.schedules K tokenAddress _ _) as [s | m].
    2: { unfold queryFailure in H. destruct (isRevert m); discriminate H. }
    destruct (Z.eqb_spec (V2.totalAmount s) 0) as [| Hnz]; [discriminate H |].
    destruct (V2_metadata C tokenAddress t) as [[n y] d]. cbn [snd].
    destruct (V2_describe_result C tokenAddress
                (wa_address (getWalletAddress C)) n y d s
                (t ++ reads tokenAddress (wa_address (getWalletAddress C)))%list)
      as [v [_ [[Hd [Hs [He _]]] | [[_ Hthrow] | [_ [_ Hthrow]]]]]].
    + split; [exact Hd |]. exists s. tauto.
    + rewrite Hthrow in H. cbn [fst] in H. unfold queryFailure in H.
      rewrite isRevert_TypeError in H. discriminate H.
    + rewrite Hthrow in H. cbn [fst] in H. unfold queryFailure in H.
      rewrite isRevert_RangeError in H. discriminate H.
  - intros [Hw [Ht [[z Hz] [s [Hfetch [Hnz [Hs He]]]]]]].
    rewrite (V2_getVestingInfo_eq C K tokenAddress t Hw Ht). cbn zeta.
    rewrite Hfetch.
    destruct (Z.eqb_spec (V2.totalAmount s) 0) as [| _]; [contradiction |].
    destruct (V2_metadata C tokenAddress t) as [[n y] d]. cbn [snd] in Hz.
    destruct (V2_describe_result C tokenAddress
                (wa_address (getWalletAddress C)) n y d s
                (t ++ reads tokenAddress (wa_address (getWalletAddress C)))%list)
      as [v [_ [[_ [_ [_ [p [Hp _]]]]] | [[[z' Hb] _] | [_ [Hno _]]]]]].
    + rewrite Hp. cbn. eauto.
    + congruence.
    + tauto.
Qed.

(** X8.  An existing schedule (total not zero) that cannot be reported:
    in the first revision, when an end of its window cannot be printed as
    a date, the query fails with "Failed to get vesting info: Invalid time
    value"; in the second revision, when the token contract answered
    [decimals] with a BigInt, the query fails with "Failed to get vesting
    info: Cannot convert a BigInt value to a number", whatever the
    schedule is. *)
Theorem getVestingInfo_existing_schedule_not_reported C tokenAddress t
    (Hwallet : walletResolved C) (Htoken : validToken C tokenAddress) :
  let beneficiary := wa_address (getWalletAddress C) in
  let asked := (t ++ [CallTokenInfo tokenAddress])%list in
  let trace := (t ++ reads tokenAddress beneficiary)%list in
  (forall K s,
     V1.getSchedule K beneficiary tokenAddress asked = Normal s ->
     V1.totalAmount s <> 0 ->
     ~ (printableTime (V1.startTime s) /\ printableTime (V1.endTime s)) ->
     V1.getVestingInfo C K tokenAddress t
     = (Normal (Failure "Failed to get vesting info: Invalid time value" []),
        trace))
  /\ (forall K s name symbol z,
        tokenInfo C tokenAddress t = Normal (name, symbol, BigIntV z) ->
        V2.schedules K tokenAddress beneficiary asked = Normal s ->
        V2.totalAmount s <> 0 ->
        V2.getVestingInfo C K tokenAddress t
        = (Normal (Failure
                     "Failed to get vesting info: Cannot convert a BigInt value to a number"
                     []),
           trace)).
Proof.
  cbn zeta. split.
  - intros K s Hfetch Hnz Hno.
    rewrite (V1_getVestingInfo_eq C K tokenAddress t Hwallet Htoken).
    cbn zeta. rewrite Hfetch.
    destruct (Z.eqb_spec (V1.totalAmount s) 0) as [| _]; [contradiction |].
    destruct (V1_metadata C tokenAddress t) as [[n y] d].
    destruct (V1_describe_result C tokenAddress
                (wa_address (getWalletAddress C)) n y d s
                (t ++ reads tokenAddress (wa_address (getWalletAddress C)))%list)
      as [v [_ [[Hs [He _]] | [_ Hthrow]]]]; [tauto |].
    rewrite Hthrow. cbn [fst]. unfold queryFailure.
    now rewrite isRevert_RangeError.
  - intros K s name symbol z Hmeta Hfetch Hnz.
    rewrite (V2_getVestingInfo_eq C K tokenAddress t Hwallet Htoken).
    cbn zeta. rewrite Hfetch.
    destruct (Z.eqb_spec (V2.totalAmount s) 0) as [| _]; [contradiction |].
    unfold V2_metadata. rewrite Hmeta.
    destruct (V2_describe_result C tokenAddress
                (wa_address (getWalletAddress C)) name symbol (BigIntV z) s
                (t ++ reads tokenAddress (wa_address (getWalletAddress C)))%list)
      as [v [_ [[[z' Hd] _] | [[_ Hthrow] | [[z' Hd] _]]]]];
      try discriminate Hd.
    rewrite Hthrow. cbn [fst]. unfold queryFailure.
    now rewrite isRevert_TypeError.
Qed.

Lemma getVestingInfo_existing_schedule_not_reported_witness :
  walletResolved Sample.world /\ validToken Sample.world "0xToken"
  /\ V2.getVestingInfo Sample.world Sample.manager2 "0xToken" []
     = (Normal (Failure
                  "Failed to get vesting info: Cannot convert a BigInt value to a number"
                  []),
        reads "0xToken" "0xAlice").
Proof.
  assert (Hw : walletResolved Sample.world) by (split; reflexivity).
  assert (Ht : validToken Sample.world "0xToken") by (split; reflexivity).
  split; [exact Hw |]. split; [exact Ht |].
  apply (proj2 (getVestingInfo_existing_schedule_not_reported
                  Sample.world "0xToken" [] Hw Ht)
           Sample.manager2
           {| V2.totalAmount := 1000; V2.releasedAmount := 0;
              V2.startTime := 1700000000; V2.duration := 1000 |}
           "Vibe" "VIBE" 18); [reflexivity | reflexivity | discriminate].
Defined.

(* ===================================================================== *)
(** ** The outcome of a claim *)
(* ===================================================================== *)

Lemma app_three {A} (t : list A) (a b c : A) :
  ((t ++ [a; b]) ++ [c] = t ++ [a; b; c])%list.
Proof. now rewrite <- app_assoc. Qed.

(** The three calls of the submission, one after the other: each
    rejection stops the sequence where it happens. *)
Lemma V1_submitClaim_result C K address tokenAddress name symbol d amount t :
  match V1.release K address tokenAddress t with
  | Throw m =>
      V1.submitClaim C K address tokenAddress name symbol d amount t
      = (Throw m, (t ++ [CallRelease address tokenAddress])%list)
  | Normal tx =>
      match wait tx (t ++ [CallRelease address tokenAddress])%list with
      | Throw m =>
          V1.submitClaim C K address tokenAddress name symbol d amount t
          = (Throw m, (t ++ [CallRelease address tokenAddress; CallWait])%list)
      | Normal receipt =>
          match balanceOf C tokenAddress address
                  (t ++ [CallRelease address tokenAddress; CallWait])%list with
          | Throw m =>
              V1.submitClaim C K address tokenAddress name symbol d amount t
              = (Throw m,
                 (t ++ [CallRelease address tokenAddress; CallWait;
                        CallBalanceOf tokenAddress address])%list)
          | Normal balance =>
              exists p,
                V1.submitClaim C K address tokenAddress name symbol d amount t
                = (Normal (Success p),
                   (t ++ [CallRelease address tokenAddress; CallWait;
                          CallBalanceOf tokenAddress address])%list)
                /\ cl_token_address p = tokenAddress
                /\ cl_token_name p = name
                /\ cl_token_symbol p = symbol
                /\ cl_rawAmount p = toString amount
                /\ cl_hash p = hash receipt
                /\ cl_blockNumber p = blockNumber receipt
                /\ cl_message p
                   = ("Successfully claimed " ++ cl_amount p ++ " " ++ symbol
                        ++ "!")%string
          end
      end
  end.
Proof.
  unfold V1.submitClaim, bind, call, lift, ret.
  destruct (V1.release K address tokenAddress t) as [tx | m]; [| reflexivity].
  destruct (wait tx _) as [receipt | m]; [| now rewrite app_two].
  rewrite app_two.
  destruct (balanceOf C tokenAddress address _) as [balance | m];
    [| now rewrite app_three].
  destruct (V1_formatAmount_claim_total C d amount) as [f1 ->].
  destruct (V1_formatAmount_claim_total C d balance) as [f2 ->].
  rewrite app_three. eexists. split; [reflexivity |]. repeat split.
Qed.

Lemma V2_submitClaim_result C K address tokenAddress name symbol decimals
    amount t :
  match V2.release K tokenAddress t with
  | Throw m =>
      V2.submitClaim C K address tokenAddress name symbol decimals amount t
      = (Throw m, (t ++ [CallRelease address tokenAddress])%list)
  | Normal tx =>
      match wait tx (t ++ [CallRelease address tokenAddress])%list with
      | Throw m =>
          V2.submitClaim C K address tokenAddress name symbol decimals amount t
          = (Throw m, (t ++ [CallRelease address tokenAddress; CallWait])%list)
      | Normal receipt =>
          match balanceOf C tokenAddress address
                  (t ++ [CallRelease address tokenAddress; CallWait])%list with
          | Throw m =>
              V2.submitClaim C K address tokenAddress name symbol decimals
                             amount t
              = (Throw m,
                 (t ++ [CallRelease address tokenAddress; CallWait;
                        CallBalanceOf tokenAddress address])%list)
          | Normal balance =>
              match decimals with
              | BigIntV _ =>
                  V2.submitClaim C K address tokenAddress name symbol decimals
                                 amount t
                  = (Throw "Cannot convert a BigInt value to a number",
                     (t ++ [CallRelease address tokenAddress; CallWait;
                            CallBalanceOf tokenAddress address])%list)
              | NumberV _ =>
                  exists p,
                    V2.submitClaim C K address tokenAddress name symbol
                                   decimals amount t
                    = (Normal (Success p),
                       (t ++ [CallRelease address tokenAddress; CallWait;
                              CallBalanceOf tokenAddress address])%list)
                    /\ cl_token_address p = tokenAddress
                    /\ cl_token_name p = name
                    /\ cl_token_symbol p = symbol
                    /\ cl_rawAmount p = toString amount
                    /\ cl_hash p = hash receipt
                    /\ cl_blockNumber p = blockNumber receipt
                    /\ cl_message p
                       = ("Successfully claimed " ++ cl_amount p ++ " "
                            ++ symbol ++ "!")%string
              end
          end
      end
  end.
Proof.
  unfold V2.submitClaim, bind, call, lift, ret.
  destruct (V2.release K tokenAddress t) as [tx | m]; [| reflexivity].
  destruct (wait tx _) as [receipt | m]; [| now rewrite app_two].
  rewrite app_two.
  destruct (balanceOf C tokenAddress address _) as [balance | m];
    [| now rewrite app_three].
  rewrite app_three.
  destruct decimals as [z | z]; cbn.
  - reflexivity.
  - eexists. split; [reflexivity |]. repeat split.
Qed.

(** The same, started after the two reads. *)
Lemma V1_submitClaim_flat C K address tokenAddress name symbol d amount t :
  match V1.release K address tokenAddress (t ++ reads tokenAddress address)%list with
  | Throw m =>
      V1.submitClaim C K address tokenAddress name symbol d amount
        (t ++ reads tokenAddress address)%list
      = (Throw m, (t ++ firstn 3 (claimCalls tokenAddress address))%list)
  | Normal tx =>
      match wait tx (t ++ firstn 3 (claimCalls tokenAddress address))%list with
      | Throw m =>
          V1.submitClaim C K address tokenAddress name symbol d amount
        (t ++ reads tokenAddress address)%list
          = (Throw m, (t ++ firstn 4 (claimCalls tokenAddress address))%list)
      | Normal receipt =>
          match balanceOf C tokenAddress address (t ++ firstn 4 (claimCalls tokenAddress address))%list with
          | Throw m =>
              V1.submitClaim C K address tokenAddress name symbol d amount
        (t ++ reads tokenAddress address)%list
              = (Throw m, (t ++ claimCalls tokenAddress address)%list)
          | Normal balance =>
              exists p,
                V1.submitClaim C K address tokenAddress name symbol d amount
        (t ++ reads tokenAddress address)%list
                = (Normal (Success p), (t ++ claimCalls tokenAddress address)%list)
                /\ cl_token_address p = tokenAddress
                /\ cl_token_name p = name
                /\ cl_token_symbol p = symbol
                /\ cl_rawAmount p = toString amount
                /\ cl_hash p = hash receipt
                /\ cl_blockNumber p = blockNumber receipt
                /\ cl_message p
                   = ("Successfully claimed " ++ cl_amount p ++ " " ++ symbol
                        ++ "!")%string
          end
      end
  end.
Proof.
  pose proof (V1_submitClaim_result C K address tokenAddress name symbol d
                amount (t ++ reads tokenAddress address)%list) as H.
  unfold reads in *. rewrite <- ?app_assoc in H. exact H.
Qed.

(** The same, started after the two reads. *)
Lemma V2_submitClaim_flat C K address tokenAddress name symbol decimals amount t :
  match V2.release K tokenAddress (t ++ reads tokenAddress address)%list with
  | Throw m =>
      V2.submitClaim C K address tokenAddress name symbol decimals amount
        (t ++ reads tokenAddress address)%list
      = (Throw m, (t ++ firstn 3 (claimCalls tokenAddress address))%list)
  | Normal tx =>
      match wait tx (t ++ firstn 3 (claimCalls tokenAddress address))%list with
      | Throw m =>
          V2.submitClaim C K address tokenAddress name symbol decimals amount
        (t ++ reads tokenAddress address)%list
          = (Throw m, (t ++ firstn 4 (claimCalls tokenAddress address))%list)
      | Normal receipt =>
          match balanceOf C tokenAddress address (t ++ firstn 4 (claimCalls tokenAddress address))%list with
          | Throw m =>
              V2.submitClaim C K address tokenAddress name symbol decimals amount
        (t ++ reads tokenAddress address)%list
              = (Throw m, (t ++ claimCalls tokenAddress address)%list)
          | Normal balance =>
              match decimals with
              | BigIntV _ =>
                  V2.submitClaim C K address tokenAddress name symbol decimals amount
        (t ++ reads tokenAddress address)%list
                  = (Throw "Cannot convert a BigInt value to a number",
                     (t ++ claimCalls tokenAddress address)%list)
              | NumberV _ =>
              exists p,
                V2.submitClaim C K address tokenAddress name symbol decimals amount
        (t ++ reads tokenAddress address)%list
                = (Normal (Success p), (t ++ claimCalls tokenAddress address)%list)
                /\ cl_token_address p = tokenAddress
                /\ cl_token_name p = name
                /\ cl_token_symbol p = symbol
                /\ cl_rawAmount p = toString amount
                /\ cl_hash p = hash receipt
                /\ cl_blockNumber p = blockNumber receipt
                /\ cl_message p
                   = ("Successfully claimed " ++ cl_amount p ++ " " ++ symbol
                        ++ "!")%string
              end
          end
      end
  end.
Proof.
  pose proof (V2_submitClaim_result C K address tokenAddress name symbol decimals
                amount (t ++ reads tokenAddress address)%list) as H.
  unfold reads in *. rewrite <- ?app_assoc in H. exact H.
Qed.

(** Once ready, a claim is the guarded submission started after the two
    reads. *)
Lemma V1_claimVestedTokens_ready C K password tokenAddress address s t :
  V1_claimReady C K password tokenAddress address s t ->
  V1.claimVestedTokens C K password tokenAddress t
  = let '(name, symbol, d) := V1_metadata C tokenAddress t in
    try_catch
      (V1.submitClaim C K address tokenAddress name symbol d (V1.releasable s))
      (claimVestedTokens_catch tokenAddress)
      (t ++ reads tokenAddress address)%list.
Proof.
  intros [Hw [[Ht1 Ht2] [Hu [Hfetch [Hnz Hpos]]]]].
  unfold V1.claimVestedTokens. rewrite Hw, Ht1, Ht2, Hu. cbn [negb orb].
  unfold try_catch at 1.
  rewrite (bind_trace _ _ _ _ _ (V1_readToken_eq _ _ _)).
  destruct (V1_metadata C tokenAddress t) as [[n y] d].
  rewrite (bind_trace _ _ _ _ _ (V1_fetchSchedule_run _ _ _ _ _)).
  rewrite Hfetch, app_two.
  destruct (Z.eqb_spec (V1.totalAmount s) 0) as [| _]; [contradiction |].
  destruct (Z.leb_spec (V1.releasable s) 0) as [| _]; [lia |].
  reflexivity.
Qed.

Lemma V2_claimVestedTokens_ready C K password tokenAddress address s amount t :
  V2_claimReady C K password tokenAddress address s amount t ->
  V2.claimVestedTokens C K password tokenAddress t
  = let '(name, symbol, d) := V2_metadata C tokenAddress t in
    try_catch
      (V2.submitClaim C K address tokenAddress name symbol d amount)
      (claimVestedTokens_catch tokenAddress)
      (t ++ reads tokenAddress address)%list.
Proof.
  intros [Hw [[Ht1 Ht2] [Hu [Hfetch [Hnz [Hamount Hpos]]]]]].
  unfold V2.claimVestedTokens. rewrite Hw, Ht1, Ht2, Hu. cbn [negb orb].
  unfold try_catch at 1.
  rewrite (bind_trace _ _ _ _ _ (V2_readToken_eq _ _ _)).
  destruct (V2_metadata C tokenAddress t) as [[n y] d].
  unfold bind at 1. unfold call at 1. rewrite Hfetch, app_two.
  destruct (Z.eqb_spec (V2.totalAmount s) 0) as [| _]; [contradiction |].
  unfold reads in Hamount.
  unfold bind at 1. unfold lift at 1. rewrite Hamount.
  destruct (Z.leb_spec amount 0) as [| _]; [lia |].
  reflexivity.
Qed.

(** X9.  A first-revision claim that is ready to submit and then fails.
    If the release is rejected, the result is the failure the message
    selects, and the release is the last call made.  If the release is
    accepted and the confirmation or the balance re-read is rejected, the
    result is again a failure selected by the message, although the
    release was submitted (and, in the last case, confirmed).  The
    message selects: "Invalid password" when it contains "Unsupported
    state" or "auth", else "Transaction reverted..." when it names a
    revert, else "Claim failed: " followed by the message. *)
Theorem V1_claim_fails_after_submission C K password tokenAddress address s t
    (Hready : V1_claimReady C K password tokenAddress address s t) :
  let calls := claimCalls tokenAddress address in
  let t2 := (t ++ reads tokenAddress address)%list in
  let t3 := (t ++ firstn 3 calls)%list in
  let t4 := (t ++ firstn 4 calls)%list in
  (forall m,
     V1.release K address tokenAddress t2 = Throw m ->
     V1.claimVestedTokens C K password tokenAddress t
     = (Normal (claimFailure tokenAddress m), t3))
  /\ (forall tx m,
        V1.release K address tokenAddress t2 = Normal tx ->
        wait tx t3 = Throw m ->
        V1.claimVestedTokens C K password tokenAddress t
        = (Normal (claimFailure tokenAddress m), t4))
  /\ (forall tx receipt m,
        V1.release K address tokenAddress t2 = Normal tx ->
        wait tx t3 = Normal receipt ->
        balanceOf C tokenAddress address t4 = Throw m ->
        V1.claimVestedTokens C K password tokenAddress t
        = (Normal (claimFailure tokenAddress m), (t ++ calls)%list)).
Proof.
  cbn zeta. rewrite (V1_claimVestedTokens_ready _ _ _ _ _ _ _ Hready).
  destruct (V1_metadata C tokenAddress t) as [[n y] d].
  pose proof (V1_submitClaim_flat C K address tokenAddress n y d
                (V1.releasable s) t) as H.
  unfold try_catch.
  split; [| split].
  - intros m Hrel. rewrite Hrel in H. rewrite H.
    apply claimVestedTokens_catch_eq.
  - intros tx m Hrel Hwait. rewrite Hrel in H. cbn beta iota in H.
    rewrite Hwait in H. rewrite H. apply claimVestedTokens_catch_eq.
  - intros tx receipt m Hrel Hwait Hbal. rewrite Hrel in H.
    cbn beta iota in H. rewrite Hwait in H. cbn beta iota in H.
    rewrite Hbal in H. rewrite H. apply claimVestedTokens_catch_eq.
Qed.

Lemma V1_claim_fails_after_submission_witness :
  V1_claimReady Sample.world Scenario.managerReverting1 "hunter2" "0xToken"
    "0xAlice" Scenario.halfWay1 []
  /\ V1.claimVestedTokens Sample.world Scenario.managerReverting1 "hunter2"
       "0xToken" []
     = (Normal (claimFailure "0xToken" "execution reverted: unauthorized"),
        firstn 3 (claimCalls "0xToken" "0xAlice"))
  /\ claimFailure "0xToken" "execution reverted: unauthorized"
     = Failure msg_InvalidPassword [].
Proof.
  assert (Hready : V1_claimReady Sample.world Scenario.managerReverting1
                     "hunter2" "0xToken" "0xAlice" Scenario.halfWay1 []).
  { repeat split; try reflexivity. discriminate. }
  split; [exact Hready |]. split; [| reflexivity].
  apply (proj1 (V1_claim_fails_after_submission _ _ _ _ _ _ _ Hready)).
  reflexivity.
Defined.

(** A claim of the first revision can only succeed from the ready
    state. *)
Lemma V1_claim_success_ready C K password tokenAddress t p t' :
  V1.claimVestedTokens C K password tokenAddress t = (Normal (Success p), t') ->
  exists address s, V1_claimReady C K password tokenAddress address s t.
Proof.
  intros H. unfold V1.claimVestedTokens in H.
  destruct (hasWallet C) eqn:Hw; [| discriminate H]. cbn [negb] in H.
  destruct (getVestingInfo_success_checks C tokenAddress) as [_ Hvalid].
  destruct (falsy tokenAddress || negb (isAddress C tokenAddress)) eqn:Ht;
    [discriminate H |].
  destruct (getDecryptedWallet C password) as [e ctx | address] eqn:Hu;
    [discriminate H |].
  exists address.
  unfold try_catch at 1 in H.
  rewrite (bind_trace _ _ _ _ _ (V1_readToken_eq _ _ _)) in H.
  destruct (V1_metadata C tokenAddress t) as [[n y] d].
  rewrite (bind_trace _ _ _ _ _ (V1_fetchSchedule_run _ _ _ _ _)) in H.
  destruct (V1.getSchedule K address tokenAddress _) as [s | m] eqn:Hfetch;
    [| discriminate H].
  exists s.
  destruct (Z.eqb_spec (V1.totalAmount s) 0) as [| Hnz]; [discriminate H |].
  destruct (Z.leb_spec (V1.releasable s) 0) as [| Hpos]; [discriminate H |].
  unfold V1_claimReady. repeat split; auto; apply Hvalid; reflexivity.
Qed.

Lemma claimFailure_is_failure tokenAddress m :
  success (claimFailure tokenAddress m) = false.
Proof.
  unfold claimFailure. destruct (_ || _); [reflexivity |].
  destruct (isRevert m); reflexivity.
Qed.

(** A submission that threw cannot be behind a successful result. *)
Ltac claim_failed H Hsub :=
  rewrite Hsub, claimVestedTokens_catch_eq in H;
  injection H as H _;
  match type of H with
  | claimFailure ?a ?m = _ =>
      pose proof (claimFailure_is_failure a m) as Hfail;
      rewrite H in Hfail; discriminate Hfail
  end.

(** X10.  A claim of the first revision succeeds exactly when it is
    ready to submit (wallet, valid address, unlocking password, existing
    schedule, positive releasable amount) and the release, its
    confirmation and the balance re-read all answer. *)
Theorem V1_claim_succeeds_iff C K password tokenAddress t :
  (exists p t',
     V1.claimVestedTokens C K password tokenAddress t = (Normal (Success p), t'))
  <-> (exists address s tx receipt balance,
         V1_claimReady C K password tokenAddress address s t
         /\ V1.release K address tokenAddress
              (t ++ reads tokenAddress address)%list = Normal tx
         /\ wait tx (t ++ firstn 3 (claimCalls tokenAddress address))%list
            = Normal receipt
         /\ balanceOf C tokenAddress address
              (t ++ firstn 4 (claimCalls tokenAddress address))%list
            = Normal balance).
Proof.
  split.
  - intros [p [t' H]].
    destruct (V1_claim_success_ready _ _ _ _ _ _ _ H) as [address [s Hready]].
    exists address, s.
    rewrite (V1_claimVestedTokens_ready _ _ _ _ _ _ _ Hready) in H.
    destruct (V1_metadata C tokenAddress t) as [[n y] d].
    pose proof (V1_submitClaim_flat C K address tokenAddress n y d
                  (V1.releasable s) t) as Hsub.
    unfold try_catch in H.
    destruct (V1.release K address tokenAddress
                (t ++ reads tokenAddress address)%list) as [tx | m] eqn:Hrel;
      cbn beta iota in Hsub; [| claim_failed H Hsub].
    destruct (wait tx (t ++ firstn 3 (claimCalls tokenAddress address))%list)
      as [receipt | m] eqn:Hwait;
      cbn beta iota in Hsub; [| claim_failed H Hsub].
    destruct (balanceOf C tokenAddress address
                (t ++ firstn 4 (claimCalls tokenAddress address))%list)
      as [balance | m] eqn:Hbal;
      cbn beta iota in Hsub; [| claim_failed H Hsub].
    exists tx, receipt, balance. split; [exact Hready | repeat split; assumption].
  - intros [address [s [tx [receipt [balance [Hready [Hrel [Hwait Hbal]]]]]]]].
    rewrite (V1_claimVestedTokens_ready _ _ _ _ _ _ _ Hready).
    destruct (V1_metadata C tokenAddress t) as [[n y] d].
    pose proof (V1_submitClaim_flat C K address tokenAddress n y d
                  (V1.releasable s) t) as Hsub.
    rewrite Hrel in Hsub. cbn beta iota in Hsub.
    rewrite Hwait in Hsub. cbn beta iota in Hsub.
    rewrite Hbal in Hsub. destruct Hsub as [p [Hp _]].
    unfold try_catch. rewrite Hp. eauto.
Qed.

(** X11.  A successful claim of the first revision made exactly the five
    calls -- metadata, schedule, release, confirmation, balance -- in that
    order, so exactly one release was submitted; the amount it reports in
    [rawAmount] is, digit for digit, the positive releasable amount the
    contract returned before the release, and the hash and the block
    number are those of the receipt. *)
Theorem V1_claim_success_is_exact C K password tokenAddress t p t'
    (Hsuccess : V1.claimVestedTokens C K password tokenAddress t
                = (Normal (Success p), t')) :
  exists address s tx receipt,
    V1_claimReady C K password tokenAddress address s t
    /\ t' = (t ++ claimCalls tokenAddress address)%list
    /\ submitted t' = (submitted t ++ [CallRelease address tokenAddress])%list
    /\ V1.release K address tokenAddress
         (t ++ reads tokenAddress address)%list = Normal tx
    /\ wait tx (t ++ firstn 3 (claimCalls tokenAddress address))%list
       = Normal receipt
    /\ cl_token_address p = tokenAddress
    /\ readAmount (cl_rawAmount p) = Some (V1.releasable s)
    /\ 0 < V1.releasable s
    /\ cl_hash p = hash receipt
    /\ cl_blockNumber p = blockNumber receipt.
Proof.
  destruct (V1_claim_success_ready _ _ _ _ _ _ _ Hsuccess)
    as [address [s Hready]].
  exists address, s.
  rewrite (V1_claimVestedTokens_ready _ _ _ _ _ _ _ Hready) in Hsuccess.
  destruct (V1_metadata C tokenAddress t) as [[n y] d].
  pose proof (V1_submitClaim_flat C K address tokenAddress n y d
                (V1.releasable s) t) as Hsub.
  unfold try_catch in Hsuccess.
  destruct (V1.release K address tokenAddress
              (t ++ reads tokenAddress address)%list) as [tx | m] eqn:Hrel;
    cbn beta iota in Hsub; [| claim_failed Hsuccess Hsub].
  destruct (wait tx (t ++ firstn 3 (claimCalls tokenAddress address))%list)
    as [receipt | m] eqn:Hwait;
    cbn beta iota in Hsub; [| claim_failed Hsuccess Hsub].
  destruct (balanceOf C tokenAddress address
              (t ++ firstn 4 (claimCalls tokenAddress address))%list)
    as [balance | m] eqn:Hbal;
    cbn beta iota in Hsub; [| claim_failed Hsuccess Hsub].
  destruct Hsub as [q [Hq [F1 [F2 [F3 [F4 [F5 [F6 F7]]]]]]]].
  rewrite Hq in Hsuccess. injection Hsuccess as <- <-.
  exists tx, receipt.
  split; [exact Hready |]. split; [reflexivity |].
  split; [rewrite submitted_app; reflexivity |].
  split; [first [reflexivity | exact Hrel] |].
  split; [first [reflexivity | exact Hwait] |].
  split; [exact F1 |].
  split; [rewrite F4; apply readAmount_toString |].
  split; [apply Hready |]. split; assumption.
Qed.

Lemma V1_claim_success_is_exact_witness :
  exists p t',
    V1.claimVestedTokens Sample.world Sample.manager1 "hunter2" "0xToken" []
    = (Normal (Success p), t')
    /\ t' = claimCalls "0xToken" "0xAlice"
    /\ readAmount (cl_rawAmount p) = Some 500.
Proof.
  eexists. eexists. split; [vm_compute; reflexivity |].
  destruct (V1_claim_success_is_exact
              Sample.world Sample.manager1 "hunter2" "0xToken" [] _ _ eq_refl)
    as [address [s [tx [receipt [_ [Htrace _]]]]]].
  split; [| vm_compute; reflexivity].
  vm_compute. reflexivity.
Defined.

(** A claim of the second revision can only succeed from the ready
    state. *)
Lemma V2_claim_success_ready C K password tokenAddress t p t' :
  V2.claimVestedTokens C K password tokenAddress t = (Normal (Success p), t') ->
  exists address s amount,
    V2_claimReady C K password tokenAddress address s amount t.
Proof.
  intros H. unfold V2.claimVestedTokens in H.
  destruct (hasWallet C) eqn:Hw; [| discriminate H]. cbn [negb] in H.
  destruct (getVestingInfo_success_checks C tokenAddress) as [_ Hvalid].
  destruct (falsy tokenAddress || negb (isAddress C tokenAddress)) eqn:Ht;
    [discriminate H |].
  destruct (getDecryptedWallet C password) as [e ctx | address] eqn:Hu;
    [discriminate H |].
  exists address.
  unfold try_catch at 1 in H.
  rewrite (bind_trace _ _ _ _ _ (V2_readToken_eq _ _ _)) in H.
  destruct (V2_metadata C tokenAddress t) as [[n y] d].
  unfold bind at 1 in H. unfold call at 1 in H. rewrite app_two in H.
  destruct (V2.schedules K tokenAddress address _) as [s | m] eqn:Hfetch.
  2: { rewrite claimVestedTokens_catch_eq in H. injection H as H _.
       pose proof (claimFailure_is_failure tokenAddress m) as Hfail.
       rewrite H in Hfail. discriminate Hfail. }
  exists s.
  destruct (Z.eqb_spec (V2.totalAmount s) 0) as [| Hnz]; [discriminate H |].
  unfold bind at 1 in H. unfold lift at 1 in H.
  destruct (V2.releasable s _) as [amount | m] eqn:Hamount.
  2: { rewrite claimVestedTokens_catch_eq in H. injection H as H _.
       pose proof (claimFailure_is_failure tokenAddress m) as Hfail.
       rewrite H in Hfail. discriminate Hfail. }
  exists amount.
  destruct (Z.leb_spec amount 0) as [| Hpos]; [discriminate H |].
  unfold V2_claimReady, reads. repeat split; auto; apply Hvalid; reflexivity.
Qed.

Lemma claimFailure_TypeError tokenAddress :
  claimFailure tokenAddress "Cannot convert a BigInt value to a number"
  = Failure "Claim failed: Cannot convert a BigInt value to a number" [].
Proof. vm_compute. reflexivity. Qed.

(** X12.  In the second revision, when the token contract answers
    [decimals] with a BigInt, a ready claim whose release, confirmation
    and balance re-read all answer still resolves to the failure "Claim
    failed: Cannot convert a BigInt value to a number": the amounts are
    formatted only after the three calls, so the release has been
    submitted and confirmed when the failure is reported. *)
Theorem V2_claim_reported_failed_after_release C K password tokenAddress
    address s amount t name symbol z tx receipt balance
    (Hready : V2_claimReady C K password tokenAddress address s amount t)
    (Hmeta : tokenInfo C tokenAddress t = Normal (name, symbol, BigIntV z))
    (Hrelease : V2.release K tokenAddress
                  (t ++ reads tokenAddress address)%list = Normal tx)
    (Hwait : wait tx (t ++ firstn 3 (claimCalls tokenAddress address))%list
             = Normal receipt)
    (Hbalance : balanceOf C tokenAddress address
                  (t ++ firstn 4 (claimCalls tokenAddress address))%list
                = Normal balance) :
  V2.claimVestedTokens C K password tokenAddress t
  = (Normal (Failure "Claim failed: Cannot convert a BigInt value to a number"
               []),
     (t ++ claimCalls tokenAddress address)%list)
  /\ submitted (t ++ claimCalls tokenAddress address)%list
     = (submitted t ++ [CallRelease address tokenAddress])%list.
Proof.
  split; [| rewrite submitted_app; reflexivity].
  rewrite (V2_claimVestedTokens_ready _ _ _ _ _ _ _ _ Hready).
  unfold V2_metadata. rewrite Hmeta.
  pose proof (V2_submitClaim_flat C K address tokenAddress name symbol
                (BigIntV z) amount t) as Hsub.
  rewrite Hrelease in Hsub. cbn beta iota in Hsub.
  rewrite Hwait in Hsub. cbn beta iota in Hsub.
  rewrite Hbalance in Hsub. cbn beta iota in Hsub.
  unfold try_catch. rewrite Hsub, claimVestedTokens_catch_eq.
  now rewrite claimFailure_TypeError.
Qed.

Lemma V2_claim_reported_failed_after_release_witness :
  V2_claimReady Sample.world Scenario.managerFine2 "hunter2" "0xToken"
    "0xAlice" Scenario.halfWay2 500 []
  /\ V2.claimVestedTokens Sample.world Scenario.managerFine2 "hunter2"
       "0xToken" []
     = (Normal (Failure
                  "Claim failed: Cannot convert a BigInt value to a number" []),
        claimCalls "0xToken" "0xAlice").
Proof.
  assert (Hready : V2_claimReady Sample.world Scenario.managerFine2
                     "hunter2" "0xToken" "0xAlice" Scenario.halfWay2 500 []).
  { repeat split; try reflexivity. discriminate. }
  split; [exact Hready |].
  apply (proj1 (V2_claim_reported_failed_after_release
                  Sample.world Scenario.managerFine2 "hunter2" "0xToken"
                  "0xAlice" Scenario.halfWay2 500 [] "Vibe" "VIBE" 18
                  Sample.sampleTx {| hash := "0xfeed"; blockNumber := 42 |} 250
                  Hready eq_refl eq_refl eq_refl eq_refl)).
Defined.

(** X13.  A claim of the second revision succeeds exactly when it is
    ready to submit, the value it holds for [decimals] is a Number, and
    the release, its confirmation and the balance re-read all answer. *)
Theorem V2_claim_succeeds_iff C K password tokenAddress t :
  (exists p t',
     V2.claimVestedTokens C K password tokenAddress t = (Normal (Success p), t'))
  <-> (exists address s amount tx receipt balance,
         V2_claimReady C K password tokenAddress address s amount t
         /\ (exists z, snd (V2_metadata C tokenAddress t) = NumberV z)
         /\ V2.release K tokenAddress
              (t ++ reads tokenAddress address)%list = Normal tx
         /\ wait tx (t ++ firstn 3 (claimCalls tokenAddress address))%list
            = Normal receipt
         /\ balanceOf C tokenAddress address
              (t ++ firstn 4 (claimCalls tokenAddress address))%list
            = Normal balance).
Proof.
  split.
  - intros [p [t' H]].
    destruct (V2_claim_success_ready _ _ _ _ _ _ _ H)
      as [address [s [amount Hready]]].
    exists address, s, amount.
    rewrite (V2_claimVestedTokens_ready _ _ _ _ _ _ _ _ Hready) in H.
    destruct (V2_metadata C tokenAddress t) as [[n y] d]. cbn [snd].
    pose proof (V2_submitClaim_flat C K address tokenAddress n y d amount t)
      as Hsub.
    unfold try_catch in H.
    destruct (V2.release K tokenAddress
                (t ++ reads tokenAddress address)%list) as [tx | m] eqn:Hrel;
      cbn beta iota in Hsub; [| claim_failed H Hsub].
    destruct (wait tx (t ++ firstn 3 (claimCalls tokenAddress address))%list)
      as [receipt | m] eqn:Hwait;
      cbn beta iota in Hsub; [| claim_failed H Hsub].
    destruct (balanceOf C tokenAddress address
                (t ++ firstn 4 (claimCalls tokenAddress address))%list)
      as [balance | m] eqn:Hbal;
      cbn beta iota in Hsub; [| claim_failed H Hsub].
    destruct d as [z | z]; [claim_failed H Hsub |].
    exists tx, receipt, balance.
    split; [exact Hready |]. split; [eauto |]. repeat split; assumption.
  - intros [address [s [amount [tx [receipt [balance
             [Hready [[z Hz] [Hrel [Hwait Hbal]]]]]]]]]].
    rewrite (V2_claimVestedTokens_ready _ _ _ _ _ _ _ _ Hready).
    destruct (V2_metadata C tokenAddress t) as [[n y] d]. cbn [snd] in Hz.
    subst d.
    pose proof (V2_submitClaim_flat C K address tokenAddress n y (NumberV z)
                  amount t) as Hsub.
    rewrite Hrel in Hsub. cbn beta iota in Hsub.
    rewrite Hwait in Hsub. cbn beta iota in Hsub.
    rewrite Hbal in Hsub. cbn beta iota in Hsub.
    destruct Hsub as [p [Hp _]].
    unfold try_catch. rewrite Hp. eauto.
Qed.

(* ===================================================================== *)
(** ** What a claim asks of the ledger *)
(* ===================================================================== *)

Ltac footprint n :=
  exists n; split;
  [cbn; tauto
  | cbn [firstn claimCalls snd]; rewrite ?app_nil_r; reflexivity].

(** Once the three checks have passed, the two reads are always made. *)
Lemma V1_claim_footprint_checked C K password tokenAddress address t :
  hasWallet C = true -> validToken C tokenAddress ->
  getDecryptedWallet C password = Unlocked address ->
  exists n : nat,
    In n [2; 3; 4; 5]%nat
    /\ snd (V1.claimVestedTokens C K password tokenAddress t)
       = (t ++ firstn n (claimCalls tokenAddress address))%list.
Proof.
  intros Hw [Ht1 Ht2] Hu.
  unfold V1.claimVestedTokens. rewrite Hw, Ht1, Ht2, Hu. cbn [negb orb].
  unfold try_catch at 1.
  rewrite (bind_trace _ _ _ _ _ (V1_readToken_eq _ _ _)).
  destruct (V1_metadata C tokenAddress t) as [[n y] d].
  rewrite (bind_trace _ _ _ _ _ (V1_fetchSchedule_run _ _ _ _ _)).
  rewrite app_two.
  destruct (V1.getSchedule K address tokenAddress _) as [s | m];
    [| footprint 2%nat].
  destruct (V1.totalAmount s =? 0); [footprint 2%nat |].
  destruct (V1.releasable s <=? 0); [footprint 2%nat |].
  pose proof (V1_submitClaim_flat C K address tokenAddress n y d
                (V1.releasable s) t) as Hsub.
  unfold reads in Hsub.
  destruct (V1.release K address tokenAddress _) as [tx | m].
  2: { rewrite Hsub, claimVestedTokens_catch_eq. footprint 3%nat. }
  destruct (wait tx _) as [receipt | m].
  2: { rewrite Hsub, claimVestedTokens_catch_eq. footprint 4%nat. }
  destruct (balanceOf C tokenAddress address _) as [balance | m].
  2: { rewrite Hsub, claimVestedTokens_catch_eq. footprint 5%nat. }
  destruct Hsub as [p [Hp _]]. rewrite Hp. footprint 5%nat.
Qed.

Lemma V2_claim_footprint_checked C K password tokenAddress address t :
  hasWallet C = true -> validToken C tokenAddress ->
  getDecryptedWallet C password = Unlocked address ->
  exists n : nat,
    In n [2; 3; 4; 5]%nat
    /\ snd (V2.claimVestedTokens C K password tokenAddress t)
       = (t ++ firstn n (claimCalls tokenAddress address))%list.
Proof.
  intros Hw [Ht1 Ht2] Hu.
  unfold V2.claimVestedTokens. rewrite Hw, Ht1, Ht2, Hu. cbn [negb orb].
  unfold try_catch at 1.
  rewrite (bind_trace _ _ _ _ _ (V2_readToken_eq _ _ _)).
  destruct (V2_metadata C tokenAddress t) as [[n y] d].
  unfold bind at 1. unfold call at 1. rewrite app_two.
  destruct (V2.schedules K tokenAddress address _) as [s | m].
  2: { rewrite claimVestedTokens_catch_eq. footprint 2%nat. }
  destruct (V2.totalAmount s =? 0); [footprint 2%nat |].
  unfold bind at 1. unfold lift at 1.
  destruct (V2.releasable s _) as [amount | m].
  2: { rewrite claimVestedTokens_catch_eq. footprint 2%nat. }
  destruct (amount <=? 0); [footprint 2%nat |].
  pose proof (V2_submitClaim_flat C K address tokenAddress n y d amount t)
    as Hsub.
  unfold reads in Hsub.
  destruct (V2.release K tokenAddress _) as [tx | m].
  2: { rewrite Hsub, claimVestedTokens_catch_eq. footprint 3%nat. }
  destruct (wait tx _) as [receipt | m].
  2: { rewrite Hsub, claimVestedTokens_catch_eq. footprint 4%nat. }
  destruct (balanceOf C tokenAddress address _) as [balance | m].
  2: { rewrite Hsub, claimVestedTokens_catch_eq. footprint 5%nat. }
  destruct d as [z | z].
  - rewrite Hsub, claimVestedTokens_catch_eq. footprint 5%nat.
  - destruct Hsub as [p [Hp _]]. rewrite Hp. footprint 5%nat.
Qed.

(** The three checks, as the functions evaluate them. *)
Lemma claim_checks_cases C password tokenAddress :
  hasWallet C = false
  \/ (hasWallet C = true /\ ~ validToken C tokenAddress
      /\ falsy tokenAddress || negb (isAddress C tokenAddress) = true)
  \/ (hasWallet C = true /\ validToken C tokenAddress
      /\ exists e ctx, getDecryptedWallet C password = UnlockFailed e ctx)
  \/ (hasWallet C = true /\ validToken C tokenAddress
      /\ exists address, getDecryptedWallet C password = Unlocked address).
Proof.
  destruct (hasWallet C); [| now left]. right.
  unfold validToken.
  destruct (falsy tokenAddress) eqn:Hf.
  { left. split; [reflexivity |]. split; [| reflexivity]. intros [H _].
    discriminate H. }
  destruct (isAddress C tokenAddress) eqn:Ha.
  2: { left. split; [reflexivity |]. split; [| reflexivity]. intros [_ H].
       discriminate H. }
  right. destruct (getDecryptedWallet C password) as [e ctx | address].
  - left. repeat split. eauto.
  - right. repeat split. eauto.
Qed.

Lemma V1_claim_footprint C K password tokenAddress t :
  claimFootprint tokenAddress (unlockedAddress C password) t
    (snd (V1.claimVestedTokens C K password tokenAddress t)).
Proof.
  unfold claimFootprint, unlockedAddress.
  destruct (claim_checks_cases C password tokenAddress)
    as [Hw | [[Hw [_ Hbad]] | [[Hw [[Ht1 Ht2] [e [ctx Hu]]]]
                              | [Hw [Ht [address Hu]]]]]].
  - unfold V1.claimVestedTokens. rewrite Hw. footprint 0%nat.
  - unfold V1.claimVestedTokens. rewrite Hw, Hbad. footprint 0%nat.
  - unfold V1.claimVestedTokens. rewrite Hw, Ht1, Ht2, Hu. footprint 0%nat.
  - rewrite Hu.
    destruct (V1_claim_footprint_checked C K password tokenAddress address t
                Hw Ht Hu) as [n [Hin Hn]].
    exists n. split; [cbn in *; tauto | exact Hn].
Qed.

Lemma V2_claim_footprint C K password tokenAddress t :
  claimFootprint tokenAddress (unlockedAddress C password) t
    (snd (V2.claimVestedTokens C K password tokenAddress t)).
Proof.
  unfold claimFootprint, unlockedAddress.
  destruct (claim_checks_cases C password tokenAddress)
    as [Hw | [[Hw [_ Hbad]] | [[Hw [[Ht1 Ht2] [e [ctx Hu]]]]
                              | [Hw [Ht [address Hu]]]]]].
  - unfold V2.claimVestedTokens. rewrite Hw. footprint 0%nat.
  - unfold V2.claimVestedTokens. rewrite Hw, Hbad. footprint 0%nat.
  - unfold V2.claimVestedTokens. rewrite Hw, Ht1, Ht2, Hu. footprint 0%nat.
  - rewrite Hu.
    destruct (V2_claim_footprint_checked C K password tokenAddress address t
                Hw Ht Hu) as [n [Hin Hn]].
    exists n. split; [cbn in *; tauto | exact Hn].
Qed.

Lemma claimFootprint_one_release tokenAddress address t t' :
  claimFootprint tokenAddress address t t' ->
  (List.length (submitted t') <= List.length (submitted t) + 1)%nat.
Proof.
  intros [n [Hin ->]]. rewrite submitted_app, length_app.
  cbn in Hin.
  destruct Hin as [<- | [<- | [<- | [<- | [<- | []]]]]]; cbn; lia.
Qed.

(** X14.  Whatever happens, one call of [claimVestedTokens] asks the
    ledger for the five calls of a claim in their fixed order and stops
    somewhere along them: after none (a check failed), after the two reads
    (nothing to submit), or after the release, the confirmation or the
    balance re-read.  In particular it submits at most one release, and
    never retries.  Both revisions. *)
Theorem claim_submits_at_most_once C K1 K2 password tokenAddress t :
  let address := unlockedAddress C password in
  let t1 := snd (V1.claimVestedTokens C K1 password tokenAddress t) in
  let t2 := snd (V2.claimVestedTokens C K2 password tokenAddress t) in
  claimFootprint tokenAddress address t t1
  /\ claimFootprint tokenAddress address t t2
  /\ (List.length (submitted t1) <= List.length (submitted t) + 1)%nat
  /\ (List.length (submitted t2) <= List.length (submitted t) + 1)%nat.
Proof.
  cbn zeta.
  pose proof (V1_claim_footprint C K1 password tokenAddress t) as H1.
  pose proof (V2_claim_footprint C K2 password tokenAddress t) as H2.
  repeat split; try assumption.
  - eapply claimFootprint_one_release; eassumption.
  - eapply claimFootprint_one_release; eassumption.
Qed.

Lemma app_inv_nil {A} (t l : list A) : (t ++ l)%list = t -> l = [].
Proof.
  intros H. apply (app_inv_head t). now rewrite app_nil_r.
Qed.

(** X15.  [claimVestedTokens] checks, in this order, that a wallet
    exists, that the token address is valid and that the password unlocks
    the wallet; the first check that fails decides the result -- "No
    wallet found...", "Invalid token address", or the failure object of the
    wallet store returned as it is -- and nothing is asked of the ledger.
    The ledger is contacted exactly when all three checks pass.  Both
    revisions. *)
Theorem claim_checks_before_ledger C K1 K2 password tokenAddress t :
  let r1 := V1.claimVestedTokens C K1 password tokenAddress t in
  let r2 := V2.claimVestedTokens C K2 password tokenAddress t in
  (hasWallet C = false ->
     r1 = (Normal (Failure msg_NoWallet []), t)
     /\ r2 = (Normal (Failure msg_NoWallet []), t))
  /\ (hasWallet C = true -> ~ validToken C tokenAddress ->
        r1 = (Normal (Failure msg_InvalidTokenAddress []), t)
        /\ r2 = (Normal (Failure msg_InvalidTokenAddress []), t))
  /\ (forall e ctx,
        hasWallet C = true -> validToken C tokenAddress ->
        getDecryptedWallet C password = UnlockFailed e ctx ->
        r1 = (Normal (Failure e ctx), t) /\ r2 = (Normal (Failure e ctx), t))
  /\ ((snd r1 <> t
       <-> (hasWallet C = true /\ validToken C tokenAddress
            /\ exists address, getDecryptedWallet C password = Unlocked address))
      /\ (snd r2 <> t
          <-> (hasWallet C = true /\ validToken C tokenAddress
               /\ exists address,
                    getDecryptedWallet C password = Unlocked address))).
Proof.
  cbn zeta.
  assert (Hnone : hasWallet C = false ->
            V1.claimVestedTokens C K1 password tokenAddress t
            = (Normal (Failure msg_NoWallet []), t)
            /\ V2.claimVestedTokens C K2 password tokenAddress t
               = (Normal (Failure msg_NoWallet []), t)).
  { intros Hw. unfold V1.claimVestedTokens, V2.claimVestedTokens.
    rewrite Hw. split; reflexivity. }
  assert (Hbad : hasWallet C = true -> ~ validToken C tokenAddress ->
            V1.claimVestedTokens C K1 password tokenAddress t
            = (Normal (Failure msg_InvalidTokenAddress []), t)
            /\ V2.claimVestedTokens C K2 password tokenAddress t
               = (Normal (Failure msg_InvalidTokenAddress []), t)).
  { intros Hw Hno.
    destruct (claim_checks_cases C password tokenAddress)
      as [Hw' | [[_ [_ Hb]] | [[_ [Ht _]] | [_ [Ht _]]]]];
      try congruence; try contradiction.
    unfold V1.claimVestedTokens, V2.claimVestedTokens.
    rewrite Hw, Hb. split; reflexivity. }
  assert (Hlock : forall e ctx,
            hasWallet C = true -> validToken C tokenAddress ->
            getDecryptedWallet C password = UnlockFailed e ctx ->
            V1.claimVestedTokens C K1 password tokenAddress t
            = (Normal (Failure e ctx), t)
            /\ V2.claimVestedTokens C K2 password tokenAddress t
               = (Normal (Failure e ctx), t)).
  { intros e ctx Hw [Ht1 Ht2] Hu.
    unfold V1.claimVestedTokens, V2.claimVestedTokens.
    rewrite Hw, Ht1, Ht2, Hu. split; reflexivity. }
  split; [exact Hnone |]. split; [exact Hbad |]. split; [exact Hlock |].
  assert (Hcontact : forall t' : Trace,
            (hasWallet C = false -> t' = t) ->
            (hasWallet C = true -> ~ validToken C tokenAddress -> t' = t) ->
            (forall e ctx, hasWallet C = true -> validToken C tokenAddress ->
               getDecryptedWallet C password = UnlockFailed e ctx -> t' = t) ->
            (forall address, hasWallet C = true -> validToken C tokenAddress ->
               getDecryptedWallet C password = Unlocked address ->
               exists n : nat,
                 In n [2; 3; 4; 5]%nat
                 /\ t' = (t ++ firstn n (claimCalls tokenAddress address))%list) ->
            t' <> t
            <-> (hasWallet C = true /\ validToken C tokenAddress
                 /\ exists address,
                      getDecryptedWallet C password = Unlocked address)).
  { intros t' H0 H1 H2 H3.
    destruct (claim_checks_cases C password tokenAddress)
      as [Hw | [[Hw [Hno _]] | [[Hw [Ht [e [ctx Hu]]]]
                               | [Hw [Ht [address Hu]]]]]].
    - split; [intros Hne; exfalso; auto | intros [Hw' _]; congruence].
    - split; [intros Hne; exfalso; auto | intros [_ [Ht _]]; contradiction].
    - split; [intros Hne; exfalso; eauto |].
      intros [_ [_ [a Ha]]]. congruence.
    - split; [intros _; eauto |]. intros _ Heq.
      destruct (H3 address Hw Ht Hu) as [n [Hin Hn]].
      rewrite Heq in Hn. symmetry in Hn. apply app_inv_nil in Hn.
      cbn in Hin.
      destruct Hin as [<- | [<- | [<- | [<- | []]]]]; discriminate Hn. }
  split; apply Hcontact.
  - intros Hw. now rewrite (proj1 (Hnone Hw)).
  - intros Hw Hno. now rewrite (proj1 (Hbad Hw Hno)).
  - intros e ctx Hw Ht Hu. now rewrite (proj1 (Hlock e ctx Hw Ht Hu)).
  - intros address. apply V1_claim_footprint_checked.
  - intros Hw. now rewrite (proj2 (Hnone Hw)).
  - intros Hw Hno. now rewrite (proj2 (Hbad Hw Hno)).
  - intros e ctx Hw Ht Hu. now rewrite (proj2 (Hlock e ctx Hw Ht Hu)).
  - intros address. apply V2_claim_footprint_checked.
Qed.

Lemma claim_checks_before_ledger_witness :
  hasWallet Sample.world = true /\ validToken Sample.world "0xToken"
  /\ getDecryptedWallet Sample.world "wrong"
     = UnlockFailed msg_InvalidPassword []
  /\ V1.claimVestedTokens Sample.world Sample.manager1 "wrong" "0xToken" []
     = (Normal (Failure msg_InvalidPassword []), [])
  /\ V2.claimVestedTokens Sample.world Sample.manager2 "wrong" "0xToken" []
     = (Normal (Failure msg_InvalidPassword []), []).
Proof.
  assert (Ht : validToken Sample.world "0xToken") by (split; reflexivity).
  split; [reflexivity |]. split; [exact Ht |]. split; [reflexivity |].
  apply (proj1 (proj2 (proj2 (claim_checks_before_ledger
                                Sample.world Sample.manager1 Sample.manager2
                                "wrong" "0xToken" [])))
           msg_InvalidPassword [] eq_refl Ht eq_refl).
Defined.

(* ===================================================================== *)
(** ** More on the batch query *)
(* ===================================================================== *)

Section BatchComposition.

Variable query : string -> M (Result VestingInfo).
Variable vma : string.
Hypothesis query_returns : forall a t, exists r t', query a t = (Normal r, t').

Lemma QueriedInOrder_functional items : forall t rs1 t1 rs2 t2,
  QueriedInOrder query items t rs1 t1 ->
  QueriedInOrder query items t rs2 t2 ->
  rs1 = rs2 /\ t1 = t2.
Proof.
  induction items as [| a rest IH]; intros t rs1 t1 rs2 t2 H1 H2;
    inversion H1; inversion H2; subst.
  - split; reflexivity.
  - match goal with
    | Ha : query a t = _, Hb : query a t = _ |- _ =>
        rewrite Ha in Hb; injection Hb as <- <-
    end.
    match goal with
    | Ha : QueriedInOrder _ rest _ _ _, Hb : QueriedInOrder _ rest _ _ _ |- _ =>
        destruct (IH _ _ _ _ _ Ha Hb) as [<- <-]
    end.
    split; reflexivity.
Qed.

Lemma QueriedInOrder_app items1 : forall items2 t rs1 t1 rs2 t2,
  QueriedInOrder query items1 t rs1 t1 ->
  QueriedInOrder query items2 t1 rs2 t2 ->
  QueriedInOrder query (items1 ++ items2) t (rs1 ++ rs2) t2.
Proof.
  induction items1 as [| a rest IH]; intros items2 t rs1 t1 rs2 t2 H1 H2;
    inversion H1; subst; cbn.
  - exact H2.
  - econstructor; [eassumption |]. eapply IH; eassumption.
Qed.

Lemma QueriedInOrder_length items : forall t rs t',
  QueriedInOrder query items t rs t' -> List.length rs = List.length items.
Proof.
  induction items as [| a rest IH]; intros t rs t' H; inversion H; subst; cbn.
  - reflexivity.
  - f_equal. eapply IH; eassumption.
Qed.

(** The batch over one list after the other is the batch over their
    concatenation. *)
Lemma getAllVestingInfo_app items1 items2 t b1 t1 b2 t2 :
  items1 <> [] -> items2 <> [] ->
  getAllVestingInfo query vma (ArrayOf items1) t = (Normal (Success b1), t1) ->
  getAllVestingInfo query vma (ArrayOf items2) t1 = (Normal (Success b2), t2) ->
  getAllVestingInfo query vma (ArrayOf (items1 ++ items2)) t
  = (Normal (Success
       {| schedules := (schedules b1 ++ schedules b2)%list;
          totalSchedules := totalSchedules b1 + totalSchedules b2;
          vestingManagerAddress := vma |}), t2).
Proof.
  intros Hne1 Hne2 H1 H2.
  destruct (getAllVestingInfo_best_effort_for query vma query_returns)
    as [_ [_ Hall]].
  destruct (Hall items1 t Hne1) as [rs1 [u1 [Hrun1 Heq1]]].
  destruct (Hall items2 t1 Hne2) as [rs2 [u2 [Hrun2 Heq2]]].
  rewrite Heq1 in H1. injection H1 as <- <-.
  rewrite Heq2 in H2. injection H2 as <- <-.
  assert (Hne : (items1 ++ items2)%list <> []).
  { destruct items1; [contradiction | discriminate]. }
  destruct (Hall (items1 ++ items2)%list t Hne) as [rs [u [Hrun Heq]]].
  pose proof (QueriedInOrder_app _ _ _ _ _ _ _ Hrun1 Hrun2) as Hboth.
  destruct (QueriedInOrder_functional _ _ _ _ _ _ Hrun Hboth) as [-> ->].
  rewrite Heq. cbn [schedules totalSchedules].
  rewrite filter_app, length_app, Nat2Z.inj_add. reflexivity.
Qed.

(** What a successful batch carries: successes only, as many as it
    counts, and no more than were asked for. *)
Lemma getAllVestingInfo_payload items t b t' :
  getAllVestingInfo query vma (ArrayOf items) t = (Normal (Success b), t') ->
  Forall (fun r => success r = true) (schedules b)
  /\ totalSchedules b = Z.of_nat (List.length (schedules b))
  /\ (List.length (schedules b) <= List.length items)%nat
  /\ vestingManagerAddress b = vma.
Proof.
  intros H.
  destruct (getAllVestingInfo_best_effort_for query vma query_returns)
    as [_ [Hempty Hall]].
  destruct items as [| a rest].
  { rewrite Hempty in H. discriminate H. }
  destruct (Hall (a :: rest) t ltac:(discriminate)) as [rs [u [Hrun Heq]]].
  rewrite Heq in H. injection H as <- <-. cbn [schedules totalSchedules].
  split; [| split; [reflexivity | split; [| reflexivity]]].
  - apply Forall_forall. intros r Hin. apply filter_In in Hin. tauto.
  - rewrite <- (QueriedInOrder_length _ _ _ _ Hrun). apply filter_length_le.
Qed.

End BatchComposition.

(** X16.  Batches compose: querying a non-empty list and then, from
    where that batch ended, a second non-empty list gives the same
    schedules, in the same order, as querying the two lists joined; the
    counts add up.  Addresses are not deduplicated: an address given twice
    is queried and reported twice.  Both revisions. *)
Theorem getAllVestingInfo_composes C K1 K2 items1 items2 t
    (Hfirst : items1 <> []) (Hsecond : items2 <> []) :
  (forall b1 t1 b2 t2,
     V1Batch.getAllVestingInfo C K1 (ArrayOf items1) t
     = (Normal (Success b1), t1) ->
     V1Batch.getAllVestingInfo C K1 (ArrayOf items2) t1
     = (Normal (Success b2), t2) ->
     V1Batch.getAllVestingInfo C K1 (ArrayOf (items1 ++ items2)) t
     = (Normal (Success
          {| schedules := (schedules b1 ++ schedules b2)%list;
             totalSchedules := totalSchedules b1 + totalSchedules b2;
             vestingManagerAddress := V1.VESTING_MANAGER_ADDRESS C |}), t2))
  /\ (forall b1 t1 b2 t2,
        V2Batch.getAllVestingInfo C K2 (ArrayOf items1) t
        = (Normal (Success b1), t1) ->
        V2Batch.getAllVestingInfo C K2 (ArrayOf items2) t1
        = (Normal (Success b2), t2) ->
        V2Batch.getAllVestingInfo C K2 (ArrayOf (items1 ++ items2)) t
        = (Normal (Success
             {| schedules := (schedules b1 ++ schedules b2)%list;
                totalSchedules := totalSchedules b1 + totalSchedules b2;
                vestingManagerAddress := V2.VESTING_MANAGER_ADDRESS C |}), t2)).
Proof.
  split; intros b1 t1 b2 t2 H1 H2.
  - apply (getAllVestingInfo_app (V1.getVestingInfo C K1)
             (V1.VESTING_MANAGER_ADDRESS C) (V1_getVestingInfo_returns C K1)
             items1 items2 t b1 t1 b2 t2 Hfirst Hsecond H1 H2).
  - apply (getAllVestingInfo_app (V2.getVestingInfo C K2)
             (V2.VESTING_MANAGER_ADDRESS C) (V2_getVestingInfo_returns C K2)
             items1 items2 t b1 t1 b2 t2 Hfirst Hsecond H1 H2).
Qed.

Lemma getAllVestingInfo_composes_witness :
  ["0xToken"] <> [] /\ ["0xDown"; "0xToken"] <> []
  /\ exists b t',
       V1Batch.getAllVestingInfo Sample.world Sample.manager1
         (ArrayOf (["0xToken"] ++ ["0xDown"; "0xToken"])) []
       = (Normal (Success b), t')
       /\ totalSchedules b = 1 + 1.
Proof.
  split; [discriminate |]. split; [discriminate |].
  eexists. eexists. split.
  - eapply (proj1 (getAllVestingInfo_composes
                    Sample.world Sample.manager1 Sample.manager2
                    ["0xToken"] ["0xDown"; "0xToken"] []
                    ltac:(discriminate) ltac:(discriminate))).
    + vm_compute. reflexivity.
    + vm_compute. reflexivity.
  - reflexivity.
Defined.

Lemma reads_are_not_releases (suffix : Trace) :
  forallb isRead suffix = true -> submitted suffix = [].
Proof.
  induction suffix as [| c rest IH]; cbn; [reflexivity |].
  destruct c; cbn; try discriminate; exact IH.
Qed.

Lemma onlyReads_submitted n t t' :
  onlyReads n t t' -> submitted t' = submitted t.
Proof.
  intros [suffix [-> [Hreads _]]].
  rewrite submitted_app, (reads_are_not_releases _ Hreads). apply app_nil_r.
Qed.

Lemma onlyReads_trans n m t t1 t2 :
  onlyReads n t t1 -> onlyReads m t1 t2 -> onlyReads (n + m) t t2.
Proof.
  intros [s1 [-> [H1 L1]]] [s2 [-> [H2 L2]]].
  exists (s1 ++ s2)%list. rewrite <- app_assoc, forallb_app, length_app, H1, H2.
  repeat split. lia.
Qed.

Lemma onlyReads_refl n t : onlyReads n t t.
Proof. exists []. rewrite app_nil_r. repeat split. cbn. lia. Qed.

Lemma onlyReads_two tokenAddress beneficiary t :
  onlyReads 2 t (t ++ reads tokenAddress beneficiary)%list.
Proof.
  exists (reads tokenAddress beneficiary).
  split; [reflexivity |]. split; [reflexivity | cbn; lia].
Qed.

(** The two checks of a query, as the functions evaluate them. *)
Lemma query_checks_cases C tokenAddress :
  (negb (wa_success (getWalletAddress C))
   || falsy (wa_address (getWalletAddress C)) = true)
  \/ (walletResolved C
      /\ falsy tokenAddress || negb (isAddress C tokenAddress) = true)
  \/ (walletResolved C /\ validToken C tokenAddress).
Proof.
  unfold walletResolved, validToken.
  destruct (wa_success (getWalletAddress C)); [| now left].
  destruct (falsy (wa_address (getWalletAddress C))); [now left |].
  right. destruct (falsy tokenAddress); [now left |].
  destruct (isAddress C tokenAddress); [right | left]; repeat split.
Qed.

Lemma V1_query_onlyReads C K tokenAddress t :
  onlyReads 2 t (snd (V1.getVestingInfo C K tokenAddress t)).
Proof.
  destruct (query_checks_cases C tokenAddress)
    as [H | [[[Hw1 Hw2] H] | [Hw Ht]]].
  - unfold V1.getVestingInfo. rewrite H. apply onlyReads_refl.
  - unfold V1.getVestingInfo. rewrite Hw1, Hw2, H. apply onlyReads_refl.
  - rewrite (V1_getVestingInfo_trace C K tokenAddress t Hw Ht).
    apply onlyReads_two.
Qed.

Lemma V2_query_onlyReads C K tokenAddress t :
  onlyReads 2 t (snd (V2.getVestingInfo C K tokenAddress t)).
Proof.
  destruct (query_checks_cases C tokenAddress)
    as [H | [[[Hw1 Hw2] H] | [Hw Ht]]].
  - unfold V2.getVestingInfo. rewrite H. apply onlyReads_refl.
  - unfold V2.getVestingInfo. rewrite Hw1, Hw2, H. apply onlyReads_refl.
  - rewrite (V2_getVestingInfo_trace C K tokenAddress t Hw Ht).
    apply onlyReads_two.
Qed.

Section BatchFootprint.

Variable query : string -> M (Result VestingInfo).
Variable vma : string.
Hypothesis query_returns : forall a t, exists r t', query a t = (Normal r, t').
Hypothesis query_reads : forall a t, onlyReads 2 t (snd (query a t)).

Lemma QueriedInOrder_onlyReads items : forall t rs t',
  QueriedInOrder query items t rs t' ->
  onlyReads (2 * List.length items) t t'.
Proof.
  induction items as [| a rest IH]; intros t rs t' H; inversion H; subst.
  - apply onlyReads_refl.
  - match goal with
    | Hq : query a t = (Normal _, ?u), Hrun : QueriedInOrder _ rest ?u _ _ |- _ =>
        pose proof (query_reads a t) as Hone; rewrite Hq in Hone;
        cbn [snd] in Hone; pose proof (IH _ _ _ Hrun) as Hrest
    end.
    replace (2 * List.length (a :: rest))%nat
      with (2 + 2 * List.length rest)%nat by (cbn [List.length]; lia).
    eapply onlyReads_trans; eassumption.
Qed.

Lemma getAllVestingInfo_onlyReads items t :
  onlyReads (2 * List.length items) t
    (snd (getAllVestingInfo query vma (ArrayOf items) t)).
Proof.
  destruct (getAllVestingInfo_best_effort_for query vma query_returns)
    as [_ [Hempty Hall]].
  destruct items as [| a rest].
  - rewrite Hempty. apply onlyReads_refl.
  - destruct (Hall (a :: rest) t ltac:(discriminate)) as [rs [u [Hrun Heq]]].
    rewrite Heq. cbn [snd]. eapply QueriedInOrder_onlyReads; eassumption.
Qed.

End BatchFootprint.

(** X17.  A batch only reads: the calls it adds to the trace are
    metadata and schedule reads, at most two per address, and never a
    release.  When it succeeds, every schedule it carries is a success
    (no failure object is passed on), [totalSchedules] is their number,
    and there are no more of them than addresses.  Both revisions. *)
Theorem getAllVestingInfo_only_reads C K1 K2 items t :
  let r1 := V1Batch.getAllVestingInfo C K1 (ArrayOf items) t in
  let r2 := V2Batch.getAllVestingInfo C K2 (ArrayOf items) t in
  onlyReads (2 * List.length items) t (snd r1)
  /\ onlyReads (2 * List.length items) t (snd r2)
  /\ submitted (snd r1) = submitted t
  /\ submitted (snd r2) = submitted t
  /\ (forall b t', r1 = (Normal (Success b), t') \/ r2 = (Normal (Success b), t') ->
        Forall (fun r => success r = true) (schedules b)
        /\ totalSchedules b = Z.of_nat (List.length (schedules b))
        /\ (List.length (schedules b) <= List.length items)%nat).
Proof.
  cbn zeta.
  pose proof (getAllVestingInfo_onlyReads (V1.getVestingInfo C K1)
                (V1.VESTING_MANAGER_ADDRESS C) (V1_getVestingInfo_returns C K1)
                (V1_query_onlyReads C K1) items t) as H1.
  pose proof (getAllVestingInfo_onlyReads (V2.getVestingInfo C K2)
                (V2.VESTING_MANAGER_ADDRESS C) (V2_getVestingInfo_returns C K2)
                (V2_query_onlyReads C K2) items t) as H2.
  split; [exact H1 |]. split; [exact H2 |].
  split; [exact (onlyReads_submitted _ _ _ H1) |].
  split; [exact (onlyReads_submitted _ _ _ H2) |].
  intros b t' [H | H].
  - destruct (getAllVestingInfo_payload (V1.getVestingInfo C K1)
                (V1.VESTING_MANAGER_ADDRESS C) (V1_getVestingInfo_returns C K1)
                items t b t' H) as [F1 [F2 [F3 _]]].
    repeat split; assumption.
  - destruct (getAllVestingInfo_payload (V2.getVestingInfo C K2)
                (V2.VESTING_MANAGER_ADDRESS C) (V2_getVestingInfo_returns C K2)
                items t b t' H) as [F1 [F2 [F3 _]]].
    repeat split; assumption.
Qed.

(* ===================================================================== *)
(** ** The phases as a query reports them *)
(* ===================================================================== *)









Lemma V1_success_checks C K tokenAddress t p t' :
  V1.getVestingInfo C K tokenAddress t = (Normal (Success p), t') ->
  walletResolved C /\ validToken C tokenAddress.
Proof.
  intros H. unfold V1.getVestingInfo in H.
  destruct (getVestingInfo_success_checks C tokenAddress) as [Hw Ht].
  destruct (negb (wa_success (getWalletAddress C))
            || falsy (wa_address (getWalletAddress C)));
    [discriminate H |].
  destruct (falsy tokenAddress || negb (isAddress C tokenAddress));
    [discriminate H |].
  split; [apply Hw | apply Ht]; reflexivity.
Qed.

(** Behind every success of the first revision there is a schedule that
    was read and then described. *)
Lemma V1_success_describe C K tokenAddress t p t' :
  V1.getVestingInfo C K tokenAddress t = (Normal (Success p), t') ->
  let beneficiary := wa_address (getWalletAddress C) in
  t' = (t ++ reads tokenAddress beneficiary)%list
  /\ exists s name symbol d,
       V1.getSchedule K beneficiary tokenAddress
         (t ++ [CallTokenInfo tokenAddress])%list = Normal s
       /\ V1.totalAmount s <> 0
       /\ V1.describe C tokenAddress beneficiary name symbol d s t'
          = (Normal (Success p), t').
Proof.
  intros H. cbn zeta.
  destruct (V1_success_checks _ _ _ _ _ _ H) as [Hw Ht].
  rewrite (V1_getVestingInfo_eq C K tokenAddress t Hw Ht) in H. cbn zeta in H.
  destruct (V1.getSchedule K _ tokenAddress _) as [s | m]; [| discriminate H].
  destruct (Z.eqb_spec (V1.totalAmount s) 0) as [| Hnz]; [discriminate H |].
  destruct (V1_metadata C tokenAddress t) as [[n y] d].
  pose proof (V1_describe_silent C tokenAddress
                (wa_address (getWalletAddress C)) n y d s
                (t ++ reads tokenAddress (wa_address (getWalletAddress C)))%list)
    as Hsilent.
  destruct (V1.describe C tokenAddress _ n y d s _) as [[r | m] u] eqn:Hd;
    cbn in Hsilent; subst u; cbn [fst] in H.
  - injection H as -> <-. split; [reflexivity |].
    exists s, n, y, d. repeat split; assumption.
  - injection H as H _. unfold queryFailure in H.
    destruct (isRevert m); discriminate H.
Qed.

Lemma V2_success_describe C K tokenAddress t p t' :
  V2.getVestingInfo C K tokenAddress t = (Normal (Success p), t') ->
  let beneficiary := wa_address (getWalletAddress C) in
  t' = (t ++ reads tokenAddress beneficiary)%list
  /\ exists s name symbol d,
       V2.schedules K tokenAddress beneficiary
         (t ++ [CallTokenInfo tokenAddress])%list = Normal s
       /\ V2.totalAmount s <> 0
       /\ V2.describe C tokenAddress beneficiary name symbol d s t'
          = (Normal (Success p), t').
Proof.
  intros H. cbn zeta.
  destruct (V2_success_checks _ _ _ _ _ _ H) as [Hw Ht].
  rewrite (V2_getVestingInfo_eq C K tokenAddress t Hw Ht) in H. cbn zeta in H.
  destruct (V2.schedules K tokenAddress _ _) as [s | m].
  2: { injection H as H _. unfold queryFailure in H.
       destruct (isRevert m); discriminate H. }
  destruct (Z.eqb_spec (V2.totalAmount s) 0) as [| Hnz]; [discriminate H |].
  destruct (V2_metadata C tokenAddress t) as [[n y] d].
  pose proof (V2_describe_silent C tokenAddress
                (wa_address (getWalletAddress C)) n y d s
                (t ++ reads tokenAddress (wa_address (getWalletAddress C)))%list)
    as Hsilent.
  destruct (V2.describe C tokenAddress _ n y d s _) as [[r | m] u] eqn:Hd;
    cbn in Hsilent; subst u; cbn [fst] in H.
  - injection H as -> <-. split; [reflexivity |].
    exists s, n, y, d. repeat split; assumption.
  - injection H as H _. unfold queryFailure in H.
    destruct (isRevert m); discriminate H.
Qed.

(* ===================================================================== *)
(** ** The releasable amount, as reported and as claimed *)
(* ===================================================================== *)

Lemma string_of_uint_unsigned (u : uint) :
  prefix "-" (NilEmpty.string_of_uint u) = false.
Proof. destruct u; reflexivity. Qed.

(** The decimal text of a BigInt starts with a minus sign exactly when
    the BigInt is negative. *)
Lemma toString_minus (z : Z) : prefix "-" (toString z) = true <-> z < 0.
Proof.
  destruct (Z.ltb_spec z 0) as [Hneg | Hpos].
  - split; [intros _; exact Hneg | intros _].
    destruct z as [| q | q]; try lia.
    unfold toString. cbn [Z.to_int NilZero.string_of_int].
    destruct (NilZero.string_of_uint (Pos.to_uint q)); reflexivity.
  - destruct (toString_nonneg z Hpos) as [u [-> _]].
    rewrite string_of_uint_unsigned. split; [discriminate | lia].
Qed.

Lemma V2_describe_releasable C tokenAddress beneficiary name symbol d
    (s : V2.Schedule) t p t' :
  V2.describe C tokenAddress beneficiary name symbol d s t
  = (Normal (Success p), t') ->
  exists vested,
    vestedAmount2 (V2.totalAmount s) (V2.startTime s) (V2.duration s)
      (clock C t) = Normal vested
    /\ raw_releasableAmount p = toString (vested - V2.releasedAmount s).
Proof.
  intros H. unfold V2.describe, bind, lift, ret in H.
  repeat step_normal. injection H as <- _.
  eexists. split; reflexivity.
Qed.

Lemma V1_describe_releasable C tokenAddress beneficiary name symbol d
    (s : V1.Schedule) t p t' :
  V1.describe C tokenAddress beneficiary name symbol d s t
  = (Normal (Success p), t') ->
  raw_releasableAmount p = toString (V1.releasable s).
Proof.
  intros H. unfold V1.describe, bind, lift, ret in H.
  repeat step_normal. injection H as <- _. reflexivity.
Qed.

(** A claim of the second revision on an existing schedule with nothing
    releasable stops after the two reads. *)
Lemma V2_nothing_releasable C K password tokenAddress address t s amount :
  hasWallet C = true ->
  validToken C tokenAddress ->
  getDecryptedWallet C password = Unlocked address ->
  V2.schedules K tokenAddress address (t ++ [CallTokenInfo tokenAddress])%list
  = Normal s ->
  V2.totalAmount s <> 0 ->
  V2.releasable s (clock C (t ++ reads tokenAddress address)%list)
  = Normal amount ->
  amount <= 0 ->
  exists tokenName tokenSymbol,
    V2.claimVestedTokens C K password tokenAddress t
    = (Normal (Failure msg_NothingToClaim
                 (claimContext tokenAddress tokenName tokenSymbol)),
       (t ++ reads tokenAddress address)%list).
Proof.
  intros Hwallet [Ht1 Ht2] Hunlock Hfetch Hsome Hamount Hnone.
  unfold V2.claimVestedTokens.
  rewrite Hwallet, Ht1, Ht2, Hunlock. cbn [negb orb].
  destruct (V2_readToken_run C tokenAddress t) as [n [y [d Hread]]].
  exists n, y.
  unfold try_catch at 1. unfold bind at 1. rewrite Hread.
  unfold bind at 1. unfold call at 1. rewrite Hfetch.
  destruct (Z.eqb_spec (V2.totalAmount s) 0) as [| _]; [contradiction |].
  rewrite app_two. unfold reads in Hamount.
  unfold bind, lift. rewrite Hamount.
  destruct (Z.leb_spec amount 0) as [_ |]; [| lia].
  reflexivity.
Qed.

(** C3 (as amended).  The second revision computes
    [releasable = vested - releasedAmount] for every schedule and every
    [now], without raising an exception and without clamping.
    [getVestingInfo] reports that difference as it is: the digits of
    [raw.releasableAmount] read back as [vested - releasedAmount], with
    a minus sign exactly when [releasedAmount > vested].
    [claimVestedTokens] hands out nothing then: whenever
    [vested - releasedAmount <= 0] it resolves to "No tokens available
    to claim..." after the two reads, without a release.  The first
    revision does not compute the amount: its [getVestingInfo] reports
    the [releasable] that the contract returned. *)
Theorem releasable_is_not_clamped C :
  (forall (s : V2.Schedule) now,
     exists vested,
       vestedAmount2 (V2.totalAmount s) (V2.startTime s) (V2.duration s) now
       = Normal vested
       /\ V2.releasable s now = Normal (vested - V2.releasedAmount s))
  /\ (forall K tokenAddress t p t',
        V2.getVestingInfo C K tokenAddress t = (Normal (Success p), t') ->
        exists s vested,
          V2.schedules K tokenAddress (wa_address (getWalletAddress C))
            (t ++ [CallTokenInfo tokenAddress])%list = Normal s
          /\ vestedAmount2 (V2.totalAmount s) (V2.startTime s)
               (V2.duration s) (clock C t') = Normal vested
          /\ readAmount (raw_releasableAmount p)
             = Some (vested - V2.releasedAmount s)
          /\ (prefix "-" (raw_releasableAmount p) = true
              <-> V2.releasedAmount s > vested))
  /\ (forall K password tokenAddress address t s,
        hasWallet C = true ->
        validToken C tokenAddress ->
        getDecryptedWallet C password = Unlocked address ->
        V2.schedules K tokenAddress address
          (t ++ [CallTokenInfo tokenAddress])%list = Normal s ->
        V2.totalAmount s <> 0 ->
        exists vested,
          vestedAmount2 (V2.totalAmount s) (V2.startTime s) (V2.duration s)
            (clock C (t ++ reads tokenAddress address)%list) = Normal vested
          /\ (vested - V2.releasedAmount s <= 0 ->
              exists tokenName tokenSymbol,
                V2.claimVestedTokens C K password tokenAddress t
                = (Normal (Failure msg_NothingToClaim
                             (claimContext tokenAddress tokenName
                                tokenSymbol)),
                   (t ++ reads tokenAddress address)%list)))
  /\ (forall K tokenAddress t p t',
        V1.getVestingInfo C K tokenAddress t = (Normal (Success p), t') ->
        exists s,
          V1.getSchedule K (wa_address (getWalletAddress C)) tokenAddress
            (t ++ [CallTokenInfo tokenAddress])%list = Normal s
          /\ readAmount (raw_releasableAmount p) = Some (V1.releasable s)).
Proof.
  assert (Hdiff : forall (s : V2.Schedule) now,
             exists vested,
               vestedAmount2 (V2.totalAmount s) (V2.startTime s)
                 (V2.duration s) now = Normal vested
               /\ V2.releasable s now
                  = Normal (vested - V2.releasedAmount s)).
  { intros s now.
    destruct (vestedAmount2_total (V2.totalAmount s) (V2.startTime s)
                (V2.duration s) now) as [v Hv].
    exists v. unfold V2.releasable, releasableOf. rewrite Hv.
    split; reflexivity. }
  split; [exact Hdiff |]. split; [| split].
  - intros K tokenAddress t p t' H.
    destruct (V2_success_describe _ _ _ _ _ _ H)
      as [_ [s [n [y [d [Hfetch [_ Hd]]]]]]].
    destruct (V2_describe_releasable _ _ _ _ _ _ _ _ _ _ Hd)
      as [vested [Hv Hraw]].
    exists s, vested. split; [exact Hfetch |]. split; [exact Hv |].
    rewrite Hraw. split; [apply readAmount_toString |].
    rewrite toString_minus. lia.
  - intros K password tokenAddress address t s Hw Ht Hu Hfetch Hnz.
    destruct (Hdiff s (clock C (t ++ reads tokenAddress address)%list))
      as [vested [Hv Hr]].
    exists vested. split; [exact Hv |]. intros Hnone.
    exact (V2_nothing_releasable C K password tokenAddress address t s _
             Hw Ht Hu Hfetch Hnz Hr Hnone).
  - intros K tokenAddress t p t' H.
    destruct (V1_success_describe _ _ _ _ _ _ H)
      as [_ [s [n [y [d [Hfetch [_ Hd]]]]]]].
    exists s. split; [exact Hfetch |].
    rewrite (V1_describe_releasable _ _ _ _ _ _ _ _ _ _ Hd).
    apply readAmount_toString.
Qed.

Lemma releasable_is_not_clamped_witness :
  exists p t',
    V2.getVestingInfo Sample.world Sample.manager2 "0xNoMeta" []
    = (Normal (Success p), t')
    /\ readAmount (raw_releasableAmount p) = Some (500 - 600)
    /\ prefix "-" (raw_releasableAmount p) = true.
Proof.
  eexists. eexists. split; [vm_compute; reflexivity |].
  match goal with
  | |- readAmount (raw_releasableAmount ?p) = _ /\ _ =>
      destruct (proj1 (proj2 (releasable_is_not_clamped Sample.world))
                  Sample.manager2 "0xNoMeta" [] p
                  (reads "0xNoMeta" "0xAlice") eq_refl)
        as [s [vested [Hs [Hv [Hraw Hsign]]]]]
  end.
  cbn in Hs. injection Hs as <-.
  vm_compute in Hv. injection Hv as <-.
  split; [exact Hraw |]. apply Hsign. cbn. lia.
Defined.



(** A window that ends between the two readings is reported "Fully
    vested" at "100%" with an amount still locked. *)
Example getVestingInfo_report_across_the_end :
  exists p t',
    V1.getVestingInfo Scenario.worldTicking Scenario.managerEnded1
      "0xToken" [] = (Normal (Success p), t')
    /\ raw_lockedAmount p = "3" /\ vi_progress p = "100%"
    /\ vi_timeRemaining p = "Fully vested".
Proof.
  eexists. eexists. split; [vm_compute; reflexivity |].
  repeat split.
Qed.

(* ===================================================================== *)
(** ** The number a decimal text denotes *)
(* ===================================================================== *)

(** The value of a numeral, most significant digit first. *)
Lemma of_uint_step (f : uint -> uint) (k : N) (u : uint) :
  (forall acc, revapp (f u) acc = revapp u (f acc)) ->
  DecimalPos.Unsigned.of_lu (f Nil) = k ->
  Z.of_uint (f u)
  = Z.of_N k * 10 ^ Z.of_N (DecimalPos.Unsigned.usize u) + Z.of_uint u.
Proof.
  intros Hrev Hk. unfold Z.of_uint.
  rewrite (DecimalPos.Unsigned.of_uint_alt (f u)). unfold rev.
  rewrite Hrev, DecimalPos.Unsigned.of_lu_revapp, Hk.
  rewrite <- DecimalPos.Unsigned.of_uint_alt.
  rewrite N2Z.inj_add, N2Z.inj_mul, N2Z.inj_pow. cbn. lia.
Qed.

(** A character that extends one numeral is a digit: it extends every
    numeral, by its weight. *)
Lemma digit_weight (c : ascii) (u0 u0' : uint) :
  uint_of_char c (Some u0) = Some u0' ->
  exists k,
    0 <= k <= 9
    /\ forall u,
         exists u',
           uint_of_char c (Some u) = Some u'
           /\ Z.of_uint u'
              = k * 10 ^ Z.of_N (DecimalPos.Unsigned.usize u) + Z.of_uint u
           /\ DecimalPos.Unsigned.usize u'
              = N.succ (DecimalPos.Unsigned.usize u).
Proof.
  intros H. apply uint_of_char_spec in H.
  destruct H as [[-> _] | [[-> _] | [[-> _] | [[-> _] | [[-> _] | [[-> _]
               | [[-> _] | [[-> _] | [[-> _] | [-> _]]]]]]]]]].
  - exists 0. split; [lia |]. intros u. eexists. split; [reflexivity |].
    split; [apply (of_uint_step D0 0%N); reflexivity | reflexivity].
  - exists 1. split; [lia |]. intros u. eexists. split; [reflexivity |].
    split; [apply (of_uint_step D1 1%N); reflexivity | reflexivity].
  - exists 2. split; [lia |]. intros u. eexists. split; [reflexivity |].
    split; [apply (of_uint_step D2 2%N); reflexivity | reflexivity].
  - exists 3. split; [lia |]. intros u. eexists. split; [reflexivity |].
    split; [apply (of_uint_step D3 3%N); reflexivity | reflexivity].
  - exists 4. split; [lia |]. intros u. eexists. split; [reflexivity |].
    split; [apply (of_uint_step D4 4%N); reflexivity | reflexivity].
  - exists 5. split; [lia |]. intros u. eexists. split; [reflexivity |].
    split; [apply (of_uint_step D5 5%N); reflexivity | reflexivity].
  - exists 6. split; [lia |]. intros u. eexists. split; [reflexivity |].
    split; [apply (of_uint_step D6 6%N); reflexivity | reflexivity].
  - exists 7. split; [lia |]. intros u. eexists. split; [reflexivity |].
    split; [apply (of_uint_step D7 7%N); reflexivity | reflexivity].
  - exists 8. split; [lia |]. intros u. eexists. split; [reflexivity |].
    split; [apply (of_uint_step D8 8%N); reflexivity | reflexivity].
  - exists 9. split; [lia |]. intros u. eexists. split; [reflexivity |].
    split; [apply (of_uint_step D9 9%N); reflexivity | reflexivity].
Qed.

Lemma uint_of_char_some (c : ascii) (o : option uint) (u' : uint) :
  uint_of_char c o = Some u' -> exists u, o = Some u.
Proof.
  destruct o as [u |]; [eauto |].
  destruct c as [[|] [|] [|] [|] [|] [|] [|] [|]]; discriminate.
Qed.

(** A parsed string of [n] digits denotes a number below [10 ^ n]. *)
Lemma parsed_digits (s : string) : forall u,
  NilEmpty.uint_of_string s = Some u ->
  DecimalPos.Unsigned.usize u = N.of_nat (String.length s)
  /\ 0 <= Z.of_uint u < 10 ^ Z.of_nat (String.length s).
Proof.
  induction s as [| c s IH]; intros u H.
  - injection H as <-. cbn. split; [reflexivity | lia].
  - cbn [NilEmpty.uint_of_string] in H.
    destruct (uint_of_char_some _ _ _ H) as [v Hv]. rewrite Hv in H.
    destruct (IH v Hv) as [Hsize Hbound].
    destruct (digit_weight _ _ _ H) as [k [Hk Hall]].
    destruct (Hall v) as [u' [Hu' [Hval Hsz]]].
    rewrite H in Hu'. injection Hu' as <-.
    split.
    + rewrite Hsz, Hsize. cbn [String.length]. lia.
    + rewrite Hval, Hsize, nat_N_Z. cbn [String.length].
      rewrite Nat2Z.inj_succ, Z.pow_succ_r by lia. nia.
Qed.

(** Digits written side by side: the left part counts for as many powers
    of ten as the right part has digits. *)
Lemma parsed_append (a b : string) : forall ua ub,
  NilEmpty.uint_of_string a = Some ua ->
  NilEmpty.uint_of_string b = Some ub ->
  exists u,
    NilEmpty.uint_of_string (a ++ b) = Some u
    /\ Z.of_uint u
       = Z.of_uint ua * 10 ^ Z.of_nat (String.length b) + Z.of_uint ub.
Proof.
  induction a as [| c a IH]; intros ua ub Ha Hb.
  - injection Ha as <-. exists ub. split; [exact Hb |]. cbn. lia.
  - cbn [NilEmpty.uint_of_string] in Ha.
    destruct (uint_of_char_some _ _ _ Ha) as [va Hva]. rewrite Hva in Ha.
    destruct (IH va ub Hva Hb) as [v [Hv Hvalue]].
    destruct (parsed_digits _ _ Hva) as [Hsa _].
    destruct (parsed_digits _ _ Hv) as [Hsv _].
    destruct (digit_weight _ _ _ Ha) as [k [Hk Hall]].
    destruct (Hall va) as [ua' [Hua' [Hvala _]]].
    rewrite Ha in Hua'. injection Hua' as <-.
    destruct (Hall v) as [u [Hu [Hvalu _]]].
    exists u. cbn [append NilEmpty.uint_of_string]. rewrite Hv.
    split; [exact Hu |].
    rewrite Hvalu, Hvala, Hvalue, Hsa, Hsv, length_append, !nat_N_Z.
    rewrite Nat2Z.inj_add, Z.pow_add_r by lia. ring.
Qed.

(** Both parts of a parsed string are strings of digits. *)
Lemma parsed_parts (a b : string) : forall u,
  NilEmpty.uint_of_string (a ++ b) = Some u ->
  exists ua ub,
    NilEmpty.uint_of_string a = Some ua /\ NilEmpty.uint_of_string b = Some ub.
Proof.
  induction a as [| c a IH]; intros u H.
  - exists Nil, u. split; [reflexivity | exact H].
  - cbn [append NilEmpty.uint_of_string] in H.
    destruct (uint_of_char_some _ _ _ H) as [v Hv]. rewrite Hv in H.
    destruct (IH v Hv) as [ua [ub [Ha Hb]]].
    destruct (digit_weight _ _ _ H) as [k [_ Hall]].
    destruct (Hall ua) as [ua' [Hua' _]].
    exists ua', ub. cbn [NilEmpty.uint_of_string]. rewrite Ha.
    split; assumption.
Qed.

Lemma zeros_denote_zero (n : nat) :
  exists u,
    NilEmpty.uint_of_string (repeat_nat "0" n) = Some u /\ Z.of_uint u = 0.
Proof.
  induction n as [| n [u [Hu Hz]]]; cbn.
  - exists Nil. split; reflexivity.
  - rewrite Hu. exists (D0 u). split; [reflexivity | exact Hz].
Qed.

(** X19.  The decimal text of a non-negative amount denotes the amount
    divided by [10 ^ decimalsNum]: it is an integer part, a point and a
    fractional part of exactly [decimalsNum] digits; the integer part is
    not empty and denotes the quotient of the amount by
    [10 ^ decimalsNum], the fractional part denotes the remainder. *)
Theorem formatAmount_text_denotes (amount decimalsNum : Z)
    (Hamount : 0 <= amount) (Hdigits : 0 <= decimalsNum) :
  exists intPart decPart,
    formatAmount_text amount decimalsNum
    = Normal (intPart ++ "." ++ decPart)%string
    /\ intPart <> ""
    /\ Z.of_nat (String.length decPart) = decimalsNum
    /\ decimalValue intPart = Some (amount / 10 ^ decimalsNum)
    /\ decimalValue decPart = Some (amount mod 10 ^ decimalsNum).
Proof.
  destruct (toString_nonneg amount Hamount) as [u [Hstr Hval]].
  pose proof (NilEmpty.usu u) as Hparse.
  unfold formatAmount_text. rewrite Hstr.
  set (str := NilEmpty.string_of_uint u) in *.
  set (len := String.length str).
  assert (Hpow : 0 < 10 ^ decimalsNum) by (apply Z.pow_pos_nonneg; lia).
  assert (Hsplit : forall whole fraction,
            whole * 10 ^ decimalsNum + fraction = amount ->
            0 <= fraction < 10 ^ decimalsNum ->
            whole = amount / 10 ^ decimalsNum
            /\ fraction = amount mod 10 ^ decimalsNum).
  { intros whole fraction Hsum Hrange. split.
    - apply (Z.div_unique amount (10 ^ decimalsNum) whole fraction); lia.
    - apply (Z.mod_unique amount (10 ^ decimalsNum) whole fraction); lia. }
  destruct (Z.leb_spec (Z.of_nat len) decimalsNum) as [Hshort | Hlong].
  - unfold repeat.
    destruct (Z.ltb_spec (decimalsNum - Z.of_nat len) 0) as [| _]; [lia |].
    cbn [bindC].
    set (zeros := repeat_nat "0" (Z.to_nat (decimalsNum - Z.of_nat len))).
    exists "0", (zeros ++ str)%string.
    split; [reflexivity |]. split; [discriminate |].
    assert (Hlen : Z.of_nat (String.length (zeros ++ str)) = decimalsNum).
    { unfold zeros. rewrite length_append, repeat_nat_length. fold len. lia. }
    split; [exact Hlen |].
    destruct (zeros_denote_zero (Z.to_nat (decimalsNum - Z.of_nat len)))
      as [uz [Huz Hzero]]. fold zeros in Huz.
    destruct (parsed_append zeros str uz u Huz Hparse) as [v [Hv Hvalue]].
    destruct (parsed_digits _ _ Hv) as [_ Hbound]. rewrite Hlen in Hbound.
    rewrite Hzero, Hval in Hvalue. cbn in Hvalue.
    destruct (Hsplit 0 (Z.of_uint v)) as [Hq Hr]; [lia | lia |].
    unfold decimalValue. rewrite Hv. cbn. rewrite <- Hq, <- Hr.
    split; reflexivity.
  - unfold slice. fold len.
    assert (Hk : (Z.to_nat (Z.of_nat len - decimalsNum) <= len)%nat) by lia.
    destruct (Z.ltb_spec 0 0) as [| _]; [lia |].
    destruct (Z.ltb_spec (Z.of_nat len - decimalsNum) 0) as [| _]; [lia |].
    rewrite !Z.min_l by lia. rewrite Z.sub_0_r.
    replace (Z.to_nat (Z.of_nat len - (Z.of_nat len - decimalsNum)))
      with (len - Z.to_nat (Z.of_nat len - decimalsNum))%nat by lia.
    change (Z.to_nat 0) with 0%nat.
    set (k := Z.to_nat (Z.of_nat len - decimalsNum)) in *.
    pose proof (substring_split str k Hk) as Hcut. fold len in Hcut.
    set (intPart := substring 0 k str) in *.
    set (decPart := substring k (len - k) str) in *.
    exists intPart, decPart.
    split; [reflexivity |].
    assert (Hli : String.length intPart = k).
    { unfold intPart. apply substring_length. fold len. lia. }
    assert (Hlf : String.length decPart = (len - k)%nat).
    { unfold decPart. apply substring_length. fold len. lia. }
    split; [intros Hempty; rewrite Hempty in Hli; cbn in Hli; lia |].
    split; [rewrite Hlf; lia |].
    rewrite <- Hcut in Hparse.
    destruct (parsed_parts _ _ _ Hparse) as [ui [uf [Hi Hf]]].
    destruct (parsed_append _ _ _ _ Hi Hf) as [v [Hv Hvalue]].
    rewrite Hparse in Hv. injection Hv as <-.
    destruct (parsed_digits _ _ Hf) as [_ Hbound].
    assert (Hd : Z.of_nat (String.length decPart) = decimalsNum)
      by (rewrite Hlf; lia).
    rewrite Hd in Hvalue, Hbound. rewrite Hval in Hvalue.
    destruct (Hsplit (Z.of_uint ui) (Z.of_uint uf)) as [Hq Hr]; [lia | lia |].
    unfold decimalValue. rewrite Hi, Hf, <- Hq, <- Hr. split; reflexivity.
Qed.

Lemma formatAmount_text_denotes_witness :
  0 <= 1234567 /\ 0 <= 4
  /\ exists intPart decPart,
       formatAmount_text 1234567 4 = Normal (intPart ++ "." ++ decPart)%string
       /\ intPart <> ""
       /\ Z.of_nat (String.length decPart) = 4
       /\ decimalValue intPart = Some (1234567 / 10 ^ 4)
       /\ decimalValue decPart = Some (1234567 mod 10 ^ 4).
Proof.
  split; [lia |]. split; [lia |].
  apply (formatAmount_text_denotes 1234567 4); lia.
Defined.

(* ===================================================================== *)
(** ** Launching a coin *)
(* ===================================================================== *)

Lemma falsy_empty (s : string) : falsy s = true <-> s = "".
Proof. destruct s; cbn; split; congruence. Qed.

Lemma falsy_filled (s : string) : falsy s = false <-> s <> "".
Proof. destruct s; cbn; split; congruence. Qed.

Lemma ready_functional C options a1 a2 :
  Launch.ready C options a1 -> Launch.ready C options a2 -> a1 = a2.
Proof.
  intros [_ [_ [_ H1]]] [_ [_ [_ H2]]]. congruence.
Qed.

(** Past the four checks, the outcome is decided by the signer and the
    network. *)
Lemma launchCoin_ready C L options address :
  Launch.ready C options address ->
  Launch.launchCoin C L options
  = let message := Launch.messageFor L options address in
    match Launch.signMessage L address message with
    | Throw m => (Throw m, [Launch.CallSign address message])
    | Normal signature =>
        let body := Launch.requestOf L options address signature in
        let asked :=
          [Launch.CallSign address message;
           Launch.CallPost (Launch.endpoint L) body] in
        match Launch.fetch L (Launch.endpoint L) body with
        | Launch.Rejected m cause_code =>
            (Normal (Launch.launchCoin_catch L options address m cause_code),
             asked)
        | Launch.Resolved response =>
            match Launch.json response with
            | Launch.Unreadable m cause_code =>
                (Normal (Launch.launchCoin_catch L options address m
                           cause_code), asked)
            | Launch.Readable result =>
                if negb (Launch.ok response) || negb (Launch.r_success result)
                then (Normal (Failure (Launch.errorOf result) []), asked)
                else
                  (Normal (Success {|
                     Launch.l_message := Launch.msg_Launched;
                     Launch.coin_id := Launch.r_tokenAddress result;
                     Launch.coin_name := Launch.o_name options;
                     Launch.coin_symbol := Launch.o_symbol options;
                     Launch.coin_totalSupply := Launch.r_totalSupply result;
                     Launch.coin_contractAddress :=
                       Launch.r_tokenAddress result;
                     Launch.coin_transactionHash :=
                       Launch.r_transactionHash result;
                     Launch.coin_creator := address;
                     Launch.coin_status := "launched";
                     Launch.coin_url := Launch.orNull (Launch.o_url options);
                     Launch.coin_github :=
                       Launch.orNull (Launch.o_github options);
                     Launch.coin_description :=
                       Launch.orNull (Launch.o_description options);
                     Launch.l_note := None
                   |}), asked)
            end
        end
    end.
Proof.
  intros [Hn [Hs [Hw Hu]]].
  apply falsy_filled in Hn. apply falsy_filled in Hs.
  unfold Launch.launchCoin. rewrite Hn, Hs, Hw, Hu. reflexivity.
Qed.

(** When a check does not pass, the result is a failure and nothing was
    asked of the signer or of the network. *)
Lemma launchCoin_not_ready C L options :
  ~ (exists address, Launch.ready C options address) ->
  exists error context,
    Launch.launchCoin C L options = (Normal (Failure error context), []).
Proof.
  intros Hnot. unfold Launch.launchCoin.
  destruct (falsy (Launch.o_name options)) eqn:Hn; [eauto |].
  destruct (falsy (Launch.o_symbol options)) eqn:Hs; [eauto |].
  destruct (hasWallet C) eqn:Hw; cbn [negb]; [| eauto].
  destruct (getDecryptedWallet C (Launch.o_password options))
    as [error context | address] eqn:Hu; [eauto |].
  exfalso. apply Hnot. exists address.
  apply falsy_filled in Hn. apply falsy_filled in Hs.
  repeat split; assumption.
Qed.

Lemma ready_or_not C options :
  (exists address, Launch.ready C options address)
  \/ ~ (exists address, Launch.ready C options address).
Proof.
  unfold Launch.ready.
  destruct (falsy (Launch.o_name options)) eqn:Hn.
  { right. intros [a [H _]]. apply falsy_empty in Hn. contradiction. }
  destruct (falsy (Launch.o_symbol options)) eqn:Hs.
  { right. intros [a [_ [H _]]]. apply falsy_empty in Hs. contradiction. }
  destruct (hasWallet C) eqn:Hw.
  2:{ right. intros [a [_ [_ [H _]]]]. discriminate H. }
  destruct (getDecryptedWallet C (Launch.o_password options))
    as [error context | address] eqn:Hu.
  { right. intros [a [_ [_ [_ H]]]]. discriminate H. }
  left. exists address.
  apply falsy_filled in Hn. apply falsy_filled in Hs.
  repeat split; assumption.
Qed.



(** Called without an argument, [launchCoin] rejects; called with an
    object it resolves unless signing fails. *)
Example launchCoin_call_without_options :
  Launch.launchCoin_call Sample.world Launch.online Launch.PassedUndefined
  = (Throw "Cannot destructure property 'password' of 'options' as it is undefined.",
     [])
  /\ fst (Launch.launchCoin_call Sample.world Launch.unsigned
            (Launch.PassedObject Launch.vibe))
     = Throw "signing rejected".
Proof. split; vm_compute; reflexivity. Qed.

(** X21.  Nothing is signed and nothing is sent unless the name, the
    symbol, the wallet and the password have been checked, and then the
    trace begins with the signature request.  A request to the API is the
    second and last call of a launch: it goes to [/api/launch] of the
    configured base, after the wallet that the password unlocked has
    signed exactly the message the request carries, and it carries the
    signature that the wallet returned. *)
Theorem launchCoin_footprint C L options :
  let t := snd (Launch.launchCoin C L options) in
  (t = [] <-> ~ exists address, Launch.ready C options address)
  /\ (forall address,
        Launch.ready C options address ->
        exists rest,
          t = Launch.CallSign address (Launch.messageFor L options address)
              :: rest)
  /\ (forall url body,
        In (Launch.CallPost url body) t ->
        t = [Launch.CallSign (Launch.rq_walletAddress body)
               (Launch.rq_message body);
             Launch.CallPost url body]
        /\ url = Launch.endpoint L
        /\ Launch.ready C options (Launch.rq_walletAddress body)
        /\ Launch.signMessage L (Launch.rq_walletAddress body)
             (Launch.rq_message body)
           = Normal (Launch.rq_signature body)).
Proof.
  cbn zeta.
  destruct (ready_or_not C options) as [[address Hready] | Hnot].
  - rewrite (launchCoin_ready C L options address Hready). cbn zeta.
    assert (Hshape :
      forall (r : Completion (Result Launch.Launched)) signature,
        Launch.signMessage L address (Launch.messageFor L options address)
        = Normal signature ->
        forall url body,
          In (Launch.CallPost url body)
            [Launch.CallSign address (Launch.messageFor L options address);
             Launch.CallPost (Launch.endpoint L)
               (Launch.requestOf L options address signature)] ->
          [Launch.CallSign address (Launch.messageFor L options address);
           Launch.CallPost (Launch.endpoint L)
             (Launch.requestOf L options address signature)]
          = [Launch.CallSign (Launch.rq_walletAddress body)
               (Launch.rq_message body);
             Launch.CallPost url body]
          /\ url = Launch.endpoint L
          /\ Launch.ready C options (Launch.rq_walletAddress body)
          /\ Launch.signMessage L (Launch.rq_walletAddress body)
               (Launch.rq_message body)
             = Normal (Launch.rq_signature body)).
    { intros _ signature Hsig url body [Hin | [Hin | []]];
        [discriminate Hin |].
      injection Hin as <- <-. cbn.
      repeat split; try assumption; apply Hready. }
    destruct (Launch.signMessage L address _) as [signature | m] eqn:Hsig.
    + destruct (Launch.fetch L _ _) as [m1 code | response].
      * cbn [snd]. split; [| split].
        -- split; [discriminate | intros Hn; exfalso; eauto].
        -- intros a Ha.
           rewrite (ready_functional _ _ _ _ Ha Hready). eauto.
        -- apply (Hshape (Throw "") signature eq_refl).
      * destruct (Launch.json response) as [result | m1 code1].
        -- destruct (negb (Launch.ok response)
                     || negb (Launch.r_success result));
             cbn [snd]; (split; [| split]);
             [ split; [discriminate | intros Hn; exfalso; eauto]
             | intros a Ha;
               rewrite (ready_functional _ _ _ _ Ha Hready); eauto
             | apply (Hshape (Throw "") signature eq_refl)
             | split; [discriminate | intros Hn; exfalso; eauto]
             | intros a Ha;
               rewrite (ready_functional _ _ _ _ Ha Hready); eauto
             | apply (Hshape (Throw "") signature eq_refl) ].
        -- cbn [snd]. split; [| split].
           ++ split; [discriminate | intros Hn; exfalso; eauto].
           ++ intros a Ha.
              rewrite (ready_functional _ _ _ _ Ha Hready). eauto.
           ++ apply (Hshape (Throw "") signature eq_refl).
    + cbn [snd]. split; [| split].
      * split; [discriminate | intros Hn; exfalso; eauto].
      * intros a Ha.
        rewrite (ready_functional _ _ _ _ Ha Hready). eauto.
      * intros url body [Hin | []]. discriminate Hin.
  - destruct (launchCoin_not_ready C L options Hnot) as [e [ctx He]].
    rewrite He. cbn [snd]. split; [| split].
    + split; [intros _; exact Hnot | reflexivity].
    + intros a Ha. exfalso. eauto.
    + intros url body [].
Qed.

Lemma launchCoin_footprint_witness :
  Launch.ready Sample.world Launch.vibe "0xAlice"
  /\ exists rest,
       snd (Launch.launchCoin Sample.world Launch.online Launch.vibe)
       = Launch.CallSign "0xAlice"
           (Launch.messageFor Launch.online Launch.vibe "0xAlice") :: rest.
Proof.
  assert (Hready : Launch.ready Sample.world Launch.vibe "0xAlice").
  { repeat split; try discriminate; reflexivity. }
  split; [exact Hready |].
  destruct (launchCoin_footprint Sample.world Launch.online Launch.vibe)
    as [_ [Hsign _]].
  exact (Hsign "0xAlice" Hready).
Defined.

Lemma catch_success L options address m cause_code p :
  Launch.launchCoin_catch L options address m cause_code = Success p ->
  (Launch.refused cause_code = true \/ includes m "fetch" = true)
  /\ Launch.l_note p = Some Launch.note_Stub
  /\ Launch.l_message p = Launch.msg_Stub
  /\ Launch.coin_totalSupply p = None
  /\ Launch.coin_id p = Some (Launch.mockContractAddress L)
  /\ Launch.coin_contractAddress p = Some (Launch.mockContractAddress L)
  /\ Launch.coin_transactionHash p = Some (Launch.mockTxHash L)
  /\ Launch.coin_creator p = address
  /\ Launch.coin_name p = Launch.o_name options
  /\ Launch.coin_symbol p = Launch.o_symbol options
  /\ Launch.coin_status p = "launched".
Proof.
  unfold Launch.launchCoin_catch.
  destruct (Launch.refused cause_code || includes m "fetch") eqn:Hstub;
    [| discriminate].
  intros H. injection H as <-. cbn.
  apply orb_true_iff in Hstub. repeat split. exact Hstub.
Qed.

Lemma refused_iff cause_code :
  Launch.refused cause_code = true <-> cause_code = Some "ECONNREFUSED".
Proof.
  destruct cause_code as [code |]; cbn.
  - rewrite String.eqb_eq. split; congruence.
  - split; discriminate.
Qed.

(** X22.  [launchCoin] reports success in two situations only, after the
    checks have passed and the wallet has signed: the API answered with a
    status in the 200s and a reply whose [success] is truthy, or the API
    could not be reached (the request or the reading of the reply failed
    with cause code ECONNREFUSED or with a message that contains
    "fetch").  So a reported success does not imply that a coin was
    deployed. *)
Theorem launchCoin_succeeds_iff C L options :
  (exists p t, Launch.launchCoin C L options = (Normal (Success p), t))
  <-> exists address signature,
        Launch.ready C options address
        /\ Launch.signMessage L address (Launch.messageFor L options address)
           = Normal signature
        /\ let answer :=
             Launch.fetch L (Launch.endpoint L)
               (Launch.requestOf L options address signature) in
           (exists result, Launch.accepted answer result)
           \/ Launch.unreachable answer.
Proof.
  split.
  - intros [p [t H]].
    destruct (ready_or_not C options) as [[address Hready] | Hnot].
    2:{ destruct (launchCoin_not_ready C L options Hnot) as [e [ctx He]].
        rewrite He in H. discriminate H. }
    rewrite (launchCoin_ready C L options address Hready) in H.
    cbn zeta in H.
    destruct (Launch.signMessage L address _) as [signature | m] eqn:Hsig;
      [| discriminate H].
    exists address, signature. split; [exact Hready |].
    split; [exact Hsig |]. cbn zeta.
    destruct (Launch.fetch L _ _) as [m1 code | response] eqn:Hf.
    + right. exists m1, code. split; [left; reflexivity |].
      injection H as H _.
      destruct (catch_success _ _ _ _ _ _ H) as [[Hc | Hc] _].
      * left. now apply refused_iff.
      * right. exact Hc.
    + destruct (Launch.json response) as [result | m1 code1] eqn:Hj.
      * destruct (Launch.ok response) eqn:Hok; cbn [negb orb] in H;
          [| discriminate H].
        destruct (Launch.r_success result) eqn:Hs; cbn [negb] in H;
          [| discriminate H].
        left. exists result, response. repeat split; assumption.
      * right. exists m1, code1.
        split; [right; exists response; split; [reflexivity | exact Hj] |].
        injection H as H _.
        destruct (catch_success _ _ _ _ _ _ H) as [[Hc | Hc] _].
        -- left. now apply refused_iff.
        -- right. exact Hc.
  - intros [address [signature [Hready [Hsig Hanswer]]]].
    rewrite (launchCoin_ready C L options address Hready).
    cbn zeta in *. rewrite Hsig.
    destruct Hanswer as [[result [response [Hf [Hok [Hj Hs]]]]] | Hun].
    + rewrite Hf, Hj, Hok, Hs. cbn [negb orb]. eauto.
    + destruct Hun as [m [code [Hf Hc]]].
      assert (Hstub : Launch.refused code || includes m "fetch" = true).
      { apply orb_true_iff. destruct Hc as [Hc | Hc];
          [left; now apply refused_iff | right; exact Hc]. }
      destruct Hf as [Hf | [response [Hf Hj]]].
      * rewrite Hf. unfold Launch.launchCoin_catch.
        rewrite Hstub. eauto.
      * rewrite Hf, Hj. unfold Launch.launchCoin_catch.
        rewrite Hstub. eauto.
Qed.



(** A success either has no note or is the stub, with the mock
    identifiers. *)
Lemma launchCoin_success_note C L options p t :
  Launch.launchCoin C L options = (Normal (Success p), t) ->
  Launch.l_note p = None
  \/ (Launch.coin_id p = Some (Launch.mockContractAddress L)
      /\ Launch.coin_contractAddress p = Some (Launch.mockContractAddress L)
      /\ Launch.coin_transactionHash p = Some (Launch.mockTxHash L)).
Proof.
  intros H.
  destruct (ready_or_not C options) as [[address Hready] | Hnot].
  2:{ destruct (launchCoin_not_ready C L options Hnot) as [e [ctx He]].
      rewrite He in H. discriminate H. }
  rewrite (launchCoin_ready C L options address Hready) in H.
  cbn zeta in H.
  destruct (Launch.signMessage L address _) as [signature | m];
    [| discriminate H].
  destruct (Launch.fetch L _ _) as [m1 code | response].
  - injection H as H _. right.
    destruct (catch_success _ _ _ _ _ _ H)
      as [_ [_ [_ [_ [F4 [F5 [F6 _]]]]]]].
    repeat split; assumption.
  - destruct (Launch.json response) as [result | m1 code1].
    + destruct (negb (Launch.ok response) || negb (Launch.r_success result));
        [discriminate H |].
      injection H as <- _. left. reflexivity.
    + injection H as H _. right.
      destruct (catch_success _ _ _ _ _ _ H)
        as [_ [_ [_ [_ [F4 [F5 [F6 _]]]]]]].
      repeat split; assumption.
Qed.

(** One draw in range prints as one hexadecimal character. *)
Lemma hexDigit_char (n : Z) :
  0 <= n < 16 ->
  exists c, Launch.hexDigit n = String c "" /\ Launch.isHexChar c = true.
Proof.
  intros Hn.
  replace n with (Z.of_nat (Z.to_nat n)) by lia.
  assert (Hlt : (Z.to_nat n < 16)%nat) by lia.
  generalize dependent (Z.to_nat n). clear n Hn. intros k Hk.
  do 16 (destruct k as [| k]; [vm_compute; eauto |]).
  lia.
Qed.

Lemma hexDraws_shape L :
  (forall k, 0 <= Launch.random16 L k < 16) ->
  forall count first,
    String.length (Launch.hexDraws L first count) = count
    /\ Launch.isHexText (Launch.hexDraws L first count) = true.
Proof.
  intros Hrange count.
  induction count as [| count IH]; intros first; cbn [Launch.hexDraws].
  - split; reflexivity.
  - destruct (hexDigit_char _ (Hrange first)) as [c [-> Hc]].
    destruct (IH (S first)) as [Hlen Hhex].
    cbn. rewrite Hlen, Hc, Hhex. split; reflexivity.
Qed.

(** X24.  In stub mode the coin gets a well-formed mock address and
    transaction hash: "0x" followed by 40, respectively 64, lower-case
    hexadecimal digits -- given that every draw
    [Math.floor(Math.random() * 16)] lies between 0 and 15. *)
Theorem launchCoin_mock_identifiers C L options p t :
  (forall k, 0 <= Launch.random16 L k < 16) ->
  Launch.launchCoin C L options = (Normal (Success p), t) ->
  Launch.l_note p <> None ->
  exists address hash,
    Launch.coin_contractAddress p = Some ("0x" ++ address)%string
    /\ Launch.coin_id p = Some ("0x" ++ address)%string
    /\ Launch.coin_transactionHash p = Some ("0x" ++ hash)%string
    /\ String.length address = 40%nat
    /\ String.length hash = 64%nat
    /\ Launch.isHexText address = true
    /\ Launch.isHexText hash = true.
Proof.
  intros Hrange H Hnote.
  destruct (launchCoin_success_note C L options p t H)
    as [Hreal | [Hid [Haddr Hhash]]]; [contradiction |].
  exists (Launch.hexDraws L 64 40), (Launch.hexDraws L 0 64).
  destruct (hexDraws_shape L Hrange 40 64%nat) as [L1 X1].
  destruct (hexDraws_shape L Hrange 64 0%nat) as [L2 X2].
  repeat split; assumption.
Qed.

Lemma launchCoin_mock_identifiers_witness :
  exists p t,
    Launch.launchCoin Sample.world Launch.offline Launch.vibe
    = (Normal (Success p), t)
    /\ exists address,
         Launch.coin_contractAddress p = Some ("0x" ++ address)%string
         /\ String.length address = 40%nat.
Proof.
  assert (Hrange : forall k, 0 <= Launch.random16 Launch.offline k < 16).
  { intros k. change (0 <= Z.of_nat (k mod 16) < 16).
    pose proof (Nat.mod_upper_bound k 16 ltac:(discriminate)). lia. }
  eexists. eexists. split; [vm_compute; reflexivity |].
  match goal with
  | |- exists address, Launch.coin_contractAddress ?p = _ /\ _ =>
      destruct (launchCoin_mock_identifiers
                  Sample.world Launch.offline Launch.vibe p
                  (snd (Launch.launchCoin Sample.world Launch.offline
                          Launch.vibe)) Hrange eq_refl)
        as [address [hash [Haddr [_ [_ [Hlen _]]]]]]
  end.
  { cbn. discriminate. }
  exists address. split; [exact Haddr | exact Hlen].
Defined.

(* ===================================================================== *)
(** ** The launch message *)
(* ===================================================================== *)

Lemma append_cancel_l (p x y : string) :
  (p ++ x = p ++ y)%string -> x = y.
Proof.
  induction p as [| c p IH]; cbn; intros H; [exact H |].
  injection H as H. exact (IH H).
Qed.

(** A line ends at the first newline. *)
Lemma line_split (a a' b b' : string) :
  Launch.singleLine a = true ->
  Launch.singleLine a' = true ->
  (a ++ Launch.newline ++ b = a' ++ Launch.newline ++ b')%string ->
  a = a' /\ b = b'.
Proof.
  revert a'.
  induction a as [| c a IH]; intros [| c' a'] Ha Ha' H; cbn in H.
  - injection H as H. split; [reflexivity | exact H].
  - exfalso. injection H as Hc _. subst c'.
    cbn in Ha'. discriminate Ha'.
  - exfalso. injection H as Hc _. subst c.
    cbn in Ha. discriminate Ha.
  - injection H as -> H.
    cbn in Ha, Ha'.
    apply andb_true_iff in Ha. apply andb_true_iff in Ha'.
    destruct (IH a' (proj2 Ha) (proj2 Ha') H) as [-> ->].
    split; reflexivity.
Qed.

Lemma toString_injective (x y : Z) : toString x = toString y -> x = y.
Proof.
  intros H.
  pose proof (readAmount_toString x) as Hx.
  rewrite H, readAmount_toString in Hx. congruence.
Qed.

(** X25.  The signed launch message determines what is launched: for a
    name, a symbol and a creator address without a line break, two
    launches sign the same message only if they have the same name, the
    same symbol, the same creator and the same timestamp. *)
Theorem launchMessage_injective
    (name symbol creator name' symbol' creator' : string)
    (timestamp timestamp' : Z) :
  Launch.singleLine name = true -> Launch.singleLine name' = true ->
  Launch.singleLine symbol = true -> Launch.singleLine symbol' = true ->
  Launch.singleLine creator = true -> Launch.singleLine creator' = true ->
  Launch.launchMessage name symbol creator timestamp
  = Launch.launchMessage name' symbol' creator' timestamp' ->
  name = name' /\ symbol = symbol' /\ creator = creator'
  /\ timestamp = timestamp'.
Proof.
  intros Hn Hn' Hs Hs' Hc Hc' H.
  unfold Launch.launchMessage in H.
  do 4 apply append_cancel_l in H.
  apply line_split in H; [| assumption | assumption].
  destruct H as [-> H].
  apply append_cancel_l in H.
  apply line_split in H; [| assumption | assumption].
  destruct H as [-> H].
  apply append_cancel_l in H.
  apply line_split in H; [| assumption | assumption].
  destruct H as [-> H].
  apply append_cancel_l in H.
  apply toString_injective in H.
  repeat split; assumption.
Qed.

Lemma launchMessage_injective_witness :
  Launch.singleLine "Vibe" = true
  /\ Launch.singleLine "0xAlice" = true
  /\ Launch.launchMessage "Vibe" "VIBE" "0xAlice" 1700000500000
     = Launch.messageFor Launch.online Launch.vibe "0xAlice"
  /\ ("Vibe" = Launch.o_name Launch.vibe
      /\ "VIBE" = Launch.o_symbol Launch.vibe
      /\ "0xAlice" = "0xAlice"
      /\ 1700000500000 = Launch.Date_now Launch.online).
Proof.
  split; [reflexivity |]. split; [reflexivity |].
  split; [reflexivity |].
  apply (launchMessage_injective "Vibe" "VIBE" "0xAlice"
           (Launch.o_name Launch.vibe) (Launch.o_symbol Launch.vibe)
           "0xAlice" 1700000500000 (Launch.Date_now Launch.online));
    reflexivity.
Defined.

(** With a line break in the name the message no longer tells the name
    from the symbol. *)
Lemma launchMessage_ambiguous_with_line_breaks :
  let name := ("A" ++ Launch.newline ++ "Symbol: B")%string in
  let symbol' := ("B" ++ Launch.newline ++ "Symbol: C")%string in
  Launch.launchMessage name "C" "0xAlice" 0
  = Launch.launchMessage "A" symbol' "0xAlice" 0
  /\ name <> "A".
Proof.
  cbn zeta. split; [vm_compute; reflexivity | discriminate].
Qed.
